(** * org-repo-newsletter: the agent loop, the token budgeter, the
      tool-host adapter and the summary extractor

    A shallow embedding of the class [OpenAIAgent] (the token-managing
    version of [openai-agent.ts], lines 122 to 498 of [src/config.ts]) and of
    the class [GitHubMCPClient] ([src/mcp-client.ts]) together with the parts
    of the JavaScript runtime they rely on ([String.prototype.substring],
    [JSON.parse], truthiness, the regular expression [/\{[\s\S]*\}/]).

    Conventions.
    - A JavaScript string is the list of its UTF-16 code units
      ([jsstring := list N]); [length] is [String.prototype.length].
    - Exceptions are explicit: a computation that may throw returns a
      [completion].
    - The reasoning service and the capability host live outside the
      program; they are threaded through as an explicit world state.
    - Token budgets are integers, as the two budgets of the program are.
    - [console.log] / [console.warn] / [console.error] output is not
      modelled. *)

From Stdlib Require Import String Ascii ZArith NArith Lia Bool DecimalString.
From stdpp Require Import base option list gmap.

Local Open Scope Z_scope.

(** ** JavaScript strings *)

Module JS.

Definition jsstring : Type := list N.

(** Source text of a literal.  In the literals of this file the backquote
    stands for the double quote (code unit 34); no string literal of the
    program contains a backquote. *)
Fixpoint js (s : string) : jsstring :=
  match s with
  | EmptyString => []
  | String a s' =>
      (if Ascii.eqb a "`"%char then 34%N else N_of_ascii a) :: js s'
  end.

Definition LF : jsstring := [10%N].

(** [s.length] *)
Definition strlen (s : jsstring) : Z := Z.of_nat (length s).

(** [s.substring(0, n)] for an integral [n]: the end index is clamped to
    [0 .. s.length]. *)
Definition substring0 (s : jsstring) (n : Z) : jsstring :=
  take (Z.to_nat n) s.

(** [a === b] on strings *)
Definition str_eqb (a b : jsstring) : bool := bool_decide (a = b).

(** [s.startsWith(p)] *)
Fixpoint startsWith (s p : jsstring) : bool :=
  match p, s with
  | [], _ => true
  | c :: p', d :: s' => if N.eqb c d then startsWith s' p' else false
  | _ :: _, [] => false
  end.

(** [s.includes(p)] *)
Fixpoint includes (s p : jsstring) : bool :=
  startsWith s p ||
  match s with
  | [] => false
  | _ :: s' => includes s' p
  end.

(** [parts.join(sep)] *)
Fixpoint join (sep : jsstring) (parts : list jsstring) : jsstring :=
  match parts with
  | [] => []
  | [p] => p
  | p :: rest => p ++ sep ++ join sep rest
  end.

(** Truthiness of a string: only the empty string is falsy. *)
Definition str_truthy (s : jsstring) : bool :=
  match s with [] => false | _ :: _ => true end.

(** [a || b] on strings *)
Definition str_or (a b : jsstring) : jsstring :=
  if str_truthy a then a else b.

(** [a || b] where [a] is a string or [null] *)
Definition nullable_or (a : option jsstring) (b : jsstring) : jsstring :=
  match a with
  | Some s => str_or s b
  | None => b
  end.

(** Thrown values.  [Error_ m] is [new Error(m)] (or a rejection whose
    text is [m]); [SyntaxError_ text] is what [JSON.parse] throws on the
    text it rejects, its message being the engine's. *)
Inductive exn : Type :=
| Error_ (message : jsstring)
| SyntaxError_ (text : jsstring).

Inductive completion (A : Type) : Type :=
| Normal (a : A)
| Throw (e : exn).

Arguments Normal {A} a.
Arguments Throw {A} e.

End JS.

Import JS.

(** ** JSON values and [JSON.parse] *)

Module Json.

(** A number literal denotes [(-1)^neg * digits * 10^exp10]. *)
Record jsnumber : Type := mkNumber {
  num_neg : bool;
  num_digits : N;
  num_exp10 : Z
}.

#[local] Unset Elimination Schemes.

Inductive json : Type :=
| JNull
| JBool (b : bool)
| JNum (n : jsnumber)
| JStr (s : jsstring)
| JArr (items : list json)
| JObj (members : list (jsstring * json)).

#[local] Set Elimination Schemes.

(** A number is falsy when it is [0] or [-0].  [JSON.parse] rounds the
    literal to the nearest binary64 value, so the literal reads as zero
    exactly when its magnitude is at most [2^-1075], half of the smallest
    subnormal (the tie goes to the even neighbour, which is zero). *)
Definition num_is_zero (n : jsnumber) : bool :=
  (num_digits n =? 0)%N ||
  ((num_exp10 n <? 0) &&
   (Z.of_N (num_digits n) * 2 ^ 1075 <=? 10 ^ (- num_exp10 n))).

(** [Boolean(v)] *)
Definition truthy (v : json) : bool :=
  match v with
  | JNull => false
  | JBool b => b
  | JNum n => negb (num_is_zero n)
  | JStr s => str_truthy s
  | JArr _ => true
  | JObj _ => true
  end.

(** *** Lexical analysis *)

Inductive token : Type :=
| TLBrace | TRBrace | TLBracket | TRBracket | TColon | TComma
| TString (s : jsstring)
| TNumber (n : jsnumber)
| TTrue | TFalse | TNull.

(** Where the scanner stands inside a number: an optional minus sign; the
    integer part, either a single 0 or a nonzero digit and more digits; an
    optional fraction, a dot and at least one digit; an optional exponent,
    e or E, an optional sign and at least one digit. *)
Inductive numstate : Type :=
| NSign | NZero | NInt | NDot | NFrac | NExpMark | NExpSign | NExp.

Record numacc : Type := mkAcc {
  na_neg : bool;      (* leading minus *)
  na_digits : N;      (* integer and fraction digits read so far *)
  na_frac : Z;        (* how many of them are fraction digits *)
  na_eneg : bool;     (* the exponent is negative *)
  na_exp : N          (* exponent digits read so far *)
}.

Definition acc0 (neg : bool) : numacc := mkAcc neg 0 0 false 0.

Definition push_int (a : numacc) (d : N) : numacc :=
  mkAcc (na_neg a) (na_digits a * 10 + d) (na_frac a) (na_eneg a) (na_exp a).

Definition push_frac (a : numacc) (d : N) : numacc :=
  mkAcc (na_neg a) (na_digits a * 10 + d) (na_frac a + 1) (na_eneg a) (na_exp a).

Definition push_exp (a : numacc) (d : N) : numacc :=
  mkAcc (na_neg a) (na_digits a) (na_frac a) (na_eneg a) (na_exp a * 10 + d).

Definition set_eneg (a : numacc) : numacc :=
  mkAcc (na_neg a) (na_digits a) (na_frac a) true (na_exp a).

Definition num_finish (a : numacc) : jsnumber :=
  mkNumber (na_neg a) (na_digits a)
    ((if na_eneg a then - Z.of_N (na_exp a) else Z.of_N (na_exp a)) - na_frac a).

Inductive lexmode : Type :=
| LStart
| LString (acc : jsstring)                    (* characters so far, reversed *)
| LEscape (acc : jsstring)                    (* just after a backslash *)
| LUnicode (acc : jsstring) (k : nat) (v : N) (* in \uXXXX, [S k] digits to go *)
| LKeyword (rest : jsstring) (t : token)      (* inside true / false / null *)
| LNumber (st : numstate) (a : numacc).

Definition is_ws (c : N) : bool :=
  (c =? 32)%N || (c =? 9)%N || (c =? 10)%N || (c =? 13)%N.

Definition digit_val (c : N) : option N :=
  if (48 <=? c)%N && (c <=? 57)%N then Some (c - 48)%N else None.

Definition hex_val (c : N) : option N :=
  if (48 <=? c)%N && (c <=? 57)%N then Some (c - 48)%N
  else if (97 <=? c)%N && (c <=? 102)%N then Some (c - 87)%N
  else if (65 <=? c)%N && (c <=? 70)%N then Some (c - 55)%N
  else None.

(** One character read between tokens. *)
Definition lex_start (c : N) : option (lexmode * list token) :=
  if is_ws c then Some (LStart, [])
  else match c with
  | 123%N => Some (LStart, [TLBrace])
  | 125%N => Some (LStart, [TRBrace])
  | 91%N => Some (LStart, [TLBracket])
  | 93%N => Some (LStart, [TRBracket])
  | 58%N => Some (LStart, [TColon])
  | 44%N => Some (LStart, [TComma])
  | 34%N => Some (LString [], [])
  | 116%N => Some (LKeyword (js "rue") TTrue, [])
  | 102%N => Some (LKeyword (js "alse") TFalse, [])
  | 110%N => Some (LKeyword (js "ull") TNull, [])
  | 45%N => Some (LNumber NSign (acc0 true), [])
  | 48%N => Some (LNumber NZero (acc0 false), [])
  | _ =>
      match digit_val c with
      | Some d => Some (LNumber NInt (push_int (acc0 false) d), [])
      | None => None
      end
  end.

Definition is_e (c : N) : bool := (c =? 101)%N || (c =? 69)%N.

(** One character read inside a number.  A character that cannot continue
    the number ends it and is then read as the start of the next token. *)
Definition lex_number (st : numstate) (a : numacc) (c : N)
  : option (lexmode * list token) :=
  let stop :=
    match lex_start c with
    | Some (m, ts) => Some (m, TNumber (num_finish a) :: ts)
    | None => None
    end in
  match st with
  | NSign =>
      if (c =? 48)%N then Some (LNumber NZero a, [])
      else match digit_val c with
           | Some d => Some (LNumber NInt (push_int a d), [])
           | None => None
           end
  | NZero =>
      if (c =? 46)%N then Some (LNumber NDot a, [])
      else if is_e c then Some (LNumber NExpMark a, [])
      else stop
  | NInt =>
      match digit_val c with
      | Some d => Some (LNumber NInt (push_int a d), [])
      | None =>
          if (c =? 46)%N then Some (LNumber NDot a, [])
          else if is_e c then Some (LNumber NExpMark a, [])
          else stop
      end
  | NDot =>
      match digit_val c with
      | Some d => Some (LNumber NFrac (push_frac a d), [])
      | None => None
      end
  | NFrac =>
      match digit_val c with
      | Some d => Some (LNumber NFrac (push_frac a d), [])
      | None => if is_e c then Some (LNumber NExpMark a, []) else stop
      end
  | NExpMark =>
      if (c =? 43)%N then Some (LNumber NExpSign a, [])
      else if (c =? 45)%N then Some (LNumber NExpSign (set_eneg a), [])
      else match digit_val c with
           | Some d => Some (LNumber NExp (push_exp a d), [])
           | None => None
           end
  | NExpSign =>
      match digit_val c with
      | Some d => Some (LNumber NExp (push_exp a d), [])
      | None => None
      end
  | NExp =>
      match digit_val c with
      | Some d => Some (LNumber NExp (push_exp a d), [])
      | None => stop
      end
  end.

Definition lex_escape (acc : jsstring) (c : N) : option (lexmode * list token) :=
  match c with
  | 34%N => Some (LString (34%N :: acc), [])
  | 92%N => Some (LString (92%N :: acc), [])
  | 47%N => Some (LString (47%N :: acc), [])
  | 98%N => Some (LString (8%N :: acc), [])
  | 102%N => Some (LString (12%N :: acc), [])
  | 110%N => Some (LString (10%N :: acc), [])
  | 114%N => Some (LString (13%N :: acc), [])
  | 116%N => Some (LString (9%N :: acc), [])
  | 117%N => Some (LUnicode acc 3 0%N, [])
  | _ => None
  end.

Definition lex_step (m : lexmode) (c : N) : option (lexmode * list token) :=
  match m with
  | LStart => lex_start c
  | LString acc =>
      if (c =? 34)%N then Some (LStart, [TString (rev acc)])
      else if (c =? 92)%N then Some (LEscape acc, [])
      else if (c <? 32)%N then None
      else Some (LString (c :: acc), [])
  | LEscape acc => lex_escape acc c
  | LUnicode acc k v =>
      match hex_val c with
      | Some h =>
          match k with
          | O => Some (LString ((v * 16 + h)%N :: acc), [])
          | S k' => Some (LUnicode acc k' (v * 16 + h)%N, [])
          end
      | None => None
      end
  | LKeyword rest t =>
      match rest with
      | [] => None
      | [d] => if (c =? d)%N then Some (LStart, [t]) else None
      | d :: rest' => if (c =? d)%N then Some (LKeyword rest' t, []) else None
      end
  | LNumber st a => lex_number st a c
  end.

(** End of input. *)
Definition lex_finish (m : lexmode) : option (list token) :=
  match m with
  | LStart => Some []
  | LNumber NZero a | LNumber NInt a | LNumber NFrac a | LNumber NExp a =>
      Some [TNumber (num_finish a)]
  | _ => None
  end.

Fixpoint lex (m : lexmode) (s : jsstring) : option (list token) :=
  match s with
  | [] => lex_finish m
  | c :: s' =>
      '(m', ts) ← lex_step m c;
      rest ← lex m' s';
      Some (ts ++ rest)
  end.

(** *** Grammar: a pushdown recogniser over the tokens *)

Inductive frame : Type :=
| InArr (done : list json)                          (* elements so far, reversed *)
| InObj (done : list (jsstring * json))             (* members so far, reversed *)
| InMember (done : list (jsstring * json)) (key : jsstring).

Inductive expect : Type :=
| EValue            (* a value must follow *)
| EValueOrClose     (* just after [ *)
| EKeyOrClose       (* just after { *)
| EKey              (* after a comma inside an object *)
| EColon (key : jsstring)
| EAfter (v : json) (* a value is complete *).

Definition scalar (t : token) : option json :=
  match t with
  | TString s => Some (JStr s)
  | TNumber n => Some (JNum n)
  | TTrue => Some (JBool true)
  | TFalse => Some (JBool false)
  | TNull => Some JNull
  | _ => None
  end.

Definition begin_value (t : token) (stack : list frame)
  : option (expect * list frame) :=
  match t with
  | TLBracket => Some (EValueOrClose, InArr [] :: stack)
  | TLBrace => Some (EKeyOrClose, InObj [] :: stack)
  | _ => v ← scalar t; Some (EAfter v, stack)
  end.

Definition parse_step (e : expect) (stack : list frame) (t : token)
  : option (expect * list frame) :=
  match e with
  | EValue => begin_value t stack
  | EValueOrClose =>
      match t, stack with
      | TRBracket, InArr done :: stack' => Some (EAfter (JArr (rev done)), stack')
      | _, _ => begin_value t stack
      end
  | EKeyOrClose =>
      match t, stack with
      | TRBrace, InObj done :: stack' => Some (EAfter (JObj (rev done)), stack')
      | TString k, _ => Some (EColon k, stack)
      | _, _ => None
      end
  | EKey =>
      match t with
      | TString k => Some (EColon k, stack)
      | _ => None
      end
  | EColon k =>
      match t, stack with
      | TColon, InObj done :: stack' => Some (EValue, InMember done k :: stack')
      | _, _ => None
      end
  | EAfter v =>
      match t, stack with
      | TComma, InArr done :: stack' => Some (EValue, InArr (v :: done) :: stack')
      | TRBracket, InArr done :: stack' =>
          Some (EAfter (JArr (rev (v :: done))), stack')
      | TComma, InMember done k :: stack' =>
          Some (EKey, InObj ((k, v) :: done) :: stack')
      | TRBrace, InMember done k :: stack' =>
          Some (EAfter (JObj (rev ((k, v) :: done))), stack')
      | _, _ => None
      end
  end.

Fixpoint parse_tokens (e : expect) (stack : list frame) (ts : list token)
  : option json :=
  match ts with
  | [] =>
      match e, stack with
      | EAfter v, [] => Some v
      | _, _ => None
      end
  | t :: ts' =>
      '(e', stack') ← parse_step e stack t;
      parse_tokens e' stack' ts'
  end.

(** [JSON.parse(text)]; [None] stands for the [SyntaxError] it throws. *)
Definition JSON_parse (text : jsstring) : option json :=
  ts ← lex LStart text;
  parse_tokens EValue [] ts.

(** The bottom frame of the stack belongs to an object. *)
Definition object_at_bottom (stack : list frame) : Prop :=
  match last stack with
  | Some (InObj _) | Some (InMember _ _) => True
  | _ => False
  end.

(** What the recogniser maintains once the outermost value is an object. *)
Definition outer_object (e : expect) (stack : list frame) : Prop :=
  object_at_bottom stack \/
  (stack = [] /\ exists members, e = EAfter (JObj members)).

(** [obj[key]] when [key] is not a property of a prototype: the own
    property, the last of several members with the same name. *)
Fixpoint lookup_member (key : jsstring) (members : list (jsstring * json))
  : option json :=
  match members with
  | [] => None
  | (k, v) :: rest =>
      match lookup_member key rest with
      | Some v' => Some v'
      | None => if str_eqb k key then Some v else None
      end
  end.

(** [v.key] for a key that no prototype defines.  The outer [None] is the
    [TypeError] of reading a property of [null]; the inner one is
    [undefined]. *)
Definition get_field (v : json) (key : jsstring) : option (option json) :=
  match v with
  | JNull => None
  | JObj members => Some (lookup_member key members)
  | _ => Some None
  end.

(** [x || d] where [x] is a value or [undefined] *)
Definition or_default (x : option json) (d : json) : json :=
  match x with
  | Some v => if truthy v then v else d
  | None => d
  end.

End Json.

Import Json.

(** ** Token budgeter ([OpenAIAgent.estimateTokens], [truncateContent]) *)

Module Budget.

Definition MAX_TOOL_RESULT_TOKENS : Z := 5000.
Definition MAX_TOTAL_MESSAGE_TOKENS : Z := 20000.

(** [Math.ceil(text.length / 4)] *)
Definition estimateTokens (text : jsstring) : Z :=
  (strlen text + 3) / 4.

Definition truncation_marker : jsstring :=
  LF ++ LF ++ js "[Content truncated due to size limits...]".

(** [maxTokens] ranges over the integers; the program passes 5000 and
    10000. *)
Definition truncateContent (content : jsstring) (maxTokens : Z) : jsstring :=
  let estimatedTokens := estimateTokens content in
  if estimatedTokens <=? maxTokens then content
  else
    let maxChars := maxTokens * 4 in
    let truncated := substring0 content maxChars in
    truncated ++ truncation_marker.

End Budget.

Import Budget.

(** ** Structured-result extractor ([OpenAIAgent.parseSummaryFromMessage]) *)

Module Extractor.

Record RepoSummary : Type := mkSummary {
  repoName : jsstring;
  owner : jsstring;
  overallSummary : json;
  pullRequests : json;
  breakingChanges : json
}.

(** The suffix of [s] that starts at the first occurrence of [c]. *)
Fixpoint from_first (c : N) (s : jsstring) : option jsstring :=
  match s with
  | [] => None
  | d :: s' => if (d =? c)%N then Some s else from_first c s'
  end.

(** The prefix of [s] that ends at the last occurrence of [c]. *)
Fixpoint upto_last (c : N) (s : jsstring) : option jsstring :=
  match s with
  | [] => None
  | d :: s' =>
      match upto_last c s' with
      | Some p => Some (d :: p)
      | None => if (d =? c)%N then Some [d] else None
      end
  end.

(** [content.match(/\{[\s\S]*\}/)], the matched text [jsonMatch[0]]: the
    match starts at the leftmost opening brace and the greedy star runs to
    the last closing brace after it. *)
Definition jsonMatch (content : jsstring) : option jsstring :=
  s ← from_first 123%N content;
  upto_last 125%N s.

Definition no_summary : jsstring := js "No summary provided".

(** The record built inside the [try] block from the decoded payload. *)
Definition decoded (parsed : json) (owner repo : jsstring)
  : option RepoSummary :=
  overall ← get_field parsed (js "overallSummary");
  prs ← get_field parsed (js "pullRequests");
  breaking ← get_field parsed (js "breakingChanges");
  Some (mkSummary repo owner
          (or_default overall (JStr no_summary))
          (or_default prs (JArr []))
          (or_default breaking (JArr []))).

(** The [try] block.  [None]: an exception was thrown inside it (the
    handler only logs, so which one does not matter); [Some None]: the
    block ended without returning; [Some (Some r)]: it returned [r]. *)
Definition try_block (content owner repo : jsstring)
  : option (option RepoSummary) :=
  match jsonMatch content with
  | Some text =>
      parsed ← JSON_parse text;
      r ← decoded parsed owner repo;
      Some (Some r)
  | None => Some None
  end.

(** The record returned after the [try] statement. *)
Definition fallback (content owner repo : jsstring) : RepoSummary :=
  mkSummary repo owner (JStr (str_or content no_summary)) (JArr []) (JArr []).

Definition parseSummaryFromMessage (content owner repo : jsstring)
  : RepoSummary :=
  match try_block content owner repo with
  | Some (Some r) => r
  | Some None | None => fallback content owner repo
  end.

(** Follows the specification's words, for comparison with [jsonMatch]:
    the first brace-matched substring of the text, from the first opening
    brace to the closing brace that brings the nesting depth back to
    zero. *)
Fixpoint brace_matched (depth : nat) (s : jsstring) : option jsstring :=
  match s with
  | [] => None
  | c :: s' =>
      if (c =? 123)%N then p ← brace_matched (S depth) s'; Some (c :: p)
      else if (c =? 125)%N then
        match depth with
        | O => None
        | 1%nat => Some [c]
        | S d => p ← brace_matched d s'; Some (c :: p)
        end
      else p ← brace_matched depth s'; Some (c :: p)
  end.

Definition first_brace_matched (content : jsstring) : option jsstring :=
  s ← from_first 123%N content;
  brace_matched 0 s.

End Extractor.

Import Extractor.

(** ** Tool-host adapter ([GitHubMCPClient]) *)

Module Mcp.

(** A content segment [{type, text?, ...}] of a tool result. *)
Record Segment : Type := mkSegment {
  seg_type : jsstring;
  seg_text : option jsstring;
  seg_more : list (jsstring * json)
}.

(** [MCPToolResult]; [callTool] always sets [isError]. *)
Record MCPToolResult : Type := mkResult {
  content : list Segment;
  isError : bool
}.

(** What the SDK's [client.callTool] resolves with: its [content] may be
    absent, and the host flags a failed tool with [isError]. *)
Record SdkResult : Type := mkSdkResult {
  sdk_content : option (list Segment);
  sdk_isError : option bool
}.

Inductive SdkReply : Type :=
| SdkResolved (result : SdkResult)
| SdkRejected (message : jsstring).

(** The adapter object: [connected] tells whether [this.client] is set. *)
Record GitHubMCPClient : Type := mkClient {
  connected : bool
}.

(** [String(i)] for an array index *)
Definition index_key (i : nat) : jsstring :=
  js (DecimalString.NilZero.string_of_uint (Nat.to_uint i)).

(** The own enumerable properties copied by [{ ...args }].  An object is
    given by its members in order; where a name occurs twice the later
    member is the property's value. *)
Definition spread (args : json) : list (jsstring * json) :=
  match args with
  | JObj members => members
  | JArr items => imap (fun i v => (index_key i, v)) items
  | JStr s => imap (fun i c => (index_key i, JStr [c])) s
  | _ => []
  end.

(** [obj.key = v] *)
Definition assign (members : list (jsstring * json)) (key : jsstring) (v : json)
  : list (jsstring * json) :=
  members ++ [(key, v)].

(** [name.replace(/^mcp_GitHub_/, "")] *)
Definition strip_prefix (p s : jsstring) : jsstring :=
  if startsWith s p then drop (length p) s else s.

Definition mapToolNameAndArgs (openAIToolName : jsstring) (args : json)
  : jsstring * list (jsstring * json) :=
  let adjustedArgs := spread args in
  if str_eqb openAIToolName (js "mcp_GitHub_list_pull_requests") then
    (js "list_pull_requests", adjustedArgs)
  else if str_eqb openAIToolName (js "mcp_GitHub_get_pull_request") then
    (js "pull_request_read", assign adjustedArgs (js "method") (JStr (js "get")))
  else if str_eqb openAIToolName (js "mcp_GitHub_get_pull_request_diff") then
    (js "pull_request_read", assign adjustedArgs (js "method") (JStr (js "diff")))
  else if str_eqb openAIToolName (js "mcp_GitHub_get_pull_request_files") then
    (js "pull_request_read", assign adjustedArgs (js "method") (JStr (js "files")))
  else if str_eqb openAIToolName (js "mcp_GitHub_list_commits") then
    (js "list_commits", adjustedArgs)
  else if str_eqb openAIToolName (js "list_org_repositories")
          || includes openAIToolName (js "org_repo") then
    (js "list_org_repositories", adjustedArgs)
  else
    let cleanedName := strip_prefix (js "mcp_GitHub_") openAIToolName in
    (cleanedName, adjustedArgs).

Definition not_connected : jsstring := js "MCP client not connected".

Section Host.

Variable World : Type.

(** [this.client.callTool({ name, arguments })] of the MCP SDK. *)
Variable sdk_callTool :
  World -> jsstring -> list (jsstring * json) -> World * SdkReply.

Definition callTool (this : GitHubMCPClient) (toolName : jsstring) (args : json)
    (w : World) : World * completion MCPToolResult :=
  if negb (connected this) then (w, Throw (Error_ not_connected))
  else
    (* try *)
    let '(actualToolName, adjustedArgs) := mapToolNameAndArgs toolName args in
    match sdk_callTool w actualToolName adjustedArgs with
    | (w', SdkResolved result) =>
        (w', Normal (mkResult (default [] (sdk_content result)) false))
    | (w', SdkRejected errorMessage) =>
        (* catch *)
        (w', Normal (mkResult
           [mkSegment (js "text")
              (Some (js "Error calling tool " ++ toolName ++ js ": " ++ errorMessage))
              []]
           true))
    end.

End Host.

End Mcp.

Import Mcp.

(** ** Tool-calling loop ([OpenAIAgent.summarizeRepo]) *)

Module Agent.

(** A tool call requested by the reasoning service:
    [{ id, function: { name, arguments } }]. *)
Record ToolCall : Type := mkCall {
  tc_id : jsstring;
  tc_name : jsstring;
  tc_arguments : jsstring
}.

(** The message of a completion: [content] is a string or [null],
    [tool_calls] may be absent. *)
Record AssistantMessage : Type := mkAssistant {
  am_content : option jsstring;
  am_tool_calls : option (list ToolCall)
}.

Inductive Message : Type :=
| SystemMessage (content : jsstring)
| UserMessage (content : jsstring)
| AssistantMsg (message : AssistantMessage)
| ToolMessage (tool_call_id : jsstring) (content : jsstring).

#[global] Instance ToolCall_eq_dec : EqDecision ToolCall.
Proof. solve_decision. Defined.

#[global] Instance AssistantMessage_eq_dec : EqDecision AssistantMessage.
Proof. solve_decision. Defined.

#[global] Instance Message_eq_dec : EqDecision Message.
Proof. solve_decision. Defined.

(** What one call of the reasoning service comes back with: the request
    is rejected, the response has no first choice, or it has a message. *)
Inductive ChatReply : Type :=
| ChatRejected (message : jsstring)
| ChatNoMessage
| ChatMessage (message : AssistantMessage).

(** [typeof msg.content === "string" ? msg.content : JSON.stringify(msg.content)];
    the only content that is not a string is the [null] of an assistant
    message. *)
Definition content_text (msg : Message) : jsstring :=
  match msg with
  | SystemMessage c | UserMessage c | ToolMessage _ c => c
  | AssistantMsg m =>
      match am_content m with
      | Some c => c
      | None => js "null"
      end
  end.

(** [messages.reduce((sum, msg) => sum + estimateTokens(content), 0)] *)
Definition totalMessageSize (messages : list Message) : Z :=
  foldl (fun sum msg => sum + estimateTokens (content_text msg)) 0 messages.

(** [messages.slice(-n)] *)
Definition slice_last (n : nat) (messages : list Message) : list Message :=
  drop (length messages - n) messages.

(** [[systemMsg, ...lastMessages]] with [systemMsg = messages[0]].  The
    list the program prunes is never empty (an empty one has size 0). *)
Definition prune (messages : list Message) : list Message :=
  match messages with
  | systemMsg :: _ => systemMsg :: slice_last 5 messages
  | [] => []
  end.

(** The size check at the head of every round. *)
Definition budgetConversation (messages : list Message) : list Message :=
  if totalMessageSize messages >? MAX_TOTAL_MESSAGE_TOKENS
  then prune messages
  else messages.

(** The result of one repository summarization, with what an observer of
    the reasoning service sees: [requests] are the message lists sent, in
    order, and [received] the messages that came back. *)
Record Run (World : Type) : Type := mkRun {
  final_world : World;
  requests : list (list Message);
  received : list AssistantMessage;
  history : list Message;
  outcome : completion RepoSummary
}.

Arguments mkRun {World}.
Arguments final_world {World}.
Arguments requests {World}.
Arguments received {World}.
Arguments history {World}.
Arguments outcome {World}.

Definition max_iterations_message : jsstring :=
  js "Max iterations reached while processing repo summary".

Definition no_response_message : jsstring := js "No response from OpenAI".

Definition maxIterations : nat := 20.

Section Loop.

Variable World : Type.

(** [this.openai.chat.completions.create({ model, messages, tools,
    tool_choice: "auto" })] followed by [response.choices[0]?.message]. *)
Variable chat_create : World -> list Message -> World * ChatReply.

Variable sdk_callTool :
  World -> jsstring -> list (jsstring * json) -> World * SdkReply.

(** [JSON.stringify(item)] on a content segment. *)
Variable stringify_segment : Segment -> jsstring.

(** The engine's message for the [SyntaxError] of [JSON.parse]. *)
Variable syntax_error_message : jsstring -> jsstring.

(** Dates and [format(date, "yyyy-MM-dd")] of date-fns. *)
Variable Date : Type.
Variable format_ymd : Date -> jsstring.

Variable mcpClient : GitHubMCPClient.

(** [JSON.stringify(result.content)] *)
Definition stringify_content (segments : list Segment) : jsstring :=
  js "[" ++ join (js ",") (map stringify_segment segments) ++ js "]".

(** [error instanceof Error ? error.message : String(error)] *)
Definition error_message (e : exn) : jsstring :=
  match e with
  | Error_ m => m
  | SyntaxError_ text => syntax_error_message text
  end.

Definition buildSystemPrompt (owner repo : jsstring) (startDate endDate : Date)
  : jsstring :=
  js "You are an AI assistant helping to generate a newsletter summary for GitHub repository "
  ++ owner ++ js "/" ++ repo ++
  js ".

You have access to GitHub MCP tools that allow you to:
- List pull requests
- Get pull request details
- Get pull request diffs
- Get files changed in pull requests
- List commits

Your task is to summarize all pull requests that were closed/merged between "
  ++ format_ymd startDate ++ js " and " ++ format_ymd endDate ++
  js ".

Use the GitHub MCP tools to gather information about the pull requests, then provide a comprehensive summary.".

Definition buildUserPrompt (owner repo : jsstring) (startDate endDate : Date)
  : jsstring :=
  js "Summarize all pull requests that were closed/merged in "
  ++ owner ++ js "/" ++ repo ++ js " between "
  ++ format_ymd startDate ++ js " and " ++ format_ymd endDate ++
  js ".

Use the GitHub MCP tools to:
1. Fetch all pull requests that were closed/merged in the timeframe
2. For each PR, get details (number, title, author, merged date, description)
3. For large PRs, focus on file names and summary rather than full diffs
4. Generate a 1-2 sentence summary for each PR
5. Identify any high-risk or breaking changes

IMPORTANT: If PR diffs are very large, focus on:
- File names changed
- High-level summary of changes
- Key functionality affected
- Avoid including full diff content unless necessary

Provide your response in this JSON format:
{
  `overallSummary`: `2-3 sentence summary of the week's activity`,
  `pullRequests`: [
    {
      `number`: 123,
      `title`: `PR title`,
      `author`: `username`,
      `mergedDate`: `2024-01-15`,
      `url`: `https://github.com/owner/repo/pull/123`,
      `summary`: `1-2 sentence summary of what this PR does`
    }
  ],
  `breakingChanges`: [
    {
      `prNumber`: 125,
      `description`: `Description of breaking change`
    }
  ]
}".

(** The per-result ceiling: tighter for diff and file listings. *)
Definition result_budget (toolName : jsstring) : Z :=
  if includes toolName (js "diff") || includes toolName (js "files")
  then MAX_TOOL_RESULT_TOKENS
  else MAX_TOOL_RESULT_TOKENS * 2.

(** [item.text || JSON.stringify(item)] *)
Definition segment_text (item : Segment) : jsstring :=
  nullable_or (seg_text item) (stringify_segment item).

(** The tool message pushed for a result that is not an error. *)
Definition success_message (toolCall : ToolCall) (result : MCPToolResult)
  : Message :=
  let textContent := join LF (map segment_text (content result)) in
  let textContent := truncateContent textContent (result_budget (tc_name toolCall)) in
  ToolMessage (tc_id toolCall)
    (str_or textContent (stringify_content (content result))).

(** The body of [for (const toolCall of message.tool_calls)]: the
    argument payload is parsed before the [try] statement, so a payload
    that does not parse throws out of the loop; inside the [try], each of
    the three branches pushes one tool message. *)
Definition handleToolCall (w : World) (toolCall : ToolCall)
  : World * completion Message :=
  let toolName := tc_name toolCall in
  let text := str_or (tc_arguments toolCall) (js "{}") in
  match JSON_parse text with
  | None => (w, Throw (SyntaxError_ text))
  | Some toolArgs =>
      (* try *)
      match callTool World sdk_callTool mcpClient toolName toolArgs w with
      | (w', Normal result) =>
          if isError result then
            (w', Normal (ToolMessage (tc_id toolCall)
                           (stringify_content (content result))))
          else (w', Normal (success_message toolCall result))
      | (w', Throw error) =>
          (* catch *)
          (w', Normal (ToolMessage (tc_id toolCall)
                         (js "Error: " ++ error_message error)))
      end
  end.

(** The [for] loop over the tool calls of one assistant message. *)
Fixpoint dispatch (w : World) (messages : list Message) (toolCalls : list ToolCall)
  : World * list Message * option exn :=
  match toolCalls with
  | [] => (w, messages, None)
  | toolCall :: rest =>
      match handleToolCall w toolCall with
      | (w', Normal reply) => dispatch w' (messages ++ [reply]) rest
      | (w', Throw e) => (w', messages, Some e)
      end
  end.

Definition stop (w : World) (messages : list Message)
    (result : completion RepoSummary) : Run World :=
  mkRun w [] [] messages result.

Definition sent (request : list Message) (r : Run World) : Run World :=
  mkRun (final_world r) (request :: requests r) (received r) (history r) (outcome r).

Definition got (message : AssistantMessage) (r : Run World) : Run World :=
  mkRun (final_world r) (requests r) (message :: received r) (history r) (outcome r).

(** [while (iteration < maxIterations) { ...; iteration++ }] followed by
    the final [throw]; [remaining] is [maxIterations - iteration]. *)
Fixpoint rounds (remaining : nat) (owner repo : jsstring) (w : World)
    (messages : list Message) : Run World :=
  match remaining with
  | O => stop w messages (Throw (Error_ max_iterations_message))
  | S remaining' =>
      let messages := budgetConversation messages in
      let '(w, reply) := chat_create w messages in
      sent messages
        match reply with
        | ChatRejected m => stop w messages (Throw (Error_ m))
        | ChatNoMessage => stop w messages (Throw (Error_ no_response_message))
        | ChatMessage message =>
            let messages := messages ++ [AssistantMsg message] in
            got message
              match am_tool_calls message with
              | None | Some [] =>
                  stop w messages
                    (Normal (parseSummaryFromMessage
                               (nullable_or (am_content message) []) owner repo))
              | Some toolCalls =>
                  match dispatch w messages toolCalls with
                  | (w, messages, None) => rounds remaining' owner repo w messages
                  | (w, messages, Some e) => stop w messages (Throw e)
                  end
              end
        end
  end.

Definition summarizeRepo (owner repo : jsstring) (startDate endDate : Date)
    (w : World) : Run World :=
  let systemPrompt := buildSystemPrompt owner repo startDate endDate in
  let userPrompt := buildUserPrompt owner repo startDate endDate in
  rounds maxIterations owner repo w
    [SystemMessage systemPrompt; UserMessage userPrompt].

End Loop.

End Agent.

Import Agent.

(** ** The conversation protocol of the reasoning service *)

Module Protocol.

Definition is_tool (m : Message) : bool :=
  match m with
  | ToolMessage _ _ => true
  | _ => false
  end.

Definition tool_calls_of (m : AssistantMessage) : list ToolCall :=
  default [] (am_tool_calls m).

(** [m] is the tool message answering [c]. *)
Definition answer_to (c : ToolCall) (m : Message) : Prop :=
  exists content, m = ToolMessage (tc_id c) content.

(** The first message is the system prompt. *)
Definition starts_with_system (l : list Message) : Prop :=
  match l with
  | SystemMessage _ :: _ => True
  | _ => False
  end.

(** The messages at the front of [l] answer [toolCalls] one for one: a
    tool message per call, in the order of the calls, each carrying the id
    of its call, and no further tool message after them. *)
Fixpoint answers (toolCalls : list ToolCall) (l : list Message) : bool :=
  match toolCalls, l with
  | [], [] => true
  | [], m :: _ => negb (is_tool m)
  | c :: cs, ToolMessage id _ :: l' => str_eqb id (tc_id c) && answers cs l'
  | _ :: _, _ => false
  end.

(** Every assistant message of the list is directly followed by the
    answers to its tool calls. *)
Fixpoint answered (l : list Message) : bool :=
  match l with
  | [] => true
  | AssistantMsg m :: l' => answers (tool_calls_of m) l' && answered l'
  | _ :: l' => answered l'
  end.

(** The ids carried by the tool messages of a list, in order. *)
Fixpoint tool_ids (l : list Message) : list jsstring :=
  match l with
  | [] => []
  | ToolMessage id _ :: l' => id :: tool_ids l'
  | _ :: l' => tool_ids l'
  end.

(** The ids of the tool calls of a sequence of assistant messages. *)
Definition emitted_ids (received : list AssistantMessage) : list jsstring :=
  mbind (fun m => map tc_id (tool_calls_of m)) received.

(** How many tool messages of the list carry [id]. *)
Definition answer_count (id : jsstring) (l : list Message) : nat :=
  length (filter (fun i => i = id) (tool_ids l)).

(** The payload of a tool call parses. *)
Definition arguments_parse (c : ToolCall) : bool :=
  bool_decide (is_Some (JSON_parse (str_or (tc_arguments c) (js "{}")))).

(** A service that requests a tool call in every response, each with a
    payload that parses. *)
Definition always_requests_tools {World : Type}
    (chat_create : World -> list Message -> World * ChatReply) : Prop :=
  forall w messages, exists w' message c cs,
    chat_create w messages = (w', ChatMessage message) /\
    am_tool_calls message = Some (c :: cs) /\
    Forall (fun c => arguments_parse c = true) (c :: cs).

End Protocol.

Import Protocol.

(** ** Concrete services, used to run the program on examples *)

Module Scenario.

(** Dates are given by their formatted text. *)
Definition Date : Type := jsstring.
Definition format_ymd (d : Date) : jsstring := d.

(** A stand-in for the text [JSON.stringify] gives a segment. *)
Definition stringify_segment (s : Segment) : jsstring :=
  js "{`type`:`" ++ seg_type s ++ js "`}".

Definition syntax_error_message (text : jsstring) : jsstring :=
  js "Unexpected end of JSON input".

(** The world is the number of requests the reasoning service has seen. *)
Definition World : Type := nat.

Definition text_segment (s : jsstring) : Segment := mkSegment (js "text") (Some s) [].

(** A capability host that answers every call with one text segment. *)
Definition host (body : jsstring) (w : World) (name : jsstring)
    (args : list (jsstring * json)) : World * SdkReply :=
  (w, SdkResolved (mkSdkResult (Some [text_segment body]) None)).

(** A capability host whose first tool rejects and whose others answer. *)
Definition flaky_host (w : World) (name : jsstring)
    (args : list (jsstring * json)) : World * SdkReply :=
  if str_eqb name (js "list_pull_requests")
  then (w, SdkRejected (js "connection closed"))
  else (w, SdkResolved (mkSdkResult (Some [text_segment (js "diff --git")]) None)).

(** A capability host that reports a failed tool inside its result. *)
Definition failing_host (w : World) (name : jsstring)
    (args : list (jsstring * json)) : World * SdkReply :=
  (w, SdkResolved (mkSdkResult (Some [text_segment (js "404 Not Found")]) (Some true))).

Definition list_call (id args : string) : ToolCall :=
  mkCall (js id) (js "mcp_GitHub_list_pull_requests") (js args).

Definition diff_call (id args : string) : ToolCall :=
  mkCall (js id) (js "mcp_GitHub_get_pull_request_diff") (js args).

(** A reasoning service that requests one tool call with a cut-off
    argument payload in every round. *)
Definition malformed_service (w : World) (messages : list Message)
  : World * ChatReply :=
  (S w, ChatMessage (mkAssistant None (Some [list_call "call_1" "{"]))).

(** A reasoning service that requests two tool calls in its first round
    and gives its final answer in the second. *)
Definition final_text : jsstring :=
  js "Done. {`overallSummary`:`ok`,`owner`:`evil`,`repoName`:`evil`,`pullRequests`:[]}".

Definition two_round_service (w : World) (messages : list Message)
  : World * ChatReply :=
  match w with
  | O =>
      (S w, ChatMessage (mkAssistant None
              (Some [list_call "call_1" "{}"; diff_call "call_2" "{`pullNumber`:7}"])))
  | S _ => (S w, ChatMessage (mkAssistant (Some final_text) None))
  end.

(** A reasoning service that lists pull requests twice in its first round
    and gives its final answer in the second. *)
Definition bulk_service (w : World) (messages : list Message)
  : World * ChatReply :=
  match w with
  | O =>
      (S w, ChatMessage (mkAssistant None
              (Some [list_call "call_1" "{`page`:1}"; list_call "call_2" "{`page`:2}"])))
  | S _ => (S w, ChatMessage (mkAssistant (Some final_text) None))
  end.

(** A reasoning service that requests the same well-formed tool call in
    every round. *)
Definition insistent_service (w : World) (messages : list Message)
  : World * ChatReply :=
  (S w, ChatMessage (mkAssistant None (Some [list_call "call_1" "{}"]))).

Definition online : GitHubMCPClient := mkClient true.
Definition offline : GitHubMCPClient := mkClient false.

Definition run (service : World -> list Message -> World * ChatReply)
    (sdk : World -> jsstring -> list (jsstring * json) -> World * SdkReply)
    (client : GitHubMCPClient) : Run World :=
  summarizeRepo World service sdk stringify_segment syntax_error_message
    Date format_ymd client (js "acme") (js "api") (js "2024-01-08") (js "2024-01-15") 0%nat.

(** A tool result of 50000 characters. *)
Definition big_body : jsstring := repeat 120%N (Z.to_nat 50000).

(** The run whose first round brings in two such listings. *)
Definition bulk_run : Run World := run bulk_service (host big_body) online.

Definition bulk_system : Message :=
  SystemMessage
    (buildSystemPrompt Date format_ymd (js "acme") (js "api")
       (js "2024-01-08") (js "2024-01-15")).

Definition bulk_user : Message :=
  UserMessage
    (buildUserPrompt Date format_ymd (js "acme") (js "api")
       (js "2024-01-08") (js "2024-01-15")).

Definition bulk_result : jsstring :=
  repeat 120%N (Z.to_nat 40000) ++ truncation_marker.

(** The history after the first round: five messages. *)
Definition bulk_history : list Message :=
  [ bulk_system; bulk_user;
    AssistantMsg (mkAssistant None
      (Some [list_call "call_1" "{`page`:1}"; list_call "call_2" "{`page`:2}"]));
    ToolMessage (js "call_1") bulk_result;
    ToolMessage (js "call_2") bulk_result ].

(** A history of eight messages: a first round with three tool calls and
    a second round with one. *)
Definition long_history : list Message :=
  [ SystemMessage (js "system"); UserMessage (js "user");
    AssistantMsg (mkAssistant None
      (Some [list_call "a" "{}"; list_call "b" "{}"; list_call "c" "{}"]));
    ToolMessage (js "a") bulk_result;
    ToolMessage (js "b") bulk_result;
    ToolMessage (js "c") bulk_result;
    AssistantMsg (mkAssistant None (Some [diff_call "d" "{}"]));
    ToolMessage (js "d") (js "diff") ].

End Scenario.

(** ** The adapter's lifecycle and helper methods ([GitHubMCPClient]) *)

Module Lifecycle.

(** [{ ...params, method: v }]: the members of [params], then [method]. *)
Definition with_method (params : list (jsstring * json)) (v : json)
  : list (jsstring * json) :=
  assign (spread (JObj params)) (js "method") v.

Definition server_not_found : jsstring :=
  js "GitHub MCP server not found. Please install it from https://github.com/github/github-mcp-server or set GITHUB_MCP_BINARY_PATH environment variable to the path of the binary. Alternatively, set GITHUB_MCP_USE_DOCKER=1 to use Docker.".

Section Host.

Variable World : Type.

Variable sdk_callTool :
  World -> jsstring -> list (jsstring * json) -> World * SdkReply.

(** [this.client.connect(transport)] of the MCP SDK: it resolves, or it
    rejects with an error whose text is given. *)
Variable sdk_connect : World -> World * option jsstring.

(** [this.client.listTools()]; the program only logs what it returns and
    swallows what it throws. *)
Variable sdk_listTools : World -> World.

(** [this.client.close()]. *)
Variable sdk_close : World -> World * option jsstring.

(** [connect()].  The client object is stored before the connection is
    attempted. *)
Definition connect (this : GitHubMCPClient) (w : World)
  : World * GitHubMCPClient * completion unit :=
  let this := mkClient true in
  match sdk_connect w with
  | (w, Some errorMsg) =>
      if includes errorMsg (js "ENOENT") || includes errorMsg (js "not found")
      then (w, this, Throw (Error_ server_not_found))
      else (w, this, Throw (Error_ errorMsg))
  | (w, None) => (sdk_listTools w, this, Normal tt)
  end.

(** [disconnect()] *)
Definition disconnect (this : GitHubMCPClient) (w : World)
  : World * GitHubMCPClient * completion unit :=
  if connected this then
    match sdk_close w with
    | (w, None) => (w, mkClient false, Normal tt)
    | (w, Some errorMsg) => (w, this, Throw (Error_ errorMsg))
    end
  else (w, this, Normal tt).

Definition listPullRequests (this : GitHubMCPClient)
    (params : list (jsstring * json)) (w : World) :=
  callTool World sdk_callTool this (js "list_pull_requests") (JObj params) w.

Definition getPullRequest (this : GitHubMCPClient)
    (params : list (jsstring * json)) (w : World) :=
  callTool World sdk_callTool this (js "pull_request_read")
    (JObj (with_method params
             (or_default (lookup_member (js "method") params) (JStr (js "get"))))) w.

Definition getPullRequestDiff (this : GitHubMCPClient)
    (params : list (jsstring * json)) (w : World) :=
  callTool World sdk_callTool this (js "pull_request_read")
    (JObj (with_method params (JStr (js "diff")))) w.

Definition getPullRequestFiles (this : GitHubMCPClient)
    (params : list (jsstring * json)) (w : World) :=
  callTool World sdk_callTool this (js "pull_request_read")
    (JObj (with_method params (JStr (js "files")))) w.

Definition listCommits (this : GitHubMCPClient)
    (params : list (jsstring * json)) (w : World) :=
  callTool World sdk_callTool this (js "list_commits") (JObj params) w.

Definition listOrgRepositories (this : GitHubMCPClient)
    (params : list (jsstring * json)) (w : World) :=
  callTool World sdk_callTool this (js "list_org_repositories") (JObj params) w.

End Host.

(** The five tools [summarizeRepo] declares to the reasoning service. *)
Definition declared_tools : list jsstring :=
  [ js "mcp_GitHub_list_pull_requests";
    js "mcp_GitHub_get_pull_request";
    js "mcp_GitHub_get_pull_request_diff";
    js "mcp_GitHub_get_pull_request_files";
    js "mcp_GitHub_list_commits" ].

End Lifecycle.

Import Lifecycle.

(** ** Plain objects used as dictionaries *)

Module Dict.

(** The names every plain object inherits from [Object.prototype], each
    with the [length] of the inherited value: the arity of the function,
    and no [length] at all for the prototype object behind [__proto__]. *)
Definition inherited : list (jsstring * option nat) :=
  [ (js "constructor", Some 1%nat);
    (js "__defineGetter__", Some 2%nat);
    (js "__defineSetter__", Some 2%nat);
    (js "hasOwnProperty", Some 1%nat);
    (js "__lookupGetter__", Some 1%nat);
    (js "__lookupSetter__", Some 1%nat);
    (js "isPrototypeOf", Some 1%nat);
    (js "propertyIsEnumerable", Some 1%nat);
    (js "toString", Some 0%nat);
    (js "valueOf", Some 0%nat);
    (js "__proto__", None);
    (js "toLocaleString", Some 0%nat) ].

Fixpoint inherited_length (name : jsstring) (table : list (jsstring * option nat))
  : option (option nat) :=
  match table with
  | [] => None
  | (n, len) :: rest =>
      if str_eqb n name then Some len else inherited_length name rest
  end.

Definition is_inherited (name : jsstring) : bool :=
  match inherited_length name inherited with
  | Some _ => true
  | None => false
  end.

(** What [obj[name]] evaluates to on [obj : { [name]: A[] }]. *)
Inductive slot (A : Type) : Type :=
| Own (items : list A)
| Inherited (len : option nat)
| Absent.

Arguments Own {A} items.
Arguments Inherited {A} len.
Arguments Absent {A}.

Definition read {A : Type} (obj : gmap jsstring (list A)) (name : jsstring)
  : slot A :=
  match obj !! name with
  | Some items => Own items
  | None =>
      match inherited_length name inherited with
      | Some len => Inherited len
      | None => Absent
      end
  end.

(** A function's result, or the [TypeError] it throws. *)
Inductive thrown (A : Type) : Type :=
| Returned (a : A)
| TypeError.

Arguments Returned {A} a.
Arguments TypeError {A}.

End Dict.

Import Dict.

(** ** Team grouping ([groupReposByTeam], [getTeamOrder]) *)

Module Teams.

Record TeamConfig : Type := mkTeam {
  prefixes : option (list jsstring);
  repos : option (list jsstring)
}.

(** [TeamsConfig]: the teams in the order [Object.keys] lists them, under
    names that are pairwise distinct. *)
Definition TeamsConfig : Type := list (jsstring * TeamConfig).

Definition unassigned : jsstring := js "Unassigned".

(** [teamConfig.repos && teamConfig.repos.includes(repoName)] *)
Definition exact_match (cfg : TeamConfig) (repoName : jsstring) : bool :=
  match repos cfg with
  | Some names => existsb (str_eqb repoName) names
  | None => false
  end.

(** Some prefix of the list starts [repoName]. *)
Definition prefix_match (ps : list jsstring) (repoName : jsstring) : bool :=
  existsb (startsWith repoName) ps.

(** The loop over the team names.  [matchedTeam] is [null] or a name; an
    exact match leaves the loop at once, a prefix match leaves it when
    the name is truthy. *)
Fixpoint scan_teams (teams : TeamsConfig) (repoName : jsstring)
    (matchedTeam : option jsstring) : option jsstring :=
  match teams with
  | [] => matchedTeam
  | (teamName, teamConfig) :: rest =>
      if exact_match teamConfig repoName then Some teamName
      else
        match prefixes teamConfig with
        | Some ps =>
            let matchedTeam :=
              if prefix_match ps repoName then Some teamName else matchedTeam in
            if str_truthy (nullable_or matchedTeam []) then matchedTeam
            else scan_teams rest repoName matchedTeam
        | None => scan_teams rest repoName matchedTeam
        end
  end.

(** [matchedTeam || 'Unassigned'] *)
Definition assignedTeam (teams : TeamsConfig) (repoName : jsstring) : jsstring :=
  nullable_or (scan_teams teams repoName None) unassigned.

Section Grouping.

(** The summaries; only their [repoName] is read. *)
Variable A : Type.
Variable name_of : A -> jsstring.

(** [if (!grouped[t]) grouped[t] = []; grouped[t].push(summary)] *)
Definition add_to_group (grouped : gmap jsstring (list A)) (t : jsstring) (summary : A)
  : thrown (gmap jsstring (list A)) :=
  match read grouped t with
  | Own items => Returned (<[t := items ++ [summary]]> grouped)
  | Inherited _ => TypeError
  | Absent => Returned (<[t := [summary]]> grouped)
  end.

Fixpoint group_from (grouped : gmap jsstring (list A)) (teams : TeamsConfig)
    (summaries : list A) : thrown (gmap jsstring (list A)) :=
  match summaries with
  | [] => Returned grouped
  | summary :: rest =>
      match add_to_group grouped (assignedTeam teams (name_of summary)) summary with
      | Returned grouped => group_from grouped teams rest
      | TypeError => TypeError
      end
  end.

Definition groupReposByTeam (repoSummaries : list A) (teamsConfig : TeamsConfig)
  : thrown (gmap jsstring (list A)) :=
  group_from ∅ teamsConfig repoSummaries.

End Grouping.

(** [[...Object.keys(config.teams), 'Unassigned']] *)
Definition getTeamOrder (teams : TeamsConfig) : list jsstring :=
  map fst teams ++ [unassigned].

(** Some team of the configuration matches the name. *)
Definition team_matches (cfg : TeamConfig) (repoName : jsstring) : bool :=
  exact_match cfg repoName ||
  match prefixes cfg with
  | Some ps => prefix_match ps repoName
  | None => false
  end.

End Teams.

Import Teams.

(** ** Markdown rendering ([generateNewsletter]) *)

Module Newsletter.

(** The entries of a summary as the [RepoSummary] interface declares
    them. *)
Record PullRequest : Type := mkPR {
  pr_number : jsnumber;
  pr_title : jsstring;
  pr_author : jsstring;
  pr_mergedDate : jsstring;
  pr_url : jsstring;
  pr_summary : jsstring
}.

Record BreakingChange : Type := mkBreaking {
  bc_prNumber : jsnumber;
  bc_description : jsstring
}.

Record Summary : Type := mkTyped {
  s_repoName : jsstring;
  s_owner : jsstring;
  s_overallSummary : jsstring;
  s_pullRequests : list PullRequest;
  s_breakingChanges : list BreakingChange
}.

(** [Object.values(groupedSummaries)], in some order. *)
Definition group_values (grouped : gmap jsstring (list Summary))
  : list (list Summary) :=
  snd <$> map_to_list grouped.

Definition totalRepos (grouped : gmap jsstring (list Summary)) : nat :=
  foldl (fun sum repos => (sum + length repos)%nat) 0%nat (group_values grouped).

Definition repo_prs (repos : list Summary) : nat :=
  foldl (fun repoSum repo => (repoSum + length (s_pullRequests repo))%nat) 0%nat repos.

Definition totalPRs (grouped : gmap jsstring (list Summary)) : nat :=
  foldl (fun sum repos => (sum + repo_prs repos)%nat) 0%nat (group_values grouped).

Section Render.

Variable Date : Type.

(** [format(date, 'MMM d, yyyy')] of date-fns. *)
Variable format_long : Date -> jsstring.

(** [String(n)] on a number. *)
Variable Number_toString : jsnumber -> jsstring.

Definition pr_lines (pr : PullRequest) : list jsstring :=
  (js "- PR #" ++ Number_toString (pr_number pr) ++ js ": " ++ pr_title pr
   ++ js " (" ++ pr_author pr ++ js ") - Merged: " ++ pr_mergedDate pr
   ++ js " - [Link](" ++ pr_url pr ++ js ")")
  :: (if str_truthy (pr_summary pr)
      then [js "  Summary: " ++ pr_summary pr]
      else []).

Definition breaking_line (bc : BreakingChange) : jsstring :=
  js "- PR #" ++ Number_toString (bc_prNumber bc) ++ js ": " ++ bc_description bc.

(** The lines pushed for one repository. *)
Definition repo_lines (repo : Summary) : list jsstring :=
  [js "### " ++ s_repoName repo; []; s_overallSummary repo; []]
  ++ (match s_pullRequests repo with
      | [] => []
      | prs => [js "**Pull Requests:**"] ++ flat_map pr_lines prs ++ [[]]
      end)
  ++ (match s_breakingChanges repo with
      | [] => []
      | bcs => [js "**High-Risk/Breaking Changes:**"] ++ map breaking_line bcs ++ [[]]
      end)
  ++ [js "---"; []].

Definition team_lines (teamName : jsstring) (repos : list Summary) : list jsstring :=
  [js "## " ++ teamName; []] ++ flat_map repo_lines repos.

(** The loop over [teamOrder].  A team is skipped when
    [!repos || repos.length === 0]; an inherited value that is not skipped
    is not iterable, and the [for ... of] over it throws. *)
Fixpoint team_sections (grouped : gmap jsstring (list Summary))
    (teamOrder : list jsstring) : thrown (list jsstring) :=
  match teamOrder with
  | [] => Returned []
  | teamName :: rest =>
      match read grouped teamName with
      | Absent | Own [] | Inherited (Some O) => team_sections grouped rest
      | Own repos =>
          match team_sections grouped rest with
          | Returned lines => Returned (team_lines teamName repos ++ lines)
          | TypeError => TypeError
          end
      | Inherited _ => TypeError
      end
  end.

Definition header_lines (grouped : gmap jsstring (list Summary))
    (startDate endDate : Date) : list jsstring :=
  [ js "# Weekly Newsletter - " ++ format_long startDate ++ js " to "
      ++ format_long endDate;
    [];
    js "**Summary:** " ++ index_key (totalRepos grouped)
      ++ js " repositories with " ++ index_key (totalPRs grouped)
      ++ js " pull requests";
    [] ].

(** [generateNewsletter(groupedSummaries, config, startDate, endDate,
    teamOrder)]; [config] is not read. *)
Definition generateNewsletter (groupedSummaries : gmap jsstring (list Summary))
    (startDate endDate : Date) (teamOrder : list jsstring) : thrown jsstring :=
  match team_sections groupedSummaries teamOrder with
  | Returned lines =>
      Returned (join LF (header_lines groupedSummaries startDate endDate ++ lines))
  | TypeError => TypeError
  end.

End Render.

(** The teams that get a section, each with its repositories: the
    entries of [teamOrder] that own a group that is not empty. *)
Fixpoint sections (grouped : gmap jsstring (list Summary))
    (teamOrder : list jsstring) : list (jsstring * list Summary) :=
  match teamOrder with
  | [] => []
  | teamName :: rest =>
      match grouped !! teamName with
      | Some (repo :: repos) => (teamName, repo :: repos) :: sections grouped rest
      | _ => sections grouped rest
      end
  end.

(** Reading [name] makes the loop throw. *)
Definition poisons (name : jsstring) : bool :=
  match inherited_length name inherited with
  | Some (Some O) | None => false
  | Some _ => true
  end.

End Newsletter.

Import Newsletter.

(** ** Repository discovery ([extractReposFromConfig],
       [checkRepoHasPRsInTimeframe], [discoverReposWithActivity]) *)

Module Discovery.

Record Repo : Type := mkRepo {
  r_owner : jsstring;
  r_repo : jsstring
}.

Record RepoActivity : Type := mkActivity {
  a_owner : jsstring;
  a_repo : jsstring;
  a_prCount : nat
}.

Record Activity : Type := mkCheck {
  hasActivity : bool;
  prCount : nat
}.

(** [`${organization}/${repoName}`] *)
Definition repo_key (organization repoName : jsstring) : jsstring :=
  organization ++ js "/" ++ repoName.

(** The loop over one team's explicit repositories. *)
Fixpoint add_repos (organization : jsstring) (names : list jsstring)
    (seenRepos : gset jsstring) (repos : list Repo) : gset jsstring * list Repo :=
  match names with
  | [] => (seenRepos, repos)
  | repoName :: rest =>
      let key := repo_key organization repoName in
      if decide (key ∈ seenRepos) then add_repos organization rest seenRepos repos
      else add_repos organization rest ({[key]} ∪ seenRepos)
             (repos ++ [mkRepo organization repoName])
  end.

Fixpoint extract_from (organization : jsstring) (teams : list TeamConfig)
    (seenRepos : gset jsstring) (repos : list Repo) : list Repo :=
  match teams with
  | [] => repos
  | teamConfig :: rest =>
      match Teams.repos teamConfig with
      | Some names =>
          let '(seenRepos, repos) := add_repos organization names seenRepos repos in
          extract_from organization rest seenRepos repos
      | None => extract_from organization rest seenRepos repos
      end
  end.

(** [extractReposFromConfig(config)], on [config.github.organization] and
    [config.teams]. *)
Definition extractReposFromConfig (organization : jsstring) (teams : TeamsConfig)
  : list Repo :=
  extract_from organization (map snd teams) ∅ [].

(** [a || b] where either side may be [undefined] *)
Definition or_undefined (a b : option json) : option json :=
  match a with
  | Some v => if truthy v then Some v else b
  | None => b
  end.

Definition is_high_surrogate (c : N) : bool := (55296 <=? c)%N && (c <=? 56319)%N.
Definition is_low_surrogate (c : N) : bool := (56320 <=? c)%N && (c <=? 57343)%N.

(** The strings a [for ... of] over a string yields: one per code point. *)
Fixpoint code_points (s : jsstring) : list jsstring :=
  match s with
  | [] => []
  | c :: rest =>
      match rest with
      | d :: rest' =>
          if is_high_surrogate c && is_low_surrogate d
          then [c; d] :: code_points rest'
          else [c] :: code_points rest
      | [] => [[c]]
      end
  end.

(** The values a [for ... of] over a JSON value yields; [None] when the
    value is not iterable. *)
Definition iterate (v : json) : option (list json) :=
  match v with
  | JArr items => Some items
  | JStr s => Some (JStr <$> code_points s)
  | _ => None
  end.

(** A point in time in milliseconds, or the [NaN] of an invalid date. *)
Definition TimeValue : Type := option Z.

Definition time_le (a b : TimeValue) : bool :=
  match a, b with
  | Some x, Some y => x <=? y
  | _, _ => false
  end.

Section Host.

Variable World : Type.

Variable sdk_callTool :
  World -> jsstring -> list (jsstring * json) -> World * SdkReply.

Variable stringify_segment : Segment -> jsstring.

(** The time value of [new Date(v)]. *)
Variable Date_value : json -> TimeValue.

(** [isWithinTimeframe(date, startDate, endDate)]; the caller passes
    whatever the pull request holds, or [undefined]. *)
Definition isWithinTimeframe (date : option json) (startDate endDate : TimeValue)
  : bool :=
  match date with
  | None => false
  | Some v =>
      if truthy v then
        let prDate := Date_value v in
        time_le startDate prDate && time_le prDate endDate
      else false
  end.

(** The body of the loop over the pull requests; [None] is the
    [TypeError] of reading a property of [null]. *)
Definition pr_in_timeframe (pr : json) (startDate endDate : TimeValue)
  : option bool :=
  merged_at ← get_field pr (js "merged_at");
  mergedAt' ← get_field pr (js "mergedAt");
  closed_at ← get_field pr (js "closed_at");
  closedAt' ← get_field pr (js "closedAt");
  let mergedAt := or_undefined merged_at mergedAt' in
  let closedAt := or_undefined closed_at closedAt' in
  let prDate := or_undefined mergedAt closedAt in
  Some (isWithinTimeframe prDate startDate endDate).

Fixpoint count_prs (prs : list json) (startDate endDate : TimeValue) (prCount : nat)
  : option nat :=
  match prs with
  | [] => Some prCount
  | pr :: rest =>
      inside ← pr_in_timeframe pr startDate endDate;
      count_prs rest startDate endDate
        (if inside : bool then S prCount else prCount)
  end.

(** [Array.isArray(parsed) ? parsed : parsed.data || parsed.items || []];
    [None] is the [TypeError] of reading a property of [null]. *)
Definition pull_requests_of (parsed : json) : option json :=
  match parsed with
  | JArr _ => Some parsed
  | _ =>
      data ← get_field parsed (js "data");
      items ← get_field parsed (js "items");
      Some (or_default (or_undefined data items) (JArr []))
  end.

(** The inner [try]: any exception leaves [prs] empty. *)
Definition parse_pull_requests (contentText : jsstring) : json :=
  default (JArr []) (parsed ← JSON_parse contentText; pull_requests_of parsed).

(** [item.text || JSON.stringify(item)] joined with line feeds. *)
Definition content_text_of (segments : list Segment) : jsstring :=
  join LF (map (fun item => nullable_or (seg_text item) (stringify_segment item))
               segments).

Definition list_params (owner repo : jsstring) : list (jsstring * json) :=
  [ (js "owner", JStr owner);
    (js "repo", JStr repo);
    (js "state", JStr (js "closed"));
    (js "perPage", JNum (mkNumber false 100 0));
    (js "page", JNum (mkNumber false 1 0)) ].

Definition inactive : Activity := mkCheck false 0.

(** The outer [try]: every exception gives [{ hasActivity: false,
    prCount: 0 }]. *)
Definition checkRepoHasPRsInTimeframe (mcpClient : GitHubMCPClient)
    (owner repo : jsstring) (startDate endDate : TimeValue) (w : World)
  : World * Activity :=
  match listPullRequests World sdk_callTool mcpClient (list_params owner repo) w with
  | (w, Throw _) => (w, inactive)
  | (w, Normal result) =>
      let prs :=
        match content result with
        | [] => JArr []
        | segments => parse_pull_requests (content_text_of segments)
        end in
      match iterate prs with
      | None => (w, inactive)
      | Some prs =>
          match count_prs prs startDate endDate 0 with
          | None => (w, inactive)
          | Some prCount => (w, mkCheck (0 <? prCount)%nat prCount)
          end
      end
  end.

(** The loop of [discoverReposWithActivity] over the repositories of the
    configuration. *)
Fixpoint check_all (mcpClient : GitHubMCPClient) (repos : list Repo)
    (startDate endDate : TimeValue) (w : World) (activeRepos : list RepoActivity)
  : World * list RepoActivity :=
  match repos with
  | [] => (w, activeRepos)
  | r :: rest =>
      let '(w, a) :=
        checkRepoHasPRsInTimeframe mcpClient (r_owner r) (r_repo r) startDate endDate w in
      check_all mcpClient rest startDate endDate w
        (if hasActivity a
         then activeRepos ++ [mkActivity (r_owner r) (r_repo r) (prCount a)]
         else activeRepos)
  end.

Definition discoverReposWithActivity (organization : jsstring) (teams : TeamsConfig)
    (mcpClient : GitHubMCPClient) (startDate endDate : TimeValue) (w : World)
  : World * list RepoActivity :=
  let reposFromConfig := extractReposFromConfig organization teams in
  check_all mcpClient reposFromConfig startDate endDate w [].

End Host.

End Discovery.

Import Discovery.

(** ** The loop of [main] over the active repositories *)

Module Pipeline.

Section Main.

Variable World : Type.
Variable chat_create : World -> list Message -> World * ChatReply.
Variable sdk_callTool :
  World -> jsstring -> list (jsstring * json) -> World * SdkReply.
Variable stringify_segment : Segment -> jsstring.
Variable syntax_error_message : jsstring -> jsstring.
Variable Date : Type.
Variable format_ymd : Date -> jsstring.
Variable mcpClient : GitHubMCPClient.

(** [for (const { owner, repo } of reposWithActivity) { try { ...
    repoSummaries.push(summary) } catch { } }] *)
Fixpoint summarizeAll (reposWithActivity : list RepoActivity)
    (startDate endDate : Date) (w : World) (repoSummaries : list RepoSummary)
  : World * list RepoSummary :=
  match reposWithActivity with
  | [] => (w, repoSummaries)
  | a :: rest =>
      let r := summarizeRepo World chat_create sdk_callTool stringify_segment
                 syntax_error_message Date format_ymd mcpClient
                 (a_owner a) (a_repo a) startDate endDate w in
      summarizeAll rest startDate endDate (final_world r)
        match outcome r with
        | Normal summary => repoSummaries ++ [summary]
        | Throw _ => repoSummaries
        end
  end.

End Main.

End Pipeline.

Import Pipeline.

(** ** Further notions about the conversation *)

Module Conduct.

(** A reasoning service that always answers with a message whose tool
    calls all carry a payload that parses. *)
Definition well_behaved {World : Type}
    (chat_create : World -> list Message -> World * ChatReply) : Prop :=
  forall w messages, exists w' message,
    chat_create w messages = (w', ChatMessage message) /\
    Forall (fun c => arguments_parse c = true) (tool_calls_of message).

(** The text a successful tool result is cut from. *)
Definition joined_text (stringify_segment : Segment -> jsstring)
    (result : MCPToolResult) : jsstring :=
  join LF (map (segment_text stringify_segment) (content result)).

End Conduct.

Import Conduct.

(** ** Notions used to state the properties of grouping *)

Module Grouped.

(** [matchedTeam] is [null] or the empty name. *)
Definition falsy_name (matchedTeam : option jsstring) : Prop :=
  str_truthy (nullable_or matchedTeam []) = false.

(** A group after more summaries have been pushed. *)
Definition grown {A : Type} (before : option (list A)) (more : list A)
  : option (list A) :=
  match before, more with
  | None, [] => None
  | None, _ => Some more
  | Some items, _ => Some (items ++ more)
  end.

(** The summaries assigned to team [t], in the order given. *)
Definition summaries_of_team {A : Type} (name_of : A -> jsstring)
    (teams : TeamsConfig) (t : jsstring) (summaries : list A) : list A :=
  filter (fun s => assignedTeam teams (name_of s) = t) summaries.

(** No own key of the object is a name every object inherits. *)
Definition own_keys_plain {A : Type} (grouped : gmap jsstring (list A)) : Prop :=
  forall t items, grouped !! t = Some items -> is_inherited t = false.

(** The summed measure of the summaries an object holds. *)
Definition weight {A : Type} (mu : A -> nat) (grouped : gmap jsstring (list A)) : nat :=
  sum_list_with (fun kv : jsstring * list A => sum_list_with mu kv.2)
    (map_to_list grouped).

(** Reading [t] from the object does not make the rendering loop throw. *)
Definition readable {A : Type} (grouped : gmap jsstring (list A)) (t : jsstring)
  : Prop :=
  is_Some (grouped !! t) \/ poisons t = false.

(** The names the teams list explicitly, in the order of the teams. *)
Definition listed_names (teams : TeamsConfig) : list jsstring :=
  flat_map (fun team : jsstring * TeamConfig => default [] (repos team.2)) teams.

(** The set of keys seen is the set of the repositories collected, which
    all belong to the organization and have distinct names. *)
Definition collected (organization : jsstring) (seenRepos : gset jsstring)
    (found : list Repo) : Prop :=
  (forall n, repo_key organization n ∈ seenRepos <-> n ∈ map r_repo found) /\
  NoDup (map r_repo found) /\
  Forall (fun r => r_owner r = organization) found.

End Grouped.

Import Grouped.

(** ** Sample data *)

Module Samples.

Import Scenario.

Definition platform : TeamConfig :=
  mkTeam (Some [js "infra-"]) (Some [js "api"; js "gateway"]).

Definition mobile : TeamConfig :=
  mkTeam (Some [js "ios-"; js "android-"]) (Some [js "api"; js "app"]).

Definition teams : TeamsConfig := [(js "Platform", platform); (js "Mobile", mobile)].

(** A configuration whose only team bears a name every object inherits. *)
Definition hostile_teams : TeamsConfig := [(js "constructor", mobile)].

Definition fix_login : PullRequest :=
  mkPR (mkNumber false 7 0) (js "Fix login") (js "ana") (js "2024-01-10")
    (js "https://example.test/pull/7") (js "Fixes the login flow").

Definition summary_of (name : string) (prs : list PullRequest) : Summary :=
  mkTyped (js name) (js "acme") (js "Work of the week") prs [].

Definition api : Summary := summary_of "api" [fix_login].
Definition ios_app : Summary := summary_of "ios-app" [].
Definition docs : Summary := summary_of "docs" [fix_login; fix_login].
Definition app : Summary := summary_of "app" [].

Definition summaries : list Summary := [api; ios_app; docs; app].

Definition grouped : gmap jsstring (list Summary) :=
  <[js "Unassigned" := [docs]]>
    (<[js "Mobile" := [ios_app; app]]> (<[js "Platform" := [api]]> ∅)).

(** Dates are given by their formatted text. *)
Definition format_long (d : Date) : jsstring := d.

(** A stand-in for [String(n)] on the natural numbers. *)
Definition Number_toString (n : jsnumber) : jsstring :=
  index_key (N.to_nat (num_digits n)).

(** A stand-in for [new Date(v)] on data whose dates are integral numbers
    of milliseconds. *)
Definition Date_value (v : json) : TimeValue :=
  match v with
  | JNum n =>
      if (num_exp10 n =? 0)%Z
      then Some (if num_neg n then - Z.of_N (num_digits n) else Z.of_N (num_digits n))
      else None
  | _ => None
  end.

(** The week from 8 to 15 January 2024. *)
Definition week_start : TimeValue := Some 1704672000000.
Definition week_end : TimeValue := Some 1705276800000.

(** A listing with one pull request merged in the week, one closed
    before it and one that carries no date. *)
Definition listing : jsstring :=
  js "[{`merged_at`:1704844800000},{`closed_at`:1700000000000},{`title`:`open`}]".

Definition listed : list json :=
  [ JObj [(js "merged_at", JNum (mkNumber false 1704844800000 0))];
    JObj [(js "closed_at", JNum (mkNumber false 1700000000000 0))];
    JObj [(js "title", JStr (js "open"))] ].

(** A listing with a pull request merged in the week and a [null]. *)
Definition listing_with_null : jsstring := js "[{`merged_at`:1704844800000},null]".

Definition listed_with_null : list json :=
  [ JObj [(js "merged_at", JNum (mkNumber false 1704844800000 0))]; JNull ].

Definition listing_result (body : jsstring) : SdkResult :=
  mkSdkResult (Some [text_segment body]) None.

(** [close()] of a client that shuts down cleanly. *)
Definition closing (w : World) : World * option jsstring := (w, None).

End Samples.

(** * Properties *)

(** ** Token budgeter *)

Section BudgetFacts.

Lemma truncation_marker_length : strlen truncation_marker = 43.
Proof. reflexivity. Qed.

Lemma estimateTokens_ceil (text : jsstring) :
  4 * (estimateTokens text - 1) < strlen text <= 4 * estimateTokens text.
Proof.
  unfold estimateTokens.
  pose proof (Z.div_mod (strlen text + 3) 4 ltac:(lia)) as Hdm.
  pose proof (Z.mod_pos_bound (strlen text + 3) 4 ltac:(lia)) as Hb.
  lia.
Qed.

Lemma estimateTokens_nonneg (text : jsstring) : 0 <= estimateTokens text.
Proof. unfold estimateTokens, strlen. apply Z.div_pos; lia. Qed.

(** The estimate is monotonic in the length of the text. *)
Lemma estimateTokens_mono (s t : jsstring) :
  strlen s <= strlen t -> estimateTokens s <= estimateTokens t.
Proof. intros H. unfold estimateTokens. apply Z.div_le_mono; lia. Qed.

Lemma over_budget_iff (text : jsstring) (maxTokens : Z) :
  maxTokens < estimateTokens text <-> 4 * maxTokens < strlen text.
Proof. pose proof (estimateTokens_ceil text). lia. Qed.

Lemma strlen_app (s t : jsstring) : strlen (s ++ t) = strlen s + strlen t.
Proof. unfold strlen. rewrite length_app. lia. Qed.

Lemma strlen_substring0 (s : jsstring) (n : Z) :
  strlen (substring0 s n) = Z.max 0 (Z.min n (strlen s)).
Proof. unfold strlen, substring0. rewrite length_take. lia. Qed.

Lemma truncateContent_within (content : jsstring) (maxTokens : Z) :
  estimateTokens content <= maxTokens ->
  truncateContent content maxTokens = content.
Proof.
  intros H. unfold truncateContent.
  destruct (Z.leb_spec (estimateTokens content) maxTokens); [reflexivity | lia].
Qed.

Lemma truncateContent_over (content : jsstring) (maxTokens : Z) :
  maxTokens < estimateTokens content ->
  truncateContent content maxTokens =
    substring0 content (maxTokens * 4) ++ truncation_marker.
Proof.
  intros H. unfold truncateContent.
  destruct (Z.leb_spec (estimateTokens content) maxTokens); [lia | reflexivity].
Qed.

Lemma truncateContent_over_length (content : jsstring) (maxTokens : Z) :
  maxTokens < estimateTokens content ->
  strlen (truncateContent content maxTokens) = Z.max 0 (maxTokens * 4) + 43.
Proof.
  intros H. rewrite truncateContent_over by exact H.
  rewrite strlen_app, strlen_substring0, truncation_marker_length.
  apply over_budget_iff in H. lia.
Qed.

(** C5, as the program has it: a text within the budget is returned
    unchanged; a text over the budget is cut to [4 * maxTokens] characters
    and the 43 characters of the marker are appended, so the result can be
    up to 43 characters longer than the original, and is no longer than it
    once the original has [4 * maxTokens + 43] characters or more. *)
Theorem truncateContent_marker_bound (content : jsstring) (maxTokens : Z) :
  (estimateTokens content <= maxTokens ->
   truncateContent content maxTokens = content) /\
  (maxTokens < estimateTokens content ->
   truncateContent content maxTokens =
     substring0 content (maxTokens * 4) ++ truncation_marker /\
   strlen (truncateContent content maxTokens) = Z.max 0 (maxTokens * 4) + 43) /\
  strlen (truncateContent content maxTokens) <= strlen content + 43 /\
  (Z.max 0 (maxTokens * 4) + 43 <= strlen content ->
   strlen (truncateContent content maxTokens) <= strlen content).
Proof.
  split; [apply truncateContent_within |].
  split.
  { intros H. split;
      [apply truncateContent_over | apply truncateContent_over_length]; exact H. }
  destruct (Z.le_gt_cases (estimateTokens content) maxTokens) as [Hle | Hgt].
  - rewrite truncateContent_within by exact Hle. lia.
  - rewrite truncateContent_over_length by exact Hgt.
    apply over_budget_iff in Hgt. pose proof (Zle_0_nat (length content)).
    unfold strlen in *. lia.
Qed.

Lemma truncateContent_marker_bound_witness :
  truncateContent (js "hello") 1 = js "hell" ++ truncation_marker /\
  strlen (truncateContent (js "hello") 1) = 47.
Proof.
  apply (proj1 (proj2 (truncateContent_marker_bound (js "hello") 1))).
  reflexivity.
Defined.

(** C5 as stated fails: five characters against a budget of one token
    come back as forty-seven. *)
Lemma truncateContent_can_grow :
  ~ (strlen (truncateContent (js "hello") 1) <= strlen (js "hello")).
Proof. vm_compute. intros H. apply H. reflexivity. Qed.

(** With the budget the program uses for diffs: 20001 characters come
    back as 20043. *)
Lemma truncateContent_grows_at_tool_budget :
  strlen (truncateContent (repeat 120%N (Z.to_nat 20001)) MAX_TOOL_RESULT_TOKENS)
  = 20043.
Proof. vm_compute. reflexivity. Qed.

(** C6: truncation is idempotent. *)
Theorem truncateContent_idempotent (t : jsstring) (b : Z) :
  truncateContent (truncateContent t b) b = truncateContent t b.
Proof.
  destruct (Z.le_gt_cases (estimateTokens t) b) as [Hle | Hgt].
  - rewrite (truncateContent_within t b Hle). apply truncateContent_within, Hle.
  - assert (Hover : b < estimateTokens (truncateContent t b)).
    { apply over_budget_iff. rewrite truncateContent_over_length by lia. lia. }
    rewrite (truncateContent_over _ b Hover).
    rewrite (truncateContent_over t b) by lia.
    f_equal. unfold substring0.
    apply take_app_length'. rewrite length_take.
    apply over_budget_iff in Hgt. unfold strlen in Hgt. lia.
Qed.

(** The estimate of a truncated text exceeds the budget by at most the
    eleven tokens of the marker. *)
Lemma truncateContent_estimate (t : jsstring) (b : Z) :
  0 <= b -> estimateTokens (truncateContent t b) <= b + 11.
Proof.
  intros Hb. destruct (Z.le_gt_cases (estimateTokens t) b) as [Hle | Hgt].
  - rewrite truncateContent_within by exact Hle. lia.
  - pose proof (truncateContent_over_length t b ltac:(lia)) as Hlen.
    pose proof (estimateTokens_ceil (truncateContent t b)). lia.
Qed.

End BudgetFacts.

(** ** History pruning *)

Section PruneFacts.

Lemma foldl_size_shift (l : list Message) (a : Z) :
  foldl (fun sum msg => sum + estimateTokens (content_text msg)) a l
  = a + totalMessageSize l.
Proof.
  unfold totalMessageSize. revert a.
  induction l as [|m l IH]; intros a; cbn [foldl].
  - lia.
  - rewrite (IH (a + _)), (IH (0 + _)). lia.
Qed.

Lemma totalMessageSize_cons (m : Message) (l : list Message) :
  totalMessageSize (m :: l) = estimateTokens (content_text m) + totalMessageSize l.
Proof.
  unfold totalMessageSize at 1. cbn [foldl]. rewrite foldl_size_shift. lia.
Qed.

Lemma totalMessageSize_app (l k : list Message) :
  totalMessageSize (l ++ k) = totalMessageSize l + totalMessageSize k.
Proof.
  induction l as [|m l IH]; [reflexivity |].
  cbn [app]. rewrite !totalMessageSize_cons, IH. lia.
Qed.

Lemma totalMessageSize_nonneg (l : list Message) : 0 <= totalMessageSize l.
Proof.
  induction l as [|m l IH]; [reflexivity |].
  rewrite totalMessageSize_cons.
  pose proof (estimateTokens_nonneg (content_text m)). lia.
Qed.

Lemma totalMessageSize_drop (n : nat) (l : list Message) :
  totalMessageSize (drop n l) <= totalMessageSize l.
Proof.
  rewrite <- (take_drop n l) at 2. rewrite totalMessageSize_app.
  pose proof (totalMessageSize_nonneg (take n l)). lia.
Qed.

(** Only a list that holds a message can be over the ceiling. *)
Lemma over_ceiling_nonempty (messages : list Message) :
  totalMessageSize messages > MAX_TOTAL_MESSAGE_TOKENS -> messages <> [].
Proof. intros H ->. vm_compute in H. discriminate. Qed.

Lemma budgetConversation_below (messages : list Message) :
  totalMessageSize messages <= MAX_TOTAL_MESSAGE_TOKENS ->
  budgetConversation messages = messages.
Proof.
  intros H. unfold budgetConversation.
  destruct (Z.gtb_spec (totalMessageSize messages) MAX_TOTAL_MESSAGE_TOKENS);
    [lia | reflexivity].
Qed.

Lemma budgetConversation_over (messages : list Message) :
  totalMessageSize messages > MAX_TOTAL_MESSAGE_TOKENS ->
  budgetConversation messages = prune messages.
Proof.
  intros H. unfold budgetConversation.
  destruct (Z.gtb_spec (totalMessageSize messages) MAX_TOTAL_MESSAGE_TOKENS);
    [reflexivity | lia].
Qed.

(** Over the ceiling, the outcome is message 0 followed by the five most
    recent messages (all of them when there are fewer). *)
Lemma budgetConversation_retains (messages : list Message) :
  totalMessageSize messages > MAX_TOTAL_MESSAGE_TOKENS ->
  exists systemMsg,
    messages !! 0%nat = Some systemMsg /\
    budgetConversation messages = systemMsg :: slice_last 5 messages.
Proof.
  intros H. rewrite budgetConversation_over by exact H.
  destruct messages as [|m0 rest]; [vm_compute in H; discriminate |].
  exists m0. split; reflexivity.
Qed.

(** With six messages or more, pruning does not raise the estimate. *)
Lemma prune_size_le (messages : list Message) :
  (6 <= length messages)%nat ->
  totalMessageSize (prune messages) <= totalMessageSize messages.
Proof.
  intros Hlen. destruct messages as [|m0 rest]; [cbn in Hlen; lia |].
  cbn [length] in Hlen. unfold prune, slice_last. cbn [length].
  replace (S (length rest) - 5)%nat with (S (length rest - 5)) by lia.
  cbn [drop]. rewrite !totalMessageSize_cons.
  pose proof (totalMessageSize_drop (length rest - 5) rest). lia.
Qed.

(** With five messages or fewer, [slice(-5)] is the whole list, message 0
    included: pruning prepends a second copy of message 0 and the estimate
    grows by the estimate of message 0. *)
Lemma prune_short (m0 : Message) (rest : list Message) :
  (length (m0 :: rest) <= 5)%nat ->
  prune (m0 :: rest) = m0 :: m0 :: rest /\
  totalMessageSize (prune (m0 :: rest))
  = estimateTokens (content_text m0) + totalMessageSize (m0 :: rest).
Proof.
  intros Hlen. unfold prune, slice_last.
  replace (length (m0 :: rest) - 5)%nat with 0%nat by lia.
  cbn [drop]. split; [reflexivity |]. apply totalMessageSize_cons.
Qed.

End PruneFacts.

(** ** A run whose first round brings in two large listings *)

Section BulkRun.

Import Scenario.

(** What survives of the eight-message history: the system prompt and
    the last five messages.  The second assistant message keeps its
    answer; the three answers of the first round stay without the
    assistant message that asked for them. *)
Example pruning_keeps_answers_of_a_dropped_message :
  tool_ids (budgetConversation long_history) = [js "a"; js "b"; js "c"; js "d"] /\
  length (budgetConversation long_history) = 6%nat /\
  answered (budgetConversation long_history) = true /\
  (budgetConversation long_history) !! 1%nat = Some (ToolMessage (js "a") bulk_result).
Proof.
  split; [vm_compute; reflexivity |].
  split; [vm_compute; reflexivity |].
  split; [vm_compute; reflexivity |].
  apply (bool_decide_unpack _). vm_compute. exact I.
Qed.

(** C4 at a list the loop does produce.  After a first round with two
    listings of 50000 characters each the history has five messages and an
    estimate of 20426 tokens; the size check of the second round fires,
    [slice(-5)] returns all five messages, and the list that is sent has
    six messages, the system prompt twice, with an estimate of 20549. *)
Theorem prune_duplicates_system_prompt :
  requests bulk_run !! 1%nat = Some (budgetConversation bulk_history) /\
  totalMessageSize bulk_history = 20426 /\
  budgetConversation bulk_history = bulk_system :: bulk_history /\
  totalMessageSize (budgetConversation bulk_history) = 20549.
Proof.
  split; [| split; [| split]].
  - apply (bool_decide_unpack _). vm_compute. exact I.
  - vm_compute. reflexivity.
  - apply (bool_decide_unpack _). vm_compute. exact I.
  - vm_compute. reflexivity.
Qed.

End BulkRun.

(** ** JSON.parse *)

Section ParseFacts.

Ltac settle_frames Hbot :=
  unfold outer_object, object_at_bottom in *;
  rewrite ?last_cons_cons in *;
  first
    [ left; exact Hbot
    | left; exact I
    | right; split; [reflexivity | eexists; reflexivity]
    | cbn in Hbot; contradiction
    | left; cbn in Hbot |- *; exact Hbot ].

Lemma parse_step_outer_object (e e' : expect) (stack stack' : list frame) (t : token) :
  outer_object e stack ->
  parse_step e stack t = Some (e', stack') ->
  outer_object e' stack'.
Proof.
  intros [Hbot | [-> [members ->]]] Hstep.
  - destruct stack as [|f stack]; [destruct Hbot |].
    destruct e, t, f; cbn in Hstep; try discriminate;
      injection Hstep as <- <-;
      destruct stack as [|g stack]; settle_frames Hbot.
  - destruct t; cbn in Hstep; discriminate.
Qed.

Lemma parse_tokens_outer_object (ts : list token) (e : expect)
    (stack : list frame) (v : json) :
  outer_object e stack ->
  parse_tokens e stack ts = Some v ->
  exists members, v = JObj members.
Proof.
  revert e stack. induction ts as [|t ts IH]; intros e stack Hinv Hrun.
  - cbn in Hrun. destruct Hinv as [Hbot | [-> [members ->]]].
    + destruct e, stack; try discriminate. destruct Hbot.
    + simplify_eq. eauto.
  - cbn in Hrun.
    destruct (parse_step e stack t) as [[e' stack']|] eqn:Hstep; [| discriminate].
    cbn in Hrun. eapply IH; [| exact Hrun].
    eapply parse_step_outer_object; eassumption.
Qed.

(** A text that starts with an opening brace parses to an object, if it
    parses at all. *)
Lemma JSON_parse_brace_object (s : jsstring) (v : json) :
  JSON_parse (123%N :: s) = Some v -> exists members, v = JObj members.
Proof.
  unfold JSON_parse. cbn [lex lex_step].
  change (lex_start 123%N) with (Some (LStart, [TLBrace])). cbn [mbind option_bind].
  destruct (lex LStart s) as [rest|]; [| discriminate]. cbn.
  apply parse_tokens_outer_object. left. exact I.
Qed.

End ParseFacts.

(** ** Structured-result extractor *)

Section ExtractorFacts.

Lemma from_first_Some (c : N) (s t : jsstring) :
  from_first c s = Some t ->
  exists pre t', s = pre ++ t /\ t = c :: t' /\ c ∉ pre.
Proof.
  revert t. induction s as [|d s IH]; intros t H; [discriminate |].
  cbn in H. destruct (N.eqb_spec d c) as [-> | Hne].
  - injection H as <-. exists [], s. split; [reflexivity |].
    split; [reflexivity | apply not_elem_of_nil].
  - destruct (IH t H) as (pre & t' & -> & -> & Hpre).
    exists (d :: pre), t'. split; [reflexivity |]. split; [reflexivity |].
    rewrite elem_of_cons. intros [-> | Hin]; [congruence | exact (Hpre Hin)].
Qed.

Lemma from_first_None (c : N) (s : jsstring) :
  from_first c s = None <-> c ∉ s.
Proof.
  induction s as [|d s IH]; cbn.
  - split; [intros _; apply not_elem_of_nil | reflexivity].
  - rewrite elem_of_cons. destruct (N.eqb_spec d c) as [-> | Hne].
    + split; [discriminate | intros H; exfalso; apply H; left; reflexivity].
    + rewrite IH. split.
      * intros H [-> | Hin]; [congruence | exact (H Hin)].
      * intros H Hin. apply H. right. exact Hin.
Qed.

Lemma upto_last_None (c : N) (s : jsstring) :
  upto_last c s = None <-> c ∉ s.
Proof.
  induction s as [|d s IH]; cbn.
  - split; [intros _; apply not_elem_of_nil | reflexivity].
  - rewrite elem_of_cons. destruct (upto_last c s) as [p|].
    + split; [discriminate |]. intros H. exfalso. apply H. right.
      destruct (decide (c ∈ s)) as [Hin | Hout]; [exact Hin |].
      apply IH in Hout. discriminate.
    + destruct (N.eqb_spec d c) as [-> | Hne].
      * split; [discriminate | intros H; exfalso; apply H; left; reflexivity].
      * split; [| reflexivity]. intros _ [-> | Hin]; [congruence |].
        apply (proj1 IH); [reflexivity | exact Hin].
Qed.

Lemma upto_last_Some (c : N) (s p : jsstring) :
  upto_last c s = Some p ->
  exists p' post, s = p ++ post /\ p = p' ++ [c] /\ c ∉ post.
Proof.
  revert p. induction s as [|d s IH]; intros p H; [discriminate |].
  cbn in H. destruct (upto_last c s) as [q|] eqn:Hq.
  - injection H as <-. destruct (IH q eq_refl) as (p' & post & -> & -> & Hpost).
    exists (d :: p'), post. split; [reflexivity |]. split; [reflexivity | exact Hpost].
  - destruct (N.eqb_spec d c) as [-> | Hne]; [| discriminate].
    injection H as <-. exists [], s. split; [reflexivity |]. split; [reflexivity |].
    apply upto_last_None. exact Hq.
Qed.

(** What the regular expression matches: the text between the first
    opening brace and the last closing brace after it, both included. *)
Lemma jsonMatch_Some (content text : jsstring) :
  jsonMatch content = Some text ->
  exists pre body post,
    content = pre ++ text ++ post /\
    text = 123%N :: body ++ [125%N] /\
    (123%N ∉ pre) /\ (125%N ∉ post).
Proof.
  unfold jsonMatch. intros H.
  destruct (from_first 123%N content) as [s|] eqn:Hs; [| discriminate].
  cbn in H.
  destruct (from_first_Some _ _ _ Hs) as (pre & s' & -> & -> & Hpre).
  destruct (upto_last_Some _ _ _ H) as (p' & post & Heq & -> & Hpost).
  destruct p' as [|c body].
  - cbn in Heq. discriminate.
  - cbn in Heq. injection Heq as <- Heq.
    exists pre, body, post. rewrite Heq. repeat split; assumption.
Qed.

(** A text without an opening brace, or without a closing one, has no
    match. *)
Lemma jsonMatch_no_brace (content : jsstring) :
  123%N ∉ content \/ 125%N ∉ content -> jsonMatch content = None.
Proof.
  unfold jsonMatch. intros [H | H].
  - apply from_first_None in H. rewrite H. reflexivity.
  - destruct (from_first 123%N content) as [s|] eqn:Hs; [| reflexivity].
    cbn. apply upto_last_None.
    destruct (from_first_Some _ _ _ Hs) as (pre & s' & -> & _ & _).
    intros Hin. apply H. apply elem_of_app. right. exact Hin.
Qed.

Lemma decoded_object (members : list (jsstring * json)) (owner repo : jsstring) :
  decoded (JObj members) owner repo =
    Some (mkSummary repo owner
            (or_default (lookup_member (js "overallSummary") members) (JStr no_summary))
            (or_default (lookup_member (js "pullRequests") members) (JArr []))
            (or_default (lookup_member (js "breakingChanges") members) (JArr []))).
Proof. reflexivity. Qed.

Lemma decoded_names (parsed : json) (o r : jsstring) (s : RepoSummary) :
  decoded parsed o r = Some s -> owner s = o /\ repoName s = r.
Proof.
  unfold decoded. intros H.
  destruct (get_field parsed (js "overallSummary")); [| discriminate].
  destruct (get_field parsed (js "pullRequests")); [| discriminate].
  destruct (get_field parsed (js "breakingChanges")); [| discriminate].
  cbn in H. injection H as <-. split; reflexivity.
Qed.

Lemma parseSummaryFromMessage_names (content o r : jsstring) :
  owner (parseSummaryFromMessage content o r) = o /\
  repoName (parseSummaryFromMessage content o r) = r.
Proof.
  unfold parseSummaryFromMessage, try_block.
  destruct (jsonMatch content) as [text|]; [| split; reflexivity].
  destruct (JSON_parse text) as [parsed|]; [| split; reflexivity]. cbn.
  destruct (decoded parsed o r) as [s|] eqn:Hs; [| split; reflexivity].
  cbn. eapply decoded_names, Hs.
Qed.

Lemma parseSummaryFromMessage_no_payload (content o r : jsstring) :
  jsonMatch content = None \/
  (exists text, jsonMatch content = Some text /\ JSON_parse text = None) ->
  parseSummaryFromMessage content o r = fallback content o r.
Proof.
  unfold parseSummaryFromMessage, try_block.
  intros [-> | (text & -> & Hparse)]; [reflexivity |].
  rewrite Hparse. reflexivity.
Qed.

(** C7: when the regular expression finds no match, or [JSON.parse]
    rejects the match, the result is the degraded summary: the raw text as
    narrative (the placeholder when the text is empty) and two empty lists.
    No exception leaves the function: those thrown inside the [try] block
    are the [None] of [try_block], which is mapped to the same record. *)
Theorem parseSummaryFromMessage_degrades (content o r : jsstring) :
  jsonMatch content = None \/
  (exists text, jsonMatch content = Some text /\ JSON_parse text = None) ->
  parseSummaryFromMessage content o r =
    mkSummary r o
      (JStr (match content with [] => no_summary | _ :: _ => content end))
      (JArr []) (JArr []).
Proof.
  intros H. rewrite parseSummaryFromMessage_no_payload by exact H.
  unfold fallback, str_or. destruct content; reflexivity.
Qed.

Lemma parseSummaryFromMessage_degrades_witness :
  parseSummaryFromMessage (js "Nothing was merged this week.") (js "acme") (js "api")
  = mkSummary (js "api") (js "acme")
      (JStr (js "Nothing was merged this week.")) (JArr []) (JArr []).
Proof.
  apply (parseSummaryFromMessage_degrades (js "Nothing was merged this week.")).
  left. reflexivity.
Defined.

(** The same on the empty text and on a text whose braces do not hold
    JSON. *)
Example degraded_empty :
  parseSummaryFromMessage [] (js "acme") (js "api")
  = mkSummary (js "api") (js "acme") (JStr (js "No summary provided")) (JArr []) (JArr []).
Proof. reflexivity. Qed.

Example degraded_not_json :
  parseSummaryFromMessage (js "see {owner}/{repo}") (js "acme") (js "api")
  = mkSummary (js "api") (js "acme") (JStr (js "see {owner}/{repo}")) (JArr []) (JArr []).
Proof. reflexivity. Qed.

(** C8, as the program has it: the text decoded is the span from the first
    opening brace to the last closing brace.  When that span parses, it
    parses to an object, and each of the three fields is the member of
    that name when it is present and truthy, the default otherwise. *)
Theorem parseSummaryFromMessage_decodes_span
    (content o r text : jsstring) (parsed : json) :
  jsonMatch content = Some text ->
  JSON_parse text = Some parsed ->
  exists members,
    parsed = JObj members /\
    parseSummaryFromMessage content o r =
      mkSummary r o
        (or_default (lookup_member (js "overallSummary") members) (JStr no_summary))
        (or_default (lookup_member (js "pullRequests") members) (JArr []))
        (or_default (lookup_member (js "breakingChanges") members) (JArr [])) /\
    (lookup_member (js "overallSummary") members = None ->
     overallSummary (parseSummaryFromMessage content o r) = JStr no_summary) /\
    (lookup_member (js "pullRequests") members = None ->
     pullRequests (parseSummaryFromMessage content o r) = JArr []) /\
    (lookup_member (js "breakingChanges") members = None ->
     breakingChanges (parseSummaryFromMessage content o r) = JArr []).
Proof.
  intros Hmatch Hparse.
  destruct (jsonMatch_Some _ _ Hmatch) as (pre & body & post & _ & Htext & _).
  rewrite Htext in Hparse.
  destruct (JSON_parse_brace_object _ _ Hparse) as [members ->].
  rewrite <- Htext in Hparse.
  exists members. split; [reflexivity |].
  assert (Hresult : parseSummaryFromMessage content o r =
    mkSummary r o
      (or_default (lookup_member (js "overallSummary") members) (JStr no_summary))
      (or_default (lookup_member (js "pullRequests") members) (JArr []))
      (or_default (lookup_member (js "breakingChanges") members) (JArr []))).
  { unfold parseSummaryFromMessage, try_block. rewrite Hmatch, Hparse. reflexivity. }
  rewrite Hresult. cbn [overallSummary pullRequests breakingChanges].
  repeat split; intros ->; reflexivity.
Qed.

Lemma parseSummaryFromMessage_decodes_span_witness :
  parseSummaryFromMessage
    (js "Summary: {`overallSummary`:`x`,`pullRequests`:[]} -- end")
    (js "acme") (js "api")
  = mkSummary (js "api") (js "acme") (JStr (js "x")) (JArr []) (JArr []).
Proof.
  destruct (parseSummaryFromMessage_decodes_span
              (js "Summary: {`overallSummary`:`x`,`pullRequests`:[]} -- end")
              (js "acme") (js "api")
              (js "{`overallSummary`:`x`,`pullRequests`:[]}")
              (JObj [(js "overallSummary", JStr (js "x")); (js "pullRequests", JArr [])])
              eq_refl eq_refl) as (members & Hobj & Hres & _).
  injection Hobj as <-. exact Hres.
Defined.

(** C8 as stated fails.  The first brace-matched substring of the text
    below is a well-formed payload with narrative [x]; the program matches
    up to the last closing brace, [JSON.parse] rejects that span, and the
    narrative returned is the raw text. *)
Lemma first_payload_not_decoded :
  let content := js "{`overallSummary`:`x`} (see {docs})" in
  let payload := js "{`overallSummary`:`x`}" in
  first_brace_matched content = Some payload /\
  JSON_parse payload = Some (JObj [(js "overallSummary", JStr (js "x"))]) /\
  decoded (JObj [(js "overallSummary", JStr (js "x"))]) (js "acme") (js "api")
    = Some (mkSummary (js "api") (js "acme") (JStr (js "x")) (JArr []) (JArr [])) /\
  jsonMatch content = Some (js "{`overallSummary`:`x`} (see {docs}") /\
  JSON_parse (js "{`overallSummary`:`x`} (see {docs}") = None /\
  parseSummaryFromMessage content (js "acme") (js "api")
    = mkSummary (js "api") (js "acme") (JStr content) (JArr []) (JArr []) /\
  parseSummaryFromMessage content (js "acme") (js "api")
    <> mkSummary (js "api") (js "acme") (JStr (js "x")) (JArr []) (JArr []).
Proof.
  cbv zeta. do 6 (split; [reflexivity |]).
  intros H. vm_compute in H. discriminate H.
Qed.

End ExtractorFacts.

(** ** Tool-host adapter *)

Section McpFacts.

Context {World : Type}.
Context (sdk_callTool : World -> jsstring -> list (jsstring * json) -> World * SdkReply).

Lemma callTool_offline (this : GitHubMCPClient) (toolName : jsstring)
    (args : json) (w : World) :
  connected this = false ->
  callTool World sdk_callTool this toolName args w = (w, Throw (Error_ not_connected)).
Proof. intros H. unfold callTool. rewrite H. reflexivity. Qed.

Lemma callTool_online (this : GitHubMCPClient) (toolName : jsstring)
    (args : json) (w : World) :
  connected this = true ->
  exists w' result,
    callTool World sdk_callTool this toolName args w = (w', Normal result).
Proof.
  intros H. unfold callTool. rewrite H. cbn [negb].
  destruct (mapToolNameAndArgs toolName args) as [name adjusted].
  destruct (sdk_callTool w name adjusted) as [w' [result | message]]; eauto.
Qed.


End McpFacts.

Section McpExamples.

Import Scenario.



(** The envelope of a resolved invocation never has [isError] set, also
    when the host has flagged the result as failed. *)
Example host_flag_not_forwarded :
  callTool World failing_host online (js "mcp_GitHub_get_pull_request") (JObj []) 0%nat
  = (0%nat, Normal (mkResult [text_segment (js "404 Not Found")] false)).
Proof. reflexivity. Qed.

Example mapping_adds_method :
  mapToolNameAndArgs (js "mcp_GitHub_get_pull_request_diff")
    (JObj [(js "pullNumber", JNum (mkNumber false 7 0))])
  = (js "pull_request_read",
     [(js "pullNumber", JNum (mkNumber false 7 0)); (js "method", JStr (js "diff"))]).
Proof. reflexivity. Qed.

End McpExamples.

(** ** Tool-calling loop *)

Section AgentFacts.

Context {World : Type}.
Context (chat_create : World -> list Message -> World * ChatReply).
Context (sdk_callTool : World -> jsstring -> list (jsstring * json) -> World * SdkReply).
Context (stringify_segment : Segment -> jsstring).
Context (syntax_error_message : jsstring -> jsstring).
Context {Date : Type} (format_ymd : Date -> jsstring).
Context (mcpClient : GitHubMCPClient).

Local Abbreviation handle :=
  (handleToolCall World sdk_callTool stringify_segment syntax_error_message mcpClient).
Local Abbreviation dispatch_calls :=
  (dispatch World sdk_callTool stringify_segment syntax_error_message mcpClient).
Local Abbreviation loop :=
  (rounds World chat_create sdk_callTool stringify_segment syntax_error_message mcpClient).
Local Abbreviation summarize :=
  (summarizeRepo World chat_create sdk_callTool stringify_segment syntax_error_message
     Date format_ymd mcpClient).

(** *** One tool call *)

(** A payload that parses is answered by one tool message carrying the id
    of the call, whatever the host does and whether or not the adapter is
    connected. *)
Lemma handleToolCall_answers (w : World) (c : ToolCall) :
  arguments_parse c = true ->
  exists w' content, handle w c = (w', Normal (ToolMessage (tc_id c) content)).
Proof.
  unfold arguments_parse, handleToolCall. intros H.
  apply bool_decide_eq_true in H. destruct H as [toolArgs ->].
  destruct (callTool World sdk_callTool mcpClient (tc_name c) toolArgs w)
    as [w' [result | error]].
  - destruct (isError result); eauto.
  - eauto.
Qed.

(** A payload that does not parse throws; nothing is pushed. *)
Lemma handleToolCall_malformed (w : World) (c : ToolCall) :
  arguments_parse c = false ->
  handle w c = (w, Throw (SyntaxError_ (str_or (tc_arguments c) (js "{}")))).
Proof.
  unfold arguments_parse, handleToolCall. intros H.
  apply bool_decide_eq_false in H.
  destruct (JSON_parse (str_or (tc_arguments c) (js "{}"))) as [v|]; [| reflexivity].
  exfalso. apply H. eauto.
Qed.

Lemma handleToolCall_Normal (w w' : World) (c : ToolCall) (m : Message) :
  handle w c = (w', Normal m) -> answer_to c m.
Proof.
  unfold handleToolCall, answer_to. intros H.
  destruct (JSON_parse (str_or (tc_arguments c) (js "{}"))) as [toolArgs|];
    [| discriminate].
  destruct (callTool World sdk_callTool mcpClient (tc_name c) toolArgs w)
    as [w1 [result | error]].
  - destruct (isError result); injection H as _ <-; unfold success_message; eauto.
  - injection H as _ <-. eauto.
Qed.

(** The three outcomes of an invocation and the message each one pushes. *)
Lemma handleToolCall_rejected (w w' : World) (c : ToolCall) (toolArgs : json)
    (message : jsstring) :
  connected mcpClient = true ->
  JSON_parse (str_or (tc_arguments c) (js "{}")) = Some toolArgs ->
  sdk_callTool w (mapToolNameAndArgs (tc_name c) toolArgs).1
                 (mapToolNameAndArgs (tc_name c) toolArgs).2 = (w', SdkRejected message) ->
  handle w c =
    (w', Normal (ToolMessage (tc_id c)
       (stringify_content stringify_segment
          [mkSegment (js "text")
             (Some (js "Error calling tool " ++ tc_name c ++ js ": " ++ message)) []]))).
Proof.
  intros Hon Hparse Hsdk. unfold handleToolCall, callTool.
  rewrite Hparse, Hon. cbn [negb].
  destruct (mapToolNameAndArgs (tc_name c) toolArgs) as [name adjusted].
  cbn [fst snd] in Hsdk. rewrite Hsdk. reflexivity.
Qed.

Lemma handleToolCall_offline (w : World) (c : ToolCall) (toolArgs : json) :
  connected mcpClient = false ->
  JSON_parse (str_or (tc_arguments c) (js "{}")) = Some toolArgs ->
  handle w c =
    (w, Normal (ToolMessage (tc_id c) (js "Error: " ++ not_connected))).
Proof.
  intros Hoff Hparse. unfold handleToolCall, callTool.
  rewrite Hparse, Hoff. reflexivity.
Qed.

(** *** The tool calls of one assistant message *)

Lemma dispatch_completes (cs : list ToolCall) (w w' : World)
    (messages messages' : list Message) :
  dispatch_calls w messages cs = (w', messages', None) ->
  exists replies,
    messages' = messages ++ replies /\ Forall2 answer_to cs replies.
Proof.
  revert w messages. induction cs as [|c cs IH]; intros w messages H; cbn in H.
  - injection H as _ <-. exists []. split; [by rewrite app_nil_r | constructor].
  - destruct (handle w c) as [w1 [reply | e]] eqn:Hc; [| discriminate].
    destruct (IH _ _ H) as (replies & -> & Hall).
    exists (reply :: replies). split; [by rewrite <- app_assoc |].
    constructor; [eapply handleToolCall_Normal; exact Hc | exact Hall].
Qed.

Lemma dispatch_total (cs : list ToolCall) (w : World) (messages : list Message) :
  Forall (fun c => arguments_parse c = true) cs ->
  exists w' messages', dispatch_calls w messages cs = (w', messages', None).
Proof.
  intros Hall. revert w messages.
  induction Hall as [|c cs Hc _ IH]; intros w messages; cbn.
  - eauto.
  - destruct (handleToolCall_answers w c Hc) as (w1 & content & ->). apply IH.
Qed.

(** When a payload does not parse, the calls before it have been answered
    and neither it nor the calls after it are. *)
Lemma dispatch_aborts (cs : list ToolCall) (w w' : World)
    (messages messages' : list Message) (e : exn) :
  dispatch_calls w messages cs = (w', messages', Some e) ->
  exists before c after replies,
    cs = before ++ c :: after /\
    arguments_parse c = false /\
    e = SyntaxError_ (str_or (tc_arguments c) (js "{}")) /\
    messages' = messages ++ replies /\
    Forall2 answer_to before replies.
Proof.
  revert w messages. induction cs as [|c cs IH]; intros w messages H; cbn in H.
  - discriminate.
  - destruct (arguments_parse c) eqn:Hp.
    + destruct (handleToolCall_answers w c Hp) as (w1 & content & Hc).
      rewrite Hc in H.
      destruct (IH _ _ H) as (before & c' & after & replies & -> & Hc' & -> & -> & Hall).
      exists (c :: before), c', after, (ToolMessage (tc_id c) content :: replies).
      split; [reflexivity |]. split; [exact Hc' |]. split; [reflexivity |].
      split; [by rewrite <- app_assoc |].
      constructor; [eexists; reflexivity | exact Hall].
    + rewrite (handleToolCall_malformed w c Hp) in H. injection H as _ <- <-.
      exists [], c, cs, []. split; [reflexivity |]. split; [exact Hp |].
      split; [reflexivity |]. split; [by rewrite app_nil_r | constructor].
Qed.

(** *** The shape of a conversation *)

Lemma answers_of_replies (cs : list ToolCall) (replies : list Message) :
  Forall2 answer_to cs replies -> answers cs replies = true.
Proof.
  induction 1 as [|c m cs replies [content ->] _ IH]; [reflexivity |].
  cbn. rewrite IH. unfold str_eqb. rewrite bool_decide_eq_true_2; reflexivity.
Qed.

Lemma tool_ids_of_replies (cs : list ToolCall) (replies : list Message) :
  Forall2 answer_to cs replies -> tool_ids replies = map tc_id cs.
Proof.
  induction 1 as [|c m cs replies [content ->] _ IH]; [reflexivity |].
  cbn. rewrite IH. reflexivity.
Qed.

Lemma tool_ids_app (l k : list Message) :
  tool_ids (l ++ k) = tool_ids l ++ tool_ids k.
Proof.
  induction l as [|m l IH]; [reflexivity |].
  destruct m; cbn; rewrite IH; reflexivity.
Qed.

(** Appending an assistant message after a complete block keeps the block
    complete. *)
Lemma answers_then_assistant (cs : list ToolCall) (l : list Message)
    (m : AssistantMessage) (rest : list Message) :
  answers cs l = true -> answers cs (l ++ AssistantMsg m :: rest) = true.
Proof.
  revert l. induction cs as [|c cs IH]; intros l H.
  - destruct l as [|m0 l]; [reflexivity | exact H].
  - destruct l as [|m0 l]; [discriminate |].
    destruct m0; try discriminate. cbn in H |- *.
    apply andb_true_iff in H as [Hid Hrest].
    rewrite Hid. cbn. apply IH, Hrest.
Qed.

Lemma answered_then_assistant (l : list Message) (m : AssistantMessage)
    (rest : list Message) :
  answered l = true ->
  answered (AssistantMsg m :: rest) = true ->
  answered (l ++ AssistantMsg m :: rest) = true.
Proof.
  intros Hl Hrest. induction l as [|m0 l IH]; [exact Hrest |].
  destruct m0; cbn in Hl |- *; try (apply IH; exact Hl).
  apply andb_true_iff in Hl as [Hblock Hl].
  rewrite (answers_then_assistant _ _ _ _ Hblock). cbn. apply IH, Hl.
Qed.

Lemma answered_replies (replies : list Message) :
  Forall is_tool replies -> answered replies = true.
Proof.
  induction 1 as [|m replies Hm _ IH]; [reflexivity |].
  destruct m; try (cbn in Hm; contradiction). exact IH.
Qed.

Lemma replies_are_tool (cs : list ToolCall) (replies : list Message) :
  Forall2 answer_to cs replies -> Forall is_tool replies.
Proof.
  induction 1 as [|c m cs replies [content ->] _ IH]; constructor; [exact I | exact IH].
Qed.

(** A finished round keeps the conversation well formed. *)
Lemma answered_round (l : list Message) (m : AssistantMessage)
    (cs : list ToolCall) (replies : list Message) :
  answered l = true ->
  tool_calls_of m = cs ->
  Forall2 answer_to cs replies ->
  answered ((l ++ [AssistantMsg m]) ++ replies) = true.
Proof.
  intros Hl Hcs Hall. rewrite <- app_assoc. cbn [app].
  apply answered_then_assistant; [exact Hl |].
  cbn. rewrite Hcs, (answers_of_replies _ _ Hall). cbn.
  apply answered_replies. eapply replies_are_tool, Hall.
Qed.

Lemma answered_tail (m : Message) (l : list Message) :
  answered (m :: l) = true -> answered l = true.
Proof.
  destruct m; cbn; try tauto.
  intros H. apply andb_true_iff in H. tauto.
Qed.

Lemma answered_drop (n : nat) (l : list Message) :
  answered l = true -> answered (drop n l) = true.
Proof.
  revert l. induction n as [|n IH]; intros l H; [exact H |].
  destruct l as [|m l]; [reflexivity |]. cbn [drop]. apply IH.
  eapply answered_tail, H.
Qed.

(** Pruning keeps the conversation well formed: what it keeps is the
    system prompt and a suffix, and a block that starts in a suffix ends
    in it. *)
Lemma answered_budgetConversation (l : list Message) :
  starts_with_system l ->
  answered l = true -> answered (budgetConversation l) = true.
Proof.
  intros Hhead H. unfold budgetConversation.
  destruct (totalMessageSize l >? MAX_TOTAL_MESSAGE_TOKENS); [| exact H].
  unfold prune, slice_last. destruct l as [|m0 rest]; [reflexivity |].
  destruct m0; try destruct Hhead.
  cbn [answered]. apply answered_drop. exact H.
Qed.

Lemma starts_with_system_budgetConversation (l : list Message) :
  starts_with_system l -> starts_with_system (budgetConversation l).
Proof.
  intros H. unfold budgetConversation.
  destruct (totalMessageSize l >? MAX_TOTAL_MESSAGE_TOKENS); [| exact H].
  destruct l as [|m0 rest]; [destruct H |]. exact H.
Qed.

Lemma starts_with_system_app (l k : list Message) :
  starts_with_system l -> starts_with_system (l ++ k).
Proof. destruct l as [|m0 rest]; [intros [] | intros H; exact H]. Qed.

Lemma tool_ids_drop (n : nat) (l : list Message) :
  tool_ids (drop n l) `sublist_of` tool_ids l.
Proof.
  rewrite <- (take_drop n l) at 2. rewrite tool_ids_app.
  apply sublist_inserts_l. reflexivity.
Qed.

Lemma tool_ids_budgetConversation (l : list Message) :
  starts_with_system l ->
  tool_ids (budgetConversation l) `sublist_of` tool_ids l.
Proof.
  intros Hhead. unfold budgetConversation.
  destruct (totalMessageSize l >? MAX_TOTAL_MESSAGE_TOKENS); [| reflexivity].
  unfold prune, slice_last. destruct l as [|m0 rest]; [reflexivity |].
  destruct m0 as [prompt| | |]; try destruct Hhead.
  exact (tool_ids_drop (length (SystemMessage prompt :: rest) - 5)
           (SystemMessage prompt :: rest)).
Qed.

(** A call of an assistant message of a well-formed list has its id among
    the tool messages of the list. *)
Lemma answers_ids (cs : list ToolCall) (l : list Message) (c : ToolCall) :
  answers cs l = true -> c ∈ cs -> tc_id c ∈ tool_ids l.
Proof.
  revert l. induction cs as [|c0 cs IH]; intros l H Hin.
  - apply elem_of_nil in Hin. destruct Hin.
  - destruct l as [|m0 l]; [discriminate |].
    destruct m0; try discriminate. cbn in H |- *.
    apply andb_true_iff in H as [Hid Hrest].
    apply bool_decide_eq_true in Hid. subst tool_call_id.
    apply elem_of_cons in Hin as [-> | Hin]; [left | right; apply IH; assumption].
Qed.

Lemma answered_ids (l : list Message) (m : AssistantMessage) (c : ToolCall) :
  answered l = true ->
  AssistantMsg m ∈ l -> c ∈ tool_calls_of m -> tc_id c ∈ tool_ids l.
Proof.
  induction l as [|m0 l IH]; intros H Hm Hc.
  - apply elem_of_nil in Hm. destruct Hm.
  - apply elem_of_cons in Hm as [<- | Hm].
    + cbn in H |- *. apply andb_true_iff in H as [Hblock _].
      eapply answers_ids; eassumption.
    + pose proof (IH (answered_tail _ _ H) Hm Hc) as Hin.
      destruct m0; cbn; try exact Hin. right. exact Hin.
Qed.

Lemma filter_absent (ids : list jsstring) (id : jsstring) :
  id ∉ ids -> filter (fun i => i = id) ids = [].
Proof.
  induction ids as [|i ids IH]; intros Hout; [reflexivity |].
  apply not_elem_of_cons in Hout as [Hne Hout].
  rewrite filter_cons_False by congruence. apply IH, Hout.
Qed.

Lemma count_in_NoDup (ids : list jsstring) (id : jsstring) :
  NoDup ids -> id ∈ ids -> length (filter (fun i => i = id) ids) = 1%nat.
Proof.
  induction 1 as [|i ids Hnot Hnd IH]; intros Hin.
  - apply elem_of_nil in Hin. destruct Hin.
  - apply elem_of_cons in Hin as [-> | Hin].
    + rewrite filter_cons_True by reflexivity.
      rewrite (filter_absent _ _ Hnot). reflexivity.
    + rewrite filter_cons_False; [apply IH, Hin |].
      intros ->. exact (Hnot Hin).
Qed.

(** *** The rounds *)

Ltac round_cases w M :=
  let w1 := fresh "w1" in
  let Hchat := fresh "Hchat" in
  let Hcalls := fresh "Hcalls" in
  let Hd := fresh "Hd" in
  cbn [rounds];
  destruct (chat_create w (budgetConversation M))
    as [w1 [?msg | | ?message]] eqn:Hchat;
  [ | | destruct (am_tool_calls message) as [[|?c ?cs]|] eqn:Hcalls;
        [ | destruct (dispatch_calls w1
                        (budgetConversation M ++ [AssistantMsg message]) (c :: cs))
              as [[?w2 ?M2] [?e|]] eqn:Hd | ] ];
  cbn [sent got stop requests received outcome history final_world].

(** Every list sent to the reasoning service is well formed. *)
Lemma rounds_requests_answered (n : nat) (o r : jsstring) (w : World)
    (M : list Message) :
  starts_with_system M -> answered M = true ->
  Forall (fun request => answered request = true) (requests (loop n o r w M)).
Proof.
  revert w M. induction n as [|n IH]; intros w M Hsys HM; [constructor |].
  pose proof (answered_budgetConversation M Hsys HM) as HL.
  pose proof (starts_with_system_budgetConversation M Hsys) as HsysL.
  round_cases w M; constructor; try exact HL; try constructor.
  destruct (dispatch_completes _ _ _ _ _ Hd) as (replies & -> & Hall).
  apply IH.
  - rewrite <- app_assoc. apply starts_with_system_app, HsysL.
  - eapply answered_round; [exact HL | | exact Hall].
    unfold tool_calls_of. rewrite Hcalls. reflexivity.
Qed.

(** The ids carried by the tool messages of a request were emitted by the
    service earlier in the run, each carried at most as often as it was
    emitted. *)
Lemma rounds_requests_ids (n : nat) (o r : jsstring) (w : World)
    (M : list Message) (earlier : list jsstring) :
  starts_with_system M ->
  tool_ids M `sublist_of` earlier ->
  Forall (fun request =>
            tool_ids request `sublist_of`
              (earlier ++ emitted_ids (received (loop n o r w M))))
         (requests (loop n o r w M)).
Proof.
  revert w M earlier. induction n as [|n IH]; intros w M earlier Hsys HM;
    [constructor |].
  assert (HL : tool_ids (budgetConversation M) `sublist_of` earlier).
  { etransitivity; [apply tool_ids_budgetConversation, Hsys | exact HM]. }
  pose proof (starts_with_system_budgetConversation M Hsys) as HsysL.
  round_cases w M; constructor;
    try (apply sublist_inserts_r; exact HL); try constructor.
  - destruct (dispatch_completes _ _ _ _ _ Hd) as (replies & -> & Hall).
    change (emitted_ids (message :: ?k))
      with (map tc_id (tool_calls_of message) ++ emitted_ids k).
    rewrite app_assoc. apply IH.
    + rewrite <- app_assoc. apply starts_with_system_app, HsysL.
    + rewrite !tool_ids_app, (tool_ids_of_replies _ _ Hall). cbn [tool_ids].
      rewrite app_nil_r. unfold tool_calls_of. rewrite Hcalls. cbn [default].
      apply sublist_app; [exact HL | reflexivity].
Qed.

Lemma initial_conversation (o r : jsstring) (sd ed : Date) :
  let M := [SystemMessage (buildSystemPrompt Date format_ymd o r sd ed);
            UserMessage (buildUserPrompt Date format_ymd o r sd ed)] in
  starts_with_system M /\ answered M = true /\ tool_ids M = [].
Proof. cbn. auto. Qed.


(** *** Termination *)

(** The loop sends at most [remaining] requests. *)
Lemma rounds_requests_bound (n : nat) (o r : jsstring) (w : World)
    (M : list Message) :
  (length (requests (loop n o r w M)) <= n)%nat.
Proof.
  revert w M. induction n as [|n IH]; intros w M; [reflexivity |].
  round_cases w M; cbn [length]; try lia.
  specialize (IH w2 M2). lia.
Qed.

(** No summarization sends more than twenty requests. *)
Lemma summarizeRepo_rounds_bound (o r : jsstring) (sd ed : Date) (w : World) :
  (length (requests (summarize o r sd ed w)) <= 20)%nat.
Proof. apply (rounds_requests_bound maxIterations). Qed.

(** A response without tool calls ends the loop in that round: the final
    text goes to the extractor and no further request is sent. *)
Lemma round_without_tool_calls (n : nat) (o r : jsstring) (w w' : World)
    (M : list Message) (message : AssistantMessage) :
  chat_create w (budgetConversation M) = (w', ChatMessage message) ->
  tool_calls_of message = [] ->
  loop (S n) o r w M =
    mkRun w' [budgetConversation M] [message]
      (budgetConversation M ++ [AssistantMsg message])
      (Normal (parseSummaryFromMessage (nullable_or (am_content message) []) o r)).
Proof.
  intros Hchat Hcalls. cbn [rounds]. rewrite Hchat.
  unfold tool_calls_of in Hcalls.
  destruct (am_tool_calls message) as [[|c cs]|]; [| discriminate |]; reflexivity.
Qed.

(** Against such a service the loop runs all its rounds and ends with the
    error of the exhausted cap. *)
Lemma rounds_exhaust (n : nat) (o r : jsstring) (w : World) (M : list Message) :
  always_requests_tools chat_create ->
  outcome (loop n o r w M) = Throw (Error_ max_iterations_message) /\
  length (requests (loop n o r w M)) = n.
Proof.
  intros Hsvc. revert w M. induction n as [|n IH]; intros w M; [split; reflexivity |].
  destruct (Hsvc w (budgetConversation M)) as (w' & message & c & cs & Hchat & Hcalls & Hp).
  destruct (dispatch_total (c :: cs) w' (budgetConversation M ++ [AssistantMsg message]) Hp)
    as (w2 & M2 & Hd).
  cbn [rounds]. rewrite Hchat, Hcalls, Hd.
  cbn [sent got stop requests outcome length].
  destruct (IH w2 M2) as [Hout Hlen]. rewrite Hout, Hlen. split; reflexivity.
Qed.

Lemma summarizeRepo_exhausts (o r : jsstring) (sd ed : Date) (w : World) :
  always_requests_tools chat_create ->
  outcome (summarize o r sd ed w) = Throw (Error_ max_iterations_message) /\
  length (requests (summarize o r sd ed w)) = 20%nat.
Proof. intros Hsvc. apply (rounds_exhaust maxIterations), Hsvc. Qed.

(** The loop ends by one of four exits. *)
Lemma rounds_outcome (n : nat) (o r : jsstring) (w : World) (M : list Message) :
  (exists content, outcome (loop n o r w M) = Normal (parseSummaryFromMessage content o r)) \/
  outcome (loop n o r w M) = Throw (Error_ max_iterations_message) \/
  outcome (loop n o r w M) = Throw (Error_ no_response_message) \/
  (exists m, outcome (loop n o r w M) = Throw (Error_ m)) \/
  (exists text, JSON_parse text = None /\
                outcome (loop n o r w M) = Throw (SyntaxError_ text)).
Proof.
  revert w M. induction n as [|n IH]; intros w M; [right; left; reflexivity |].
  round_cases w M; eauto 6.
  destruct (dispatch_aborts _ _ _ _ _ _ Hd)
    as (before & c' & after & replies & _ & Hp & -> & _).
  do 4 right. eexists. split; [| reflexivity].
  unfold arguments_parse in Hp. apply bool_decide_eq_false in Hp.
  destruct (JSON_parse _); [exfalso; apply Hp; eauto | reflexivity].
Qed.

(** C10: a summary that is returned carries the owner and the repository
    name of the call, whatever the final message says. *)
Theorem summary_names_come_from_the_call
    (o r : jsstring) (sd ed : Date) (w : World) (summary : RepoSummary) :
  outcome (summarize o r sd ed w) = Normal summary ->
  owner summary = o /\ repoName summary = r /\
  exists content, summary = parseSummaryFromMessage content o r.
Proof.
  unfold summarizeRepo. intros H.
  destruct (rounds_outcome maxIterations o r w
              [SystemMessage (buildSystemPrompt Date format_ymd o r sd ed);
               UserMessage (buildUserPrompt Date format_ymd o r sd ed)])
    as [[content Hc] | [Hx | [Hx | [[m Hx] | [text [_ Hx]]]]]];
    rewrite H in *; try discriminate.
  injection Hc as ->.
  destruct (parseSummaryFromMessage_names content o r) as [Ho Hr].
  split; [exact Ho |]. split; [exact Hr |]. eauto.
Qed.

End AgentFacts.

(** ** The program on concrete services *)

Section Runs.

Import Scenario.


(** The second request of that run: the rejected listing and the diff are
    both answered, each under the id of its call. *)
Example two_round_second_request :
  map tool_ids (requests (run two_round_service flaky_host online))
  = [[]; [js "call_1"; js "call_2"]].
Proof. vm_compute. reflexivity. Qed.

(** C3 on the code: a tool call whose payload is cut off ends the
    summarization with the [SyntaxError] of [JSON.parse]; the call is never
    answered and no second request is sent. *)
Theorem malformed_arguments_abort_the_run :
  outcome (run malformed_service (host (js "[]")) online)
    = Throw (SyntaxError_ (js "{")) /\
  tool_ids (history (run malformed_service (host (js "[]")) online)) = [] /\
  length (requests (run malformed_service (host (js "[]")) online)) = 1%nat.
Proof. vm_compute. repeat split; reflexivity. Qed.

(** C2 on the code: against a service that requests a tool call in every
    response the loop does not reach the cap when a payload is cut off; it
    ends in the first round with a [SyntaxError], not with the error of
    the exhausted cap. *)
Theorem malformed_arguments_preempt_the_cap :
  (forall w messages, exists w' message c cs,
      malformed_service w messages = (w', ChatMessage message) /\
      am_tool_calls message = Some (c :: cs)) /\
  outcome (run malformed_service (host (js "[]")) online)
    <> Throw (Error_ max_iterations_message) /\
  length (requests (run malformed_service (host (js "[]")) online)) = 1%nat.
Proof.
  split; [intros w messages; do 4 eexists; split; reflexivity |].
  split; [vm_compute; discriminate | vm_compute; reflexivity].
Qed.

(** With payloads that parse the same loop runs its twenty rounds. *)
Example insistent_service_exhausts :
  outcome (run insistent_service (host (js "[]")) online)
    = Throw (Error_ max_iterations_message) /\
  length (requests (run insistent_service (host (js "[]")) online)) = 20%nat.
Proof.
  assert (Hsvc : always_requests_tools insistent_service).
  { intros w messages. do 4 eexists.
    split; [reflexivity |]. split; [reflexivity |].
    constructor; [reflexivity | constructor]. }
  exact (summarizeRepo_exhausts insistent_service (host (js "[]"))
           stringify_segment syntax_error_message format_ymd online
           (js "acme") (js "api") (js "2024-01-08") (js "2024-01-15") 0%nat Hsvc).
Qed.

Lemma summary_names_come_from_the_call_witness :
  let summary :=
    mkSummary (js "api") (js "acme") (JStr (js "ok")) (JArr []) (JArr []) in
  outcome (run two_round_service flaky_host online) = Normal summary /\
  owner summary = js "acme" /\ repoName summary = js "api".
Proof.
  intros summary.
  assert (Hrun : outcome (run two_round_service flaky_host online) = Normal summary)
    by (vm_compute; reflexivity).
  split; [exact Hrun |].
  destruct (summary_names_come_from_the_call two_round_service flaky_host
              stringify_segment syntax_error_message format_ymd online
              (js "acme") (js "api") (js "2024-01-08") (js "2024-01-15") 0%nat
              summary Hrun)
    as (Ho & Hr & _).
  split; [exact Ho | exact Hr].
Defined.

End Runs.

(** * Further properties *)

(** ** The loop, continued *)

Section LoopFacts.

Context {World : Type}.
Context (chat_create : World -> list Message -> World * ChatReply).
Context (sdk_callTool : World -> jsstring -> list (jsstring * json) -> World * SdkReply).
Context (stringify_segment : Segment -> jsstring).
Context (syntax_error_message : jsstring -> jsstring).
Context {Date : Type} (format_ymd : Date -> jsstring).
Context (mcpClient : GitHubMCPClient).

Local Abbreviation handle' :=
  (handleToolCall World sdk_callTool stringify_segment syntax_error_message mcpClient).
Local Abbreviation dispatch' :=
  (dispatch World sdk_callTool stringify_segment syntax_error_message mcpClient).
Local Abbreviation loop' :=
  (rounds World chat_create sdk_callTool stringify_segment syntax_error_message mcpClient).
Local Abbreviation summarize' :=
  (summarizeRepo World chat_create sdk_callTool stringify_segment syntax_error_message
     Date format_ymd mcpClient).

Ltac one_round w M :=
  let w1 := fresh "w1" in
  let Hchat := fresh "Hchat" in
  let Hcalls := fresh "Hcalls" in
  let Hd := fresh "Hd" in
  cbn [rounds];
  destruct (chat_create w (budgetConversation M))
    as [w1 [?msg | | ?message]] eqn:Hchat;
  [ | | destruct (am_tool_calls message) as [[|?c ?cs]|] eqn:Hcalls;
        [ | destruct (dispatch' w1
                        (budgetConversation M ++ [AssistantMsg message]) (c :: cs))
              as [[?w2 ?M2] [?e|]] eqn:Hd | ] ];
  cbn [sent got stop requests received outcome history final_world].

Lemma head_budgetConversation (l : list Message) :
  head (budgetConversation l) = head l.
Proof.
  unfold budgetConversation.
  destruct (totalMessageSize l >? MAX_TOTAL_MESSAGE_TOKENS); [| reflexivity].
  destruct l; reflexivity.
Qed.

Lemma head_app_nonempty (l k : list Message) (m : Message) :
  head l = Some m -> head (l ++ k) = Some m.
Proof. destruct l; [discriminate | intros H; exact H]. Qed.

Lemma rounds_requests_head (n : nat) (o r : jsstring) (w : World)
    (M : list Message) (first : Message) :
  head M = Some first ->
  Forall (fun request => head request = Some first) (requests (loop' n o r w M)).
Proof.
  revert w M. induction n as [|n IH]; intros w M HM; [constructor |].
  assert (HL : head (budgetConversation M) = Some first)
    by (rewrite head_budgetConversation; exact HM).
  one_round w M; constructor; try exact HL; try constructor.
  destruct (dispatch_completes sdk_callTool stringify_segment syntax_error_message
              mcpClient _ _ _ _ _ Hd) as (replies & -> & _).
  apply IH. rewrite <- app_assoc. apply head_app_nonempty, HL.
Qed.

(** Every list sent to the reasoning service starts with the system
    prompt of the call: pruning never drops it. *)
Theorem every_request_starts_with_the_system_prompt
    (o r : jsstring) (sd ed : Date) (w : World) :
  Forall (fun request =>
            head request
            = Some (SystemMessage (buildSystemPrompt Date format_ymd o r sd ed)))
         (requests (summarize' o r sd ed w)).
Proof. apply (rounds_requests_head maxIterations). reflexivity. Qed.

(** The first list sent is the system prompt and the user prompt, unless
    the two together are over the ceiling. *)
Lemma first_request (o r : jsstring) (sd ed : Date) (w : World) :
  head (requests (summarize' o r sd ed w))
  = Some (budgetConversation
            [SystemMessage (buildSystemPrompt Date format_ymd o r sd ed);
             UserMessage (buildUserPrompt Date format_ymd o r sd ed)]).
Proof.
  unfold summarizeRepo, maxIterations.
  one_round w [SystemMessage (buildSystemPrompt Date format_ymd o r sd ed);
               UserMessage (buildUserPrompt Date format_ymd o r sd ed)];
    reflexivity.
Qed.

(** The budget of a tool result is one of the two ceilings. *)
Lemma result_budget_cases (toolName : jsstring) :
  result_budget toolName = 5000 \/ result_budget toolName = 10000.
Proof.
  unfold result_budget.
  destruct (includes toolName (js "diff") || includes toolName (js "files"));
    [left | right]; reflexivity.
Qed.

Lemma truncateContent_nonempty (t : jsstring) (b : Z) :
  t <> [] -> truncateContent t b <> [].
Proof.
  intros Ht. unfold truncateContent.
  destruct (estimateTokens t <=? b); [exact Ht |].
  intros H. apply (f_equal (@length N)) in H.
  rewrite length_app in H. cbn in H. lia.
Qed.

Lemma truncateContent_length_bound (t : jsstring) (b : Z) :
  0 <= b -> strlen (truncateContent t b) <= 4 * b + 43.
Proof.
  intros Hb. destruct (Z.le_gt_cases (estimateTokens t) b) as [Hle | Hgt].
  - rewrite truncateContent_within by exact Hle.
    pose proof (estimateTokens_ceil t). lia.
  - rewrite truncateContent_over_length by lia. lia.
Qed.

(** The tool message of a successful invocation is bounded: when the text
    joined from the segments is not empty, the content pushed holds at
    most [4 * budget + 43] characters, that is 20043 for a tool whose name
    includes [diff] or [files] and 40043 for any other. *)
Theorem successful_tool_result_is_bounded (toolCall : ToolCall)
    (result : MCPToolResult) :
  joined_text stringify_segment result <> [] ->
  exists text,
    success_message stringify_segment toolCall result
      = ToolMessage (tc_id toolCall) text /\
    text = truncateContent (joined_text stringify_segment result)
             (result_budget (tc_name toolCall)) /\
    strlen text <= 4 * result_budget (tc_name toolCall) + 43 /\
    strlen text <= 40043 /\
    (includes (tc_name toolCall) (js "diff") || includes (tc_name toolCall) (js "files")
       = true -> strlen text <= 20043).
Proof.
  intros Hne. unfold success_message. fold (joined_text stringify_segment result).
  set (b := result_budget (tc_name toolCall)).
  set (text := truncateContent (joined_text stringify_segment result) b).
  assert (Htext : text <> []) by (apply truncateContent_nonempty, Hne).
  assert (Hb : 0 <= b) by (destruct (result_budget_cases (tc_name toolCall)); subst b; lia).
  pose proof (truncateContent_length_bound (joined_text stringify_segment result) b Hb)
    as Hlen. fold text in Hlen.
  exists text. split.
  - unfold str_or. destruct text; [congruence | reflexivity].
  - split; [reflexivity |]. split; [exact Hlen |]. split.
    + destruct (result_budget_cases (tc_name toolCall)); subst b; lia.
    + intros Hdiff. subst b. unfold result_budget in Hlen. rewrite Hdiff in Hlen.
      unfold MAX_TOOL_RESULT_TOKENS in Hlen. lia.
Qed.

(** The loop with any number of rounds left. *)
Lemma rounds_survive_the_host (n : nat) (o r : jsstring) (w : World)
    (M : list Message) :
  well_behaved chat_create ->
  (exists content,
     outcome (loop' n o r w M) = Normal (parseSummaryFromMessage content o r)) \/
  outcome (loop' n o r w M) = Throw (Error_ max_iterations_message).
Proof.
  intros Hsvc. revert w M. induction n as [|n IH]; intros w M; [right; reflexivity |].
  destruct (Hsvc w (budgetConversation M)) as (w' & message & Hchat & Hp).
  cbn [rounds]. rewrite Hchat.
  unfold tool_calls_of in Hp.
  destruct (am_tool_calls message) as [[|c cs]|] eqn:Hcalls;
    cbn [sent got stop outcome]; eauto.
  cbn [default] in Hp.
  destruct (dispatch_total sdk_callTool stringify_segment syntax_error_message mcpClient
              (c :: cs) w' (budgetConversation M ++ [AssistantMsg message]) Hp)
    as (w2 & M2 & Hd).
  rewrite Hd. cbn [sent got stop outcome]. apply IH.
Qed.

(** Against a reasoning service that always answers and whose payloads
    parse, a summarization ends with a summary or with the error of the
    exhausted cap, whatever the capability host does and whether or not
    the adapter is connected. *)
Theorem host_failures_never_end_a_summarization
    (o r : jsstring) (sd ed : Date) (w : World) :
  well_behaved chat_create ->
  (exists content,
     outcome (summarize' o r sd ed w) = Normal (parseSummaryFromMessage content o r)) \/
  outcome (summarize' o r sd ed w) = Throw (Error_ max_iterations_message).
Proof. intros Hsvc. apply (rounds_survive_the_host maxIterations), Hsvc. Qed.

(** At most as many messages come back as lists are sent, and a run that
    returns a summary has received one message per request. *)
Lemma rounds_received_bound (n : nat) (o r : jsstring) (w : World) (M : list Message) :
  (length (received (loop' n o r w M)) <= length (requests (loop' n o r w M)))%nat.
Proof.
  revert w M. induction n as [|n IH]; intros w M; [reflexivity |].
  one_round w M; cbn [length]; try lia.
  specialize (IH w2 M2). lia.
Qed.

(** A summarization sends at most twenty lists to the reasoning service
    and receives at most one message for each. *)
Theorem summarization_is_bounded (o r : jsstring) (sd ed : Date) (w : World) :
  (length (received (summarize' o r sd ed w))
   <= length (requests (summarize' o r sd ed w)) <= 20)%nat.
Proof.
  split.
  - apply (rounds_received_bound maxIterations).
  - apply (rounds_requests_bound chat_create sdk_callTool stringify_segment
             syntax_error_message mcpClient maxIterations).
Qed.

(** Against a reasoning service that requests a tool call, with a payload
    that parses, in every response, a summarization sends exactly twenty
    lists and ends with the error of the exhausted cap. *)
Theorem tool_hungry_service_exhausts_the_cap
    (o r : jsstring) (sd ed : Date) (w : World) :
  always_requests_tools chat_create ->
  outcome (summarize' o r sd ed w) = Throw (Error_ max_iterations_message) /\
  length (requests (summarize' o r sd ed w)) = 20%nat.
Proof.
  intros Hsvc.
  apply (rounds_exhaust chat_create sdk_callTool stringify_segment
           syntax_error_message mcpClient maxIterations), Hsvc.
Qed.

(** In any round, a response without tool calls ends the loop: the final
    text, or the empty text for a [null] content, goes to the extractor,
    the response is the last message of the history and nothing further
    is sent. *)
Theorem response_without_tool_calls_ends_the_loop (n : nat) (o r : jsstring)
    (w w' : World) (M : list Message) (message : AssistantMessage) :
  chat_create w (budgetConversation M) = (w', ChatMessage message) ->
  tool_calls_of message = [] ->
  loop' (S n) o r w M =
    mkRun w' [budgetConversation M] [message]
      (budgetConversation M ++ [AssistantMsg message])
      (Normal (parseSummaryFromMessage (nullable_or (am_content message) []) o r)).
Proof.
  intros Hchat Hcalls. cbn [rounds]. rewrite Hchat.
  unfold tool_calls_of in Hcalls.
  destruct (am_tool_calls message) as [[|c cs]|]; [| discriminate |]; reflexivity.
Qed.

(** A response that is missing altogether, or a request the service
    rejects, ends the summarization with an error in that round. *)
Lemma round_without_response (n : nat) (o r : jsstring) (w w' : World)
    (M : list Message) :
  chat_create w (budgetConversation M) = (w', ChatNoMessage) ->
  loop' (S n) o r w M =
    mkRun w' [budgetConversation M] [] (budgetConversation M)
      (Throw (Error_ no_response_message)).
Proof. intros Hchat. cbn [rounds]. rewrite Hchat. reflexivity. Qed.

(** On an adapter that is not connected a tool call whose payload parses
    is answered with the text of the adapter's error, and the capability
    host is not contacted. *)
Theorem offline_adapter_answers_with_its_error (w : World) (c : ToolCall) :
  connected mcpClient = false ->
  arguments_parse c = true ->
  handle' w c =
    (w, Normal (ToolMessage (tc_id c) (js "Error: MCP client not connected"))).
Proof.
  intros Hoff Hp. unfold arguments_parse in Hp. apply bool_decide_eq_true in Hp.
  destruct Hp as [toolArgs Hparse].
  unfold handleToolCall, callTool. rewrite Hparse, Hoff. reflexivity.
Qed.

(** A host failure is fed back under the id of the call, as the serialized
    error envelope of the adapter. *)
Theorem rejected_invocation_is_fed_back (w w' : World) (c : ToolCall)
    (toolArgs : json) (message : jsstring) :
  connected mcpClient = true ->
  JSON_parse (str_or (tc_arguments c) (js "{}")) = Some toolArgs ->
  sdk_callTool w (mapToolNameAndArgs (tc_name c) toolArgs).1
                 (mapToolNameAndArgs (tc_name c) toolArgs).2 = (w', SdkRejected message) ->
  handle' w c =
    (w', Normal (ToolMessage (tc_id c)
       (js "[" ++
        stringify_segment
          (mkSegment (js "text")
             (Some (js "Error calling tool " ++ tc_name c ++ js ": " ++ message)) [])
        ++ js "]"))).
Proof.
  intros Hon Hparse Hsdk. unfold handleToolCall, callTool.
  rewrite Hparse, Hon. cbn [negb].
  destruct (mapToolNameAndArgs (tc_name c) toolArgs) as [name adjusted].
  cbn [fst snd] in Hsdk. rewrite Hsdk. reflexivity.
Qed.

End LoopFacts.

(** ** The budgeter, continued *)

Section BudgetMore.

(** The estimate is the number of characters divided by four, rounded up;
    it grows with the length of the text. *)
Theorem estimateTokens_is_a_ceiling (s t : jsstring) :
  4 * (estimateTokens s - 1) < strlen s <= 4 * estimateTokens s /\
  (strlen s <= strlen t -> estimateTokens s <= estimateTokens t).
Proof. split; [apply estimateTokens_ceil | apply estimateTokens_mono]. Qed.

Lemma estimateTokens_is_a_ceiling_witness :
  estimateTokens (js "hello") <= estimateTokens (js "hello world").
Proof.
  apply (proj2 (estimateTokens_is_a_ceiling (js "hello") (js "hello world"))).
  vm_compute. discriminate.
Defined.

(** A text cut to a budget that is not negative is estimated at no more
    than the budget plus the eleven tokens of the marker, and at exactly
    that when it was cut. *)
Theorem truncated_text_exceeds_budget_by_marker (t : jsstring) (b : Z) :
  0 <= b ->
  estimateTokens (truncateContent t b) <= b + 11 /\
  (b < estimateTokens t -> estimateTokens (truncateContent t b) = b + 11).
Proof.
  intros Hb. split.
  - destruct (Z.le_gt_cases (estimateTokens t) b) as [Hle | Hgt].
    + rewrite truncateContent_within by exact Hle. lia.
    + pose proof (truncateContent_over_length t b ltac:(lia)) as Hlen.
      pose proof (estimateTokens_ceil (truncateContent t b)). lia.
  - intros Hgt.
    pose proof (truncateContent_over_length t b Hgt) as Hlen.
    pose proof (estimateTokens_ceil (truncateContent t b)). lia.
Qed.

Lemma truncated_text_exceeds_budget_by_marker_witness :
  estimateTokens (truncateContent (js "hello") 1) = 12.
Proof.
  apply (proj2 (truncated_text_exceeds_budget_by_marker (js "hello") 1 ltac:(lia))).
  reflexivity.
Defined.

(** A list of six messages or more that is over the ceiling is pruned to
    six messages, message 0 and the last five, and its summed estimate
    does not grow. *)
Theorem long_history_is_pruned_to_six (messages : list Message) :
  (6 <= length messages)%nat ->
  totalMessageSize messages > MAX_TOTAL_MESSAGE_TOKENS ->
  exists systemMsg,
    messages !! 0%nat = Some systemMsg /\
    budgetConversation messages
      = systemMsg :: drop (length messages - 5) messages /\
    length (budgetConversation messages) = 6%nat /\
    totalMessageSize (budgetConversation messages) <= totalMessageSize messages.
Proof.
  intros Hlen Hover. rewrite budgetConversation_over by exact Hover.
  destruct messages as [|m0 rest]; [cbn in Hlen; lia |].
  exists m0. split; [reflexivity |]. split; [reflexivity |]. split.
  - unfold prune, slice_last. cbn [length] in *. rewrite length_drop. cbn [length]. lia.
  - apply prune_size_le. exact Hlen.
Qed.

Lemma long_history_is_pruned_to_six_witness :
  length (budgetConversation Scenario.long_history) = 6%nat.
Proof.
  destruct (long_history_is_pruned_to_six Scenario.long_history)
    as (m0 & _ & _ & Hlen & _).
  - unfold Scenario.long_history. cbn [length]. lia.
  - vm_compute. reflexivity.
  - exact Hlen.
Defined.

(** Pruning does not bring every list under the ceiling: five large
    results survive it. *)
Example pruned_list_can_stay_over_the_ceiling :
  totalMessageSize (budgetConversation Scenario.long_history) = 30037.
Proof. vm_compute. reflexivity. Qed.

End BudgetMore.

(** ** The extractor, continued *)

Section ExtractorMore.

Lemma from_first_app (c : N) (pre rest : jsstring) :
  c ∉ pre -> from_first c (pre ++ c :: rest) = Some (c :: rest).
Proof.
  induction pre as [|d pre IH]; intros Hout; cbn.
  - rewrite N.eqb_refl. reflexivity.
  - apply not_elem_of_cons in Hout as [Hne Hout].
    destruct (N.eqb_spec d c) as [-> | _]; [congruence | apply IH, Hout].
Qed.

Lemma upto_last_app (c : N) (p post : jsstring) :
  c ∉ post -> upto_last c ((p ++ [c]) ++ post) = Some (p ++ [c]).
Proof.
  intros Hout. induction p as [|d p IH]; cbn.
  - apply upto_last_None in Hout. rewrite Hout, N.eqb_refl. reflexivity.
  - cbn in IH. rewrite IH. reflexivity.
Qed.

(** What the regular expression hands to [JSON.parse]: the text from the
    first opening brace to the last closing brace behind it, and nothing
    when no closing brace follows the first opening one. *)
Theorem regex_spans_first_to_last_brace (content text : jsstring) :
  jsonMatch content = Some text <->
  exists pre body post,
    content = pre ++ text ++ post /\
    text = 123%N :: body ++ [125%N] /\
    (123%N ∉ pre) /\ (125%N ∉ post).
Proof.
  split; [apply jsonMatch_Some |].
  intros (pre & body & post & -> & -> & Hpre & Hpost).
  unfold jsonMatch. cbn [app].
  rewrite (from_first_app _ _ _ Hpre). cbn [mbind option_bind].
  change (123%N :: (body ++ [125%N]) ++ post)
    with (((123%N :: body) ++ [125%N]) ++ post).
  apply upto_last_app, Hpost.
Qed.

Lemma or_default_truthy (x : option json) (d : json) :
  truthy d = true -> truthy (or_default x d) = true.
Proof.
  intros Hd. unfold or_default. destruct x as [v|]; [| exact Hd].
  destruct (truthy v) eqn:Hv; [exact Hv | exact Hd].
Qed.

Lemma decoded_fields (parsed : json) (o r : jsstring) (s : RepoSummary) :
  decoded parsed o r = Some s ->
  truthy (overallSummary s) = true /\
  truthy (pullRequests s) = true /\
  truthy (breakingChanges s) = true.
Proof.
  unfold decoded. intros H.
  destruct (get_field parsed (js "overallSummary")) as [a|]; [| discriminate].
  destruct (get_field parsed (js "pullRequests")) as [b|]; [| discriminate].
  destruct (get_field parsed (js "breakingChanges")) as [c|]; [| discriminate].
  cbn in H. injection H as <-. cbn [overallSummary pullRequests breakingChanges].
  repeat split; apply or_default_truthy; reflexivity.
Qed.

(** Whatever the final text, no field of the summary returned is a falsy
    value: the narrative is never the empty string or [null], and the two
    lists are never missing. *)
Theorem summary_fields_are_never_falsy (content o r : jsstring) :
  truthy (overallSummary (parseSummaryFromMessage content o r)) = true /\
  truthy (pullRequests (parseSummaryFromMessage content o r)) = true /\
  truthy (breakingChanges (parseSummaryFromMessage content o r)) = true.
Proof.
  assert (Hfb : truthy (overallSummary (fallback content o r)) = true /\
                truthy (pullRequests (fallback content o r)) = true /\
                truthy (breakingChanges (fallback content o r)) = true).
  { unfold fallback, str_or. cbn. destruct content; repeat split; reflexivity. }
  unfold parseSummaryFromMessage, try_block.
  destruct (jsonMatch content) as [text|]; [| exact Hfb].
  destruct (JSON_parse text) as [parsed|]; [| exact Hfb]. cbn.
  destruct (decoded parsed o r) as [s|] eqn:Hs; [| exact Hfb].
  cbn. eapply decoded_fields, Hs.
Qed.

(** The fields are not checked against the shape of a summary: a truthy
    member is returned as it is, whatever its type. *)
Example pull_requests_can_be_text :
  pullRequests
    (parseSummaryFromMessage (js "{`pullRequests`:`none this week`}") (js "acme") (js "api"))
  = JStr (js "none this week").
Proof. reflexivity. Qed.

End ExtractorMore.

(** ** The adapter, continued *)

Section AdapterFacts.

Lemma lookup_member_assign_other (members : list (jsstring * json))
    (key name : jsstring) (v : json) :
  key <> name ->
  lookup_member key (assign members name v) = lookup_member key members.
Proof.
  intros Hne. unfold assign. induction members as [|[k x] members IH]; cbn.
  - unfold str_eqb. rewrite bool_decide_eq_false_2 by congruence. reflexivity.
  - rewrite IH. reflexivity.
Qed.

Lemma lookup_member_assign_same (members : list (jsstring * json))
    (name : jsstring) (v : json) :
  lookup_member name (assign members name v) = Some v.
Proof.
  unfold assign. induction members as [|[k x] members IH]; cbn.
  - unfold str_eqb. rewrite bool_decide_eq_true_2 by reflexivity. reflexivity.
  - rewrite IH. reflexivity.
Qed.

Lemma declared_tool_cases (name : jsstring) (args : json) :
  name ∈ declared_tools ->
  mapToolNameAndArgs name args = (js "list_pull_requests", spread args) \/
  mapToolNameAndArgs name args = (js "list_commits", spread args) \/
  exists method,
    mapToolNameAndArgs name args
      = (js "pull_request_read", assign (spread args) (js "method") (JStr method)).
Proof.
  unfold declared_tools. intros Hin.
  repeat (apply elem_of_cons in Hin as [-> | Hin]).
  - left. reflexivity.
  - right. right. exists (js "get"). reflexivity.
  - right. right. exists (js "diff"). reflexivity.
  - right. right. exists (js "files"). reflexivity.
  - right. left. reflexivity.
  - apply elem_of_nil in Hin. destruct Hin.
Qed.

(** Each of the five tools declared to the reasoning service reaches one
    of three tools of the host, with every argument of the call except
    [method] as the caller gave it. *)
Theorem declared_tools_reach_the_host (name : jsstring) (args : json) :
  name ∈ declared_tools ->
  (mapToolNameAndArgs name args).1
    ∈ [js "list_pull_requests"; js "pull_request_read"; js "list_commits"] /\
  forall key, key <> js "method" ->
    lookup_member key (mapToolNameAndArgs name args).2
    = lookup_member key (spread args).
Proof.
  intros Hin.
  destruct (declared_tool_cases name args Hin)
    as [-> | [-> | (method & ->)]]; cbn [fst snd].
  - split; [repeat constructor | reflexivity].
  - split; [repeat constructor | reflexivity].
  - split; [repeat constructor |]. intros key Hkey.
    apply lookup_member_assign_other, Hkey.
Qed.

Lemma declared_tools_reach_the_host_witness :
  lookup_member (js "pullNumber")
    (mapToolNameAndArgs (js "mcp_GitHub_get_pull_request_files")
       (JObj [(js "pullNumber", JNum (mkNumber false 7 0))])).2
  = Some (JNum (mkNumber false 7 0)).
Proof.
  rewrite (proj2 (declared_tools_reach_the_host
                    (js "mcp_GitHub_get_pull_request_files")
                    (JObj [(js "pullNumber", JNum (mkNumber false 7 0))])
                    ltac:(unfold declared_tools; repeat constructor))
             (js "pullNumber") ltac:(discriminate)).
  reflexivity.
Defined.

(** For the three tools that read a pull request the adapter sets the
    [method] argument itself: a [method] passed by the caller is replaced. *)
Theorem read_tools_set_their_method (args : json) :
  lookup_member (js "method")
    (mapToolNameAndArgs (js "mcp_GitHub_get_pull_request") args).2
    = Some (JStr (js "get")) /\
  lookup_member (js "method")
    (mapToolNameAndArgs (js "mcp_GitHub_get_pull_request_diff") args).2
    = Some (JStr (js "diff")) /\
  lookup_member (js "method")
    (mapToolNameAndArgs (js "mcp_GitHub_get_pull_request_files") args).2
    = Some (JStr (js "files")).
Proof.
  repeat split;
    match goal with
    | |- lookup_member _ (mapToolNameAndArgs ?n _).2 = Some (JStr ?m) =>
        change (mapToolNameAndArgs n args)
          with (js "pull_request_read", assign (spread args) (js "method") (JStr m))
    end; apply lookup_member_assign_same.
Qed.

Lemma not_prefixed_ne (name : jsstring) (other : string) :
  startsWith name (js "mcp_GitHub_") = false ->
  startsWith (js other) (js "mcp_GitHub_") = true ->
  str_eqb name (js other) = false.
Proof.
  intros Hno Hyes. unfold str_eqb. apply bool_decide_eq_false_2.
  intros ->. congruence.
Qed.

Lemma includes_self (s : jsstring) : includes s s = true.
Proof.
  assert (Hp : forall t : jsstring, startsWith t t = true).
  { induction t as [|c t IH]; [reflexivity |]. cbn. rewrite N.eqb_refl. exact IH. }
  destruct s; cbn; [reflexivity |]. rewrite N.eqb_refl, Hp. reflexivity.
Qed.

(** A name that does not start with [mcp_GitHub_] and does not include
    [org_repo] goes to the host as it is, with the arguments as they
    are. *)
Theorem host_names_pass_through (name : jsstring) (args : json) :
  startsWith name (js "mcp_GitHub_") = false ->
  includes name (js "org_repo") = false ->
  mapToolNameAndArgs name args = (name, spread args).
Proof.
  intros Hpre Horg. unfold mapToolNameAndArgs.
  rewrite !(not_prefixed_ne name _ Hpre) by reflexivity.
  assert (Hlist : str_eqb name (js "list_org_repositories") = false).
  { unfold str_eqb. apply bool_decide_eq_false_2. intros ->.
    vm_compute in Horg. discriminate. }
  rewrite Hlist, Horg. cbn [orb]. unfold strip_prefix. rewrite Hpre. reflexivity.
Qed.

Lemma host_names_pass_through_witness :
  mapToolNameAndArgs (js "search_repositories") (JObj [(js "page", JNum (mkNumber false 1 0))])
  = (js "search_repositories", [(js "page", JNum (mkNumber false 1 0))]).
Proof.
  apply (host_names_pass_through (js "search_repositories")); reflexivity.
Defined.

(** The helper methods and the tool calls of the reasoning service ask
    the host for the same thing: the same tool with the same arguments.
    For [getPullRequest] this needs the parameters to carry no truthy
    [method], since the helper forwards one and the tool call does not. *)
Theorem helpers_and_tool_calls_agree (params : list (jsstring * json)) :
  mapToolNameAndArgs (js "list_pull_requests") (JObj params)
    = mapToolNameAndArgs (js "mcp_GitHub_list_pull_requests") (JObj params) /\
  mapToolNameAndArgs (js "list_commits") (JObj params)
    = mapToolNameAndArgs (js "mcp_GitHub_list_commits") (JObj params) /\
  mapToolNameAndArgs (js "pull_request_read")
      (JObj (with_method params (JStr (js "diff"))))
    = mapToolNameAndArgs (js "mcp_GitHub_get_pull_request_diff") (JObj params) /\
  mapToolNameAndArgs (js "pull_request_read")
      (JObj (with_method params (JStr (js "files"))))
    = mapToolNameAndArgs (js "mcp_GitHub_get_pull_request_files") (JObj params) /\
  (or_default (lookup_member (js "method") params) (JStr (js "get")) = JStr (js "get") ->
   mapToolNameAndArgs (js "pull_request_read")
       (JObj (with_method params
                (or_default (lookup_member (js "method") params) (JStr (js "get")))))
     = mapToolNameAndArgs (js "mcp_GitHub_get_pull_request") (JObj params)).
Proof.
  repeat split; try reflexivity.
  intros ->. reflexivity.
Qed.

Lemma helpers_and_tool_calls_agree_witness :
  mapToolNameAndArgs (js "pull_request_read")
      (JObj (with_method [(js "pullNumber", JNum (mkNumber false 7 0))]
               (or_default
                  (lookup_member (js "method") [(js "pullNumber", JNum (mkNumber false 7 0))])
                  (JStr (js "get")))))
  = mapToolNameAndArgs (js "mcp_GitHub_get_pull_request")
      (JObj [(js "pullNumber", JNum (mkNumber false 7 0))]).
Proof.
  apply (proj2 (proj2 (proj2 (proj2
           (helpers_and_tool_calls_agree [(js "pullNumber", JNum (mkNumber false 7 0))]))))).
  reflexivity.
Defined.

(** A helper call with its own [method] and the tool call differ. *)
Example getPullRequest_forwards_a_method :
  (mapToolNameAndArgs (js "pull_request_read")
     (JObj (with_method [(js "method", JStr (js "diff"))]
              (or_default (lookup_member (js "method") [(js "method", JStr (js "diff"))])
                          (JStr (js "get")))))).2
  = [(js "method", JStr (js "diff")); (js "method", JStr (js "diff"))] /\
  (mapToolNameAndArgs (js "mcp_GitHub_get_pull_request")
     (JObj [(js "method", JStr (js "diff"))])).2
  = [(js "method", JStr (js "diff")); (js "method", JStr (js "get"))].
Proof. split; reflexivity. Qed.

Context {World : Type}.
Context (sdk_callTool : World -> jsstring -> list (jsstring * json) -> World * SdkReply).
Context (sdk_connect : World -> World * option jsstring).
Context (sdk_listTools : World -> World).
Context (sdk_close : World -> World * option jsstring).

(** [disconnect()] is idempotent and harmless on an adapter that is not
    connected: once it has returned, a second call returns without
    contacting the host, and [callTool] throws from then on.  A [close]
    that fails leaves the adapter connected. *)
Theorem disconnect_is_idempotent (this : GitHubMCPClient) (w : World) :
  (connected this = false ->
   disconnect World sdk_close this w = (w, this, Normal tt)) /\
  (forall w1 this1,
     disconnect World sdk_close this w = (w1, this1, Normal tt) ->
     connected this1 = false /\
     disconnect World sdk_close this1 w1 = (w1, this1, Normal tt) /\
     forall name args,
       callTool World sdk_callTool this1 name args w1
       = (w1, Throw (Error_ not_connected))) /\
  (forall w1 this1 e,
     disconnect World sdk_close this w = (w1, this1, Throw e) ->
     this1 = this /\ connected this = true).
Proof.
  unfold disconnect. split; [intros ->; reflexivity |]. split.
  - intros w1 this1 H. destruct (connected this) eqn:Hc.
    + destruct (sdk_close w) as [w' [msg|]]; [discriminate |].
      injection H as <- <-. repeat split.
    + injection H as <- <-. rewrite Hc. repeat split.
      intros name args. unfold callTool. rewrite Hc. reflexivity.
  - intros w1 this1 e H. destruct (connected this) eqn:Hc; [| discriminate].
    destruct (sdk_close w) as [w' [msg|]]; [| discriminate].
    injection H as _ <- _. split; reflexivity.
Qed.

(** [connect()] stores the client object before it connects, so the
    adapter counts as connected even when [connect()] has thrown:
    [callTool] then goes to the host and returns an envelope. *)
Theorem connect_stores_the_client_first (this : GitHubMCPClient) (w : World)
    (name : jsstring) (args : json) :
  connected (connect World sdk_connect sdk_listTools this w).1.2 = true /\
  exists w' result,
    callTool World sdk_callTool
      (connect World sdk_connect sdk_listTools this w).1.2 name args
      (connect World sdk_connect sdk_listTools this w).1.1
    = (w', Normal result).
Proof.
  assert (Hc : connected (connect World sdk_connect sdk_listTools this w).1.2 = true).
  { unfold connect. destruct (sdk_connect w) as [w1 [msg|]]; [| reflexivity].
    destruct (includes msg (js "ENOENT") || includes msg (js "not found")); reflexivity. }
  split; [exact Hc |]. apply callTool_online, Hc.
Qed.

(** What [connect()] throws: the installation hint when the text of the
    failure includes [ENOENT] or [not found], the failure itself
    otherwise; a failure to list the tools is not an error. *)
Theorem connect_errors (this : GitHubMCPClient) (w : World) :
  (forall w1, sdk_connect w = (w1, None) ->
     connect World sdk_connect sdk_listTools this w
     = (sdk_listTools w1, mkClient true, Normal tt)) /\
  (forall w1 msg, sdk_connect w = (w1, Some msg) ->
     connect World sdk_connect sdk_listTools this w
     = (w1, mkClient true,
        Throw (Error_ (if includes msg (js "ENOENT") || includes msg (js "not found")
                       then server_not_found else msg)))).
Proof.
  unfold connect. split; intros w1; [intros -> | intros msg ->]; [reflexivity |].
  destruct (includes msg (js "ENOENT") || includes msg (js "not found")); reflexivity.
Qed.

End AdapterFacts.

(** ** Team grouping *)

Section TeamFacts.

Lemma falsy_name_or_unassigned (matchedTeam : option jsstring) :
  falsy_name matchedTeam -> nullable_or matchedTeam unassigned = unassigned.
Proof.
  unfold falsy_name. destruct matchedTeam as [[|c s]|]; cbn; [reflexivity | | reflexivity].
  discriminate.
Qed.

Lemma team_matches_false (cfg : TeamConfig) (n : jsstring) :
  team_matches cfg n = false ->
  exact_match cfg n = false /\
  match prefixes cfg with Some ps => prefix_match ps n = false | None => True end.
Proof.
  unfold team_matches. intros H. apply orb_false_iff in H as [He Hp].
  split; [exact He |]. destruct (prefixes cfg); [exact Hp | exact I].
Qed.

(** Teams that do not match are passed over. *)
Lemma scan_teams_skip (before rest : TeamsConfig) (n : jsstring)
    (matchedTeam : option jsstring) :
  falsy_name matchedTeam ->
  Forall (fun team => team_matches team.2 n = false) before ->
  scan_teams (before ++ rest) n matchedTeam = scan_teams rest n matchedTeam.
Proof.
  intros Hacc Hall. induction Hall as [|[t cfg] before Hno _ IH]; [reflexivity |].
  cbn [app scan_teams]. cbn [snd] in Hno.
  destruct (team_matches_false cfg n Hno) as [He Hp]. rewrite He.
  destruct (prefixes cfg) as [ps|]; [| exact IH].
  rewrite Hp. unfold falsy_name in Hacc. rewrite Hacc. exact IH.
Qed.

Lemma scan_teams_result (teams : TeamsConfig) (n : jsstring)
    (matchedTeam : option jsstring) :
  falsy_name matchedTeam ->
  falsy_name (scan_teams teams n matchedTeam) \/
  exists t cfg,
    scan_teams teams n matchedTeam = Some t /\ t <> [] /\
    (t, cfg) ∈ teams /\ team_matches cfg n = true.
Proof.
  revert matchedTeam. induction teams as [|[t cfg] teams IH]; intros acc Hacc.
  - left. exact Hacc.
  - cbn [scan_teams]. unfold team_matches.
    destruct (exact_match cfg n) eqn:He.
    + destruct t as [|c t].
      * left. reflexivity.
      * right. exists (c :: t), cfg. split; [reflexivity |]. split; [discriminate |].
        split; [left |]. cbn [snd]. unfold team_matches. rewrite He. reflexivity.
    + assert (Hrest : forall acc', falsy_name acc' ->
                falsy_name (scan_teams teams n acc') \/
                exists t' cfg', scan_teams teams n acc' = Some t' /\ t' <> [] /\
                  (t', cfg') ∈ (t, cfg) :: teams /\ team_matches cfg' n = true).
      { intros acc' Hacc'. destruct (IH acc' Hacc') as [Hf | (t' & cfg' & H1 & H2 & H3 & H4)];
          [left; exact Hf |].
        right. exists t', cfg'. repeat split; try assumption. right. exact H3. }
      destruct (prefixes cfg) as [ps|] eqn:Hps; [| apply Hrest, Hacc].
      destruct (prefix_match ps n) eqn:Hp.
      * destruct t as [|c t]; cbn.
        -- apply Hrest. reflexivity.
        -- right. exists (c :: t), cfg. split; [reflexivity |]. split; [discriminate |].
           split; [left |]. unfold team_matches. rewrite He, Hps, Hp. reflexivity.
      * unfold falsy_name in Hacc. rewrite Hacc. apply Hrest, Hacc.
Qed.

(** The team a repository is assigned to is never the empty name: it is
    [Unassigned], or the name, not empty, of a configured team that
    matches the repository by an exact name or by a prefix. *)
Theorem assigned_team_matches_or_is_unassigned (teams : TeamsConfig) (n : jsstring) :
  assignedTeam teams n <> [] /\
  (assignedTeam teams n = unassigned \/
   exists cfg, (assignedTeam teams n, cfg) ∈ teams /\ team_matches cfg n = true).
Proof.
  unfold assignedTeam.
  destruct (scan_teams_result teams n None eq_refl) as [Hf | (t & cfg & -> & Hne & Hin & Hm)].
  - rewrite (falsy_name_or_unassigned _ Hf). split; [discriminate | left; reflexivity].
  - cbn. unfold str_or. destruct t as [|c t]; [congruence |]. cbn.
    split; [discriminate |]. right. exists cfg. split; assumption.
Qed.

(** The first team, in the order of the configuration, that matches a
    repository by an exact name or by a prefix gets it, when its name is
    not empty. *)
Theorem first_matching_team_wins (before after : TeamsConfig) (t : jsstring)
    (cfg : TeamConfig) (n : jsstring) :
  Forall (fun team => team_matches team.2 n = false) before ->
  team_matches cfg n = true ->
  t <> [] ->
  assignedTeam (before ++ (t, cfg) :: after) n = t.
Proof.
  intros Hbefore Hm Hne. unfold assignedTeam.
  rewrite (scan_teams_skip before _ n None eq_refl Hbefore). cbn [scan_teams].
  unfold team_matches in Hm. destruct (exact_match cfg n).
  - cbn. unfold str_or. destruct t; [congruence | reflexivity].
  - cbn [orb] in Hm. destruct (prefixes cfg) as [ps|]; [| discriminate].
    rewrite Hm. destruct t as [|c t]; [congruence | reflexivity].
Qed.

(** A repository that no team of the configuration matches, by an exact
    name or by a prefix, is assigned to [Unassigned]. *)
Theorem unmatched_repository_is_unassigned (teams : TeamsConfig) (n : jsstring) :
  Forall (fun team => team_matches team.2 n = false) teams ->
  assignedTeam teams n = unassigned.
Proof.
  intros Hall. unfold assignedTeam.
  rewrite <- (app_nil_r teams). rewrite (scan_teams_skip teams [] n None eq_refl Hall).
  reflexivity.
Qed.

(** A team with the empty name never gets a repository; one it matches
    by an exact name is unassigned. *)
Theorem team_without_a_name_gets_nothing (cfg : TeamConfig) (after : TeamsConfig)
    (n : jsstring) :
  exact_match cfg n = true ->
  assignedTeam (([], cfg) :: after) n = unassigned.
Proof. intros He. unfold assignedTeam. cbn [scan_teams]. rewrite He. reflexivity. Qed.

Context {A : Type} (name_of : A -> jsstring).
Context (teams : TeamsConfig).

Local Abbreviation team_of := (fun s : A => assignedTeam teams (name_of s)).
Local Abbreviation of_team := (summaries_of_team name_of teams).

Lemma add_to_group_Returned (grouped grouped' : gmap jsstring (list A))
    (t : jsstring) (s : A) :
  add_to_group A grouped t s = Returned grouped' ->
  forall t', grouped' !! t' = if decide (t = t') then grown (grouped !! t) [s]
                              else grouped !! t'.
Proof.
  unfold add_to_group, read. intros H t'.
  destruct (grouped !! t) as [items|] eqn:Hg.
  - injection H as <-. rewrite lookup_insert. destruct (decide (t = t')); reflexivity.
  - destruct (inherited_length t inherited); [discriminate |].
    injection H as <-. rewrite lookup_insert. destruct (decide (t = t')); reflexivity.
Qed.

Lemma grown_grown (before : option (list A)) (l k : list A) :
  grown (grown before l) k = grown before (l ++ k).
Proof.
  destruct before as [items|], l as [|x l], k as [|y k]; cbn;
    rewrite ?app_nil_r, <- ?app_assoc; reflexivity.
Qed.

Lemma group_from_Returned (summaries : list A)
    (grouped grouped' : gmap jsstring (list A)) :
  group_from A name_of grouped teams summaries = Returned grouped' ->
  forall t, grouped' !! t = grown (grouped !! t) (of_team t summaries).
Proof.
  revert grouped. induction summaries as [|s summaries IH]; intros grouped H t.
  - injection H as <-. destruct (grouped !! t); cbn; rewrite ?app_nil_r; reflexivity.
  - cbn [group_from] in H.
    destruct (add_to_group A grouped (team_of s) s) as [g1|] eqn:Hadd; [| discriminate].
    rewrite (IH _ H t), (add_to_group_Returned _ _ _ _ Hadd t).
    unfold summaries_of_team. destruct (decide (team_of s = t)) as [Heq | Hne].
    + rewrite filter_cons_True by exact Heq. rewrite <- Heq, grown_grown. reflexivity.
    + rewrite filter_cons_False by exact Hne. reflexivity.
Qed.

Lemma group_from_total (summaries : list A) (grouped : gmap jsstring (list A)) :
  Forall (fun s => is_inherited (team_of s) = false) summaries ->
  exists grouped', group_from A name_of grouped teams summaries = Returned grouped'.
Proof.
  intros Hall. revert grouped.
  induction Hall as [|s summaries Hs _ IH]; intros grouped; [eexists; reflexivity |].
  cbn [group_from]. unfold add_to_group, read.
  destruct (grouped !! team_of s) as [items|]; [apply IH |].
  unfold is_inherited in Hs.
  destruct (inherited_length (team_of s) inherited); [discriminate | apply IH].
Qed.

Lemma group_from_throws (summaries : list A) (grouped : gmap jsstring (list A)) :
  own_keys_plain grouped ->
  Exists (fun s => is_inherited (team_of s) = true) summaries ->
  group_from A name_of grouped teams summaries = TypeError.
Proof.
  intros Hplain Hex. revert grouped Hplain.
  induction summaries as [|s summaries IH]; intros grouped Hplain;
    [apply Exists_nil in Hex; destruct Hex |].
  cbn [group_from]. unfold add_to_group, read.
  destruct (is_inherited (team_of s)) eqn:Hs.
  - destruct (grouped !! team_of s) as [items|] eqn:Hg.
    + rewrite (Hplain _ _ Hg) in Hs. discriminate.
    + unfold is_inherited in Hs.
      destruct (inherited_length (team_of s) inherited); [reflexivity | discriminate].
  - apply Exists_cons in Hex as [Hbad | Hex]; [congruence |].
    assert (Hnext : forall items, own_keys_plain (<[team_of s := items]> grouped)).
    { intros items t its Hl. destruct (decide (team_of s = t)) as [<- | Hne];
        [exact Hs |]. rewrite lookup_insert_ne in Hl by exact Hne. eapply Hplain, Hl. }
    destruct (grouped !! team_of s) as [items|]; [apply IH; [exact Hex | apply Hnext] |].
    unfold is_inherited in Hs.
    destruct (inherited_length (team_of s) inherited); [discriminate |].
    apply IH; [exact Hex | apply Hnext].
Qed.

(** When no summary is assigned to a team named like a property every
    object inherits, grouping returns, and the group of a team holds the
    summaries assigned to it, in the order they were given; a team
    without summaries has no group. *)
Theorem grouping_partitions_the_summaries (summaries : list A) :
  Forall (fun s => is_inherited (team_of s) = false) summaries ->
  exists grouped,
    groupReposByTeam A name_of summaries teams = Returned grouped /\
    forall t,
      grouped !! t =
        match of_team t summaries with
        | [] => None
        | items => Some items
        end.
Proof.
  intros Hall. unfold groupReposByTeam.
  destruct (group_from_total summaries ∅ Hall) as [grouped Hg].
  exists grouped. split; [exact Hg |]. intros t.
  rewrite (group_from_Returned _ _ _ Hg t), lookup_empty.
  destruct (of_team t summaries); reflexivity.
Qed.

(** A summary assigned to a team named like a property every object
    inherits, such as [constructor] or [toString], makes grouping throw:
    the inherited value is found in place of a group, and it has no
    [push]. *)
Theorem grouping_throws_on_an_inherited_name (summaries : list A) :
  Exists (fun s => is_inherited (team_of s) = true) summaries ->
  groupReposByTeam A name_of summaries teams = TypeError.
Proof.
  intros Hex. unfold groupReposByTeam. apply group_from_throws; [| exact Hex].
  intros t items Hl. rewrite lookup_empty in Hl. discriminate.
Qed.

End TeamFacts.

(** ** Rendering *)

Section RenderFacts.

Context {Date : Type} (format_long : Date -> jsstring).
Context (Number_toString : jsnumber -> jsstring).

Local Abbreviation render :=
  (generateNewsletter Date format_long Number_toString).
Local Abbreviation body :=
  (team_sections Number_toString).
Local Abbreviation section_lines :=
  (fun s : jsstring * list Summary => team_lines Number_toString s.1 s.2).

Lemma team_sections_readable (grouped : gmap jsstring (list Summary))
    (teamOrder : list jsstring) :
  Forall (readable grouped) teamOrder ->
  body grouped teamOrder
  = Returned (flat_map section_lines (sections grouped teamOrder)).
Proof.
  induction 1 as [|t teamOrder Ht _ IH]; [reflexivity |].
  cbn [team_sections sections]. unfold read.
  destruct (grouped !! t) as [[|repo repos]|] eqn:Hg.
  - exact IH.
  - rewrite IH. reflexivity.
  - destruct Ht as [[x Hx] | Hp]; [congruence |].
    unfold poisons in Hp.
    destruct (inherited_length t inherited) as [[[|n]|]|]; try discriminate; exact IH.
Qed.

Lemma team_sections_poisoned (grouped : gmap jsstring (list Summary))
    (teamOrder : list jsstring) :
  Exists (fun t => grouped !! t = None /\ poisons t = true) teamOrder ->
  body grouped teamOrder = TypeError.
Proof.
  induction teamOrder as [|t teamOrder IH]; intros Hex;
    [apply Exists_nil in Hex; destruct Hex |].
  cbn [team_sections]. unfold read.
  apply Exists_cons in Hex as [[Hnone Hp] | Hex].
  - rewrite Hnone. unfold poisons in Hp.
    destruct (inherited_length t inherited) as [[[|n]|]|]; try discriminate; reflexivity.
  - specialize (IH Hex).
    destruct (grouped !! t) as [[|repo repos]|].
    + exact IH.
    + rewrite IH. reflexivity.
    + destruct (inherited_length t inherited) as [[[|n]|]|]; try reflexivity; exact IH.
Qed.

(** The newsletter is the four header lines followed by one section for
    each entry of [teamOrder] that has a group that is not empty, in the
    order of [teamOrder]; entries without a group are passed over, as
    long as none is a name whose inherited value cannot be skipped. *)
Theorem newsletter_has_a_section_per_group
    (grouped : gmap jsstring (list Summary)) (sd ed : Date)
    (teamOrder : list jsstring) :
  Forall (readable grouped) teamOrder ->
  render grouped sd ed teamOrder
  = Returned (join LF
      (header_lines Date format_long grouped sd ed
       ++ flat_map section_lines (sections grouped teamOrder))).
Proof.
  intros Hall. unfold generateNewsletter.
  rewrite (team_sections_readable grouped teamOrder Hall). reflexivity.
Qed.

(** An entry of [teamOrder] such as [constructor] or [__proto__], for
    which the object holds no group of its own, makes the rendering
    throw: the inherited value is not skipped and cannot be iterated. *)
Theorem newsletter_throws_on_an_inherited_name
    (grouped : gmap jsstring (list Summary)) (sd ed : Date)
    (teamOrder : list jsstring) :
  Exists (fun t => grouped !! t = None /\ poisons t = true) teamOrder ->
  render grouped sd ed teamOrder = TypeError.
Proof.
  intros Hex. unfold generateNewsletter.
  rewrite (team_sections_poisoned grouped teamOrder Hex). reflexivity.
Qed.

End RenderFacts.

(** ** Grouping and rendering together *)

Section GroupAndRender.

Lemma filter_either {A : Type} (P Q : A -> Prop)
    `{!forall x, Decision (P x)} `{!forall x, Decision (Q x)} (l : list A) :
  (forall x, P x -> Q x -> False) ->
  filter P l ++ filter Q l ≡ₚ filter (fun x => P x \/ Q x) l.
Proof.
  intros Hdisj. induction l as [|x l IH]; [reflexivity |].
  destruct (decide (P x)) as [HP | HnP].
  - rewrite (filter_cons_True P) by exact HP.
    rewrite (filter_cons_False Q) by (intros HQ; exact (Hdisj x HP HQ)).
    rewrite (filter_cons_True (fun x => P x \/ Q x)) by (left; exact HP).
    cbn. rewrite IH. reflexivity.
  - rewrite (filter_cons_False P) by exact HnP.
    destruct (decide (Q x)) as [HQ | HnQ].
    + rewrite (filter_cons_True Q) by exact HQ.
      rewrite (filter_cons_True (fun x => P x \/ Q x)) by (right; exact HQ).
      rewrite <- Permutation_middle, IH. reflexivity.
    + rewrite (filter_cons_False Q) by exact HnQ.
      rewrite (filter_cons_False (fun x => P x \/ Q x)) by tauto.
      exact IH.
Qed.

Lemma filter_all {A : Type} (P : A -> Prop) `{!forall x, Decision (P x)} (l : list A) :
  Forall P l -> filter P l = l.
Proof.
  induction 1 as [|x l Hx _ IH]; [reflexivity |].
  rewrite filter_cons_True by exact Hx. rewrite IH. reflexivity.
Qed.

Lemma filter_none {A : Type} (P : A -> Prop) `{!forall x, Decision (P x)} (l : list A) :
  Forall (fun x => ~ P x) l -> filter P l = [].
Proof.
  induction 1 as [|x l Hx _ IH]; [reflexivity |].
  rewrite filter_cons_False by exact Hx. exact IH.
Qed.

(** Collecting by key over keys without repetition loses and repeats
    nothing. *)
Lemma collect_by_key {A : Type} (f : A -> jsstring) (order : list jsstring)
    (l : list A) :
  NoDup order ->
  flat_map (fun t => filter (fun s => f s = t) l) order
  ≡ₚ filter (fun s => f s ∈ order) l.
Proof.
  induction 1 as [|t order Hnot Hnd IH]; cbn [flat_map].
  - rewrite filter_none; [reflexivity |].
    apply Forall_forall. intros x _ Hin. apply elem_of_nil in Hin. exact Hin.
  - rewrite IH.
    rewrite (filter_either (fun s => f s = t) (fun s => f s ∈ order)).
    + apply eq_subrelation; [typeclasses eauto |].
      apply list_filter_iff. intros x. rewrite elem_of_cons. reflexivity.
    + intros x <- Hin. exact (Hnot Hin).
Qed.

Lemma sections_groups (grouped : gmap jsstring (list Summary))
    (order : list jsstring) :
  flat_map snd (sections grouped order)
  = flat_map (fun t => default [] (grouped !! t)) order.
Proof.
  induction order as [|t order IH]; [reflexivity |].
  cbn [sections flat_map].
  destruct (grouped !! t) as [[|repo repos]|]; cbn; rewrite IH; reflexivity.
Qed.

Lemma unassigned_is_plain : is_inherited unassigned = false.
Proof. reflexivity. Qed.

Lemma poisons_inherited (t : jsstring) : is_inherited t = false -> poisons t = false.
Proof.
  unfold is_inherited, poisons.
  destruct (inherited_length t inherited) as [[[|n]|]|]; [reflexivity | | | reflexivity];
    discriminate.
Qed.

Lemma assignedTeam_in_order (teams : TeamsConfig) (n : jsstring) :
  assignedTeam teams n ∈ getTeamOrder teams.
Proof.
  unfold getTeamOrder, assignedTeam. apply elem_of_app.
  destruct (scan_teams_result teams n None eq_refl) as [Hf | (t & cfg & -> & Hne & Hin & _)].
  - right. rewrite (falsy_name_or_unassigned _ Hf). left.
  - left. cbn. unfold str_or. destruct t as [|c t]; [congruence |]. cbn.
    apply list_elem_of_fmap. exists (c :: t, cfg). split; [reflexivity | exact Hin].
Qed.

Context {Date : Type} (format_long : Date -> jsstring).
Context (Number_toString : jsnumber -> jsstring).
Context (teams : TeamsConfig).

(** Grouping followed by rendering in the order of [getTeamOrder] loses
    no repository and repeats none: when the team names are distinct,
    none is [Unassigned] and none is a name every object inherits, the
    repositories of the sections are the summaries given, each once. *)
Theorem every_summary_is_rendered_once (summaries : list Summary) (sd ed : Date) :
  NoDup (map fst teams) ->
  unassigned ∉ map fst teams ->
  Forall (fun t => is_inherited t = false) (map fst teams) ->
  exists grouped,
    groupReposByTeam Summary s_repoName summaries teams = Returned grouped /\
    generateNewsletter Date format_long Number_toString grouped sd ed (getTeamOrder teams)
    = Returned (join LF
        (header_lines Date format_long grouped sd ed
         ++ flat_map (fun s : jsstring * list Summary =>
                        team_lines Number_toString s.1 s.2)
              (sections grouped (getTeamOrder teams)))) /\
    flat_map snd (sections grouped (getTeamOrder teams)) ≡ₚ summaries.
Proof.
  intros Hnd Hun Hplain.
  assert (Horder : Forall (fun t => is_inherited t = false) (getTeamOrder teams)).
  { unfold getTeamOrder. apply Forall_app. split; [exact Hplain |].
    constructor; [exact unassigned_is_plain | constructor]. }
  assert (Hassigned : Forall (fun s => is_inherited (assignedTeam teams (s_repoName s)) = false)
                        summaries).
  { apply Forall_forall. intros s _. rewrite Forall_forall in Horder.
    apply Horder, assignedTeam_in_order. }
  unfold groupReposByTeam.
  destruct (group_from_total s_repoName teams summaries ∅ Hassigned) as [grouped Hg].
  exists grouped. split; [exact Hg |]. split.
  - unfold generateNewsletter. rewrite team_sections_readable; [reflexivity |].
    eapply Forall_impl; [exact Horder |]. intros t Ht. right.
    apply poisons_inherited, Ht.
  - rewrite sections_groups.
    assert (Hgroups : forall t, default [] (grouped !! t)
                               = summaries_of_team s_repoName teams t summaries).
    { intros t. rewrite (group_from_Returned s_repoName teams _ _ _ Hg t), lookup_empty.
      cbn. destruct (summaries_of_team s_repoName teams t summaries); reflexivity. }
    rewrite (flat_map_ext _ _ Hgroups). unfold summaries_of_team.
    rewrite (collect_by_key (fun s => assignedTeam teams (s_repoName s))).
    + rewrite filter_all; [reflexivity |].
      apply Forall_forall. intros s _. apply assignedTeam_in_order.
    + unfold getTeamOrder. apply NoDup_app. split; [exact Hnd |]. split.
      * intros t Ht Hin. apply list_elem_of_singleton in Hin as ->. exact (Hun Ht).
      * apply NoDup_singleton.
Qed.

End GroupAndRender.

(** ** The totals of the summary line *)

Section Totals.

Lemma foldl_sum {B : Type} (h : B -> nat) (l : list B) (a : nat) :
  foldl (fun sum x => (sum + h x)%nat) a l = (a + sum_list_with h l)%nat.
Proof.
  revert a. induction l as [|x l IH]; intros a; cbn; [lia |].
  rewrite IH. lia.
Qed.

Lemma sum_list_with_snd {K B : Type} (h : B -> nat) (l : list (K * B)) :
  sum_list_with h (snd <$> l) = sum_list_with (fun kv => h kv.2) l.
Proof. induction l as [|[k b] l IH]; cbn; [reflexivity | rewrite IH; reflexivity]. Qed.

Lemma sum_list_with_pointwise {B : Type} (f g : B -> nat) (l : list B) :
  (forall x, f x = g x) -> sum_list_with f l = sum_list_with g l.
Proof.
  intros Hfg. induction l as [|x l IH]; cbn; [reflexivity |].
  rewrite Hfg, IH. reflexivity.
Qed.

Lemma sum_list_with_ones {B : Type} (l : list B) :
  sum_list_with (fun _ => 1%nat) l = length l.
Proof. induction l as [|x l IH]; cbn; [reflexivity | rewrite IH; reflexivity]. Qed.

Lemma totalRepos_weight (grouped : gmap jsstring (list Summary)) :
  totalRepos grouped = weight (fun _ => 1%nat) grouped.
Proof.
  unfold totalRepos, weight, group_values.
  rewrite foldl_sum, sum_list_with_snd. cbn [plus].
  apply sum_list_with_pointwise. intros [k repos]. cbn [snd].
  symmetry. apply sum_list_with_ones.
Qed.

Lemma totalPRs_weight (grouped : gmap jsstring (list Summary)) :
  totalPRs grouped = weight (fun s => length (s_pullRequests s)) grouped.
Proof.
  unfold totalPRs, weight, group_values.
  rewrite foldl_sum, sum_list_with_snd. cbn [plus].
  apply sum_list_with_pointwise. intros [k repos]. cbn [snd].
  unfold repo_prs. rewrite foldl_sum. reflexivity.
Qed.

Context {A : Type} (mu : A -> nat).

Lemma weight_empty : weight mu (∅ : gmap jsstring (list A)) = 0%nat.
Proof. unfold weight. rewrite map_to_list_empty. reflexivity. Qed.

Lemma weight_insert_fresh (grouped : gmap jsstring (list A)) (t : jsstring)
    (items : list A) :
  grouped !! t = None ->
  weight mu (<[t := items]> grouped) = (sum_list_with mu items + weight mu grouped)%nat.
Proof.
  intros Hnone. unfold weight. rewrite (map_to_list_insert _ _ _ Hnone). reflexivity.
Qed.

Lemma weight_insert_over (grouped : gmap jsstring (list A)) (t : jsstring)
    (old items : list A) :
  grouped !! t = Some old ->
  (weight mu (<[t := items]> grouped) + sum_list_with mu old
   = sum_list_with mu items + weight mu grouped)%nat.
Proof.
  intros Hold.
  pose proof (weight_insert_fresh (delete t grouped) t items (lookup_delete_eq _ _)) as H1.
  pose proof (weight_insert_fresh (delete t grouped) t old (lookup_delete_eq _ _)) as H2.
  rewrite insert_delete_eq in H1, H2.
  rewrite (insert_id grouped t old Hold) in H2. lia.
Qed.

Lemma add_to_group_weight (grouped grouped' : gmap jsstring (list A))
    (t : jsstring) (s : A) :
  add_to_group A grouped t s = Returned grouped' ->
  weight mu grouped' = (weight mu grouped + mu s)%nat.
Proof.
  unfold add_to_group, read. intros H.
  destruct (grouped !! t) as [old|] eqn:Hg.
  - injection H as <-.
    pose proof (weight_insert_over grouped t old (old ++ [s]) Hg) as Hw.
    rewrite sum_list_with_app in Hw. cbn in Hw. lia.
  - destruct (inherited_length t inherited); [discriminate |].
    injection H as <-. rewrite (weight_insert_fresh _ _ _ Hg). cbn. lia.
Qed.

Lemma group_from_weight (name_of : A -> jsstring) (teams : TeamsConfig)
    (summaries : list A) (grouped grouped' : gmap jsstring (list A)) :
  group_from A name_of grouped teams summaries = Returned grouped' ->
  weight mu grouped' = (weight mu grouped + sum_list_with mu summaries)%nat.
Proof.
  revert grouped. induction summaries as [|s summaries IH]; intros grouped H.
  - injection H as <-. cbn. lia.
  - cbn [group_from] in H.
    destruct (add_to_group A grouped (assignedTeam teams (name_of s)) s)
      as [g1|] eqn:Hadd; [| discriminate].
    rewrite (IH _ H), (add_to_group_weight _ _ _ _ Hadd). cbn. lia.
Qed.

End Totals.

Section TotalsOfGrouping.

(** The summary line of a newsletter rendered from the groups counts the
    repositories and the pull requests of the summaries that were
    grouped, whatever the teams. *)
Theorem totals_count_the_grouped_summaries (summaries : list Summary)
    (teams : TeamsConfig) (grouped : gmap jsstring (list Summary)) :
  groupReposByTeam Summary s_repoName summaries teams = Returned grouped ->
  totalRepos grouped = length summaries /\
  totalPRs grouped = sum_list_with (fun s => length (s_pullRequests s)) summaries.
Proof.
  unfold groupReposByTeam. intros Hg. split.
  - rewrite totalRepos_weight, (group_from_weight _ _ _ _ _ _ Hg), weight_empty.
    cbn [plus]. apply sum_list_with_ones.
  - rewrite totalPRs_weight, (group_from_weight _ _ _ _ _ _ Hg), weight_empty.
    reflexivity.
Qed.

End TotalsOfGrouping.

(** ** Discovery *)

Section ExtractFacts.

Context (organization : jsstring).

Lemma repo_key_inj (n n' : jsstring) :
  repo_key organization n = repo_key organization n' -> n = n'.
Proof.
  unfold repo_key. intros H. apply app_inv_head in H. apply app_inv_head in H. exact H.
Qed.

Lemma add_repos_collected (names : list jsstring) (seen seen' : gset jsstring)
    (found found' : list Repo) :
  add_repos organization names seen found = (seen', found') ->
  collected organization seen found ->
  collected organization seen' found' /\
  exists added,
    found' = found ++ added /\
    map r_repo added `sublist_of` names /\
    forall n, n ∈ map r_repo found' <-> n ∈ map r_repo found \/ n ∈ names.
Proof.
  revert seen found. induction names as [|n names IH]; intros seen found H Hinv.
  - injection H as <- <-. split; [exact Hinv |]. exists [].
    split; [by rewrite app_nil_r |]. split; [constructor |].
    intros m. rewrite elem_of_nil. tauto.
  - cbn [add_repos] in H. destruct Hinv as (Hseen & Hnd & Hown).
    destruct (decide (repo_key organization n ∈ seen)) as [Hin | Hout].
    + destruct (IH _ _ H (conj Hseen (conj Hnd Hown))) as (Hinv' & added & -> & Hsub & Hmem).
      split; [exact Hinv' |]. exists added. split; [reflexivity |].
      split; [apply sublist_cons, Hsub |].
      intros m. rewrite Hmem, elem_of_cons. apply Hseen in Hin.
      split; [tauto |]. intros [Hm | [-> | Hm]]; tauto.
    + assert (Hfresh : n ∉ map r_repo found) by (intros Hn; apply Hout, Hseen, Hn).
      assert (Hinv1 : collected organization ({[repo_key organization n]} ∪ seen)
                        (found ++ [mkRepo organization n])).
      { split; [| split].
        - intros m. rewrite map_app, elem_of_app, elem_of_union, elem_of_singleton. cbn.
          rewrite list_elem_of_singleton, Hseen. split.
          + intros [Hk | Hm]; [right; symmetry; apply repo_key_inj; symmetry; exact Hk
                              | left; exact Hm].
          + intros [Hm | ->]; [right; exact Hm | left; reflexivity].
        - rewrite map_app. apply NoDup_app. split; [exact Hnd |]. split.
          + intros m Hm Hin. cbn in Hin. apply list_elem_of_singleton in Hin as ->.
            exact (Hfresh Hm).
          + apply NoDup_singleton.
        - apply Forall_app. split; [exact Hown |]. constructor; [reflexivity | constructor]. }
      destruct (IH _ _ H Hinv1) as (Hinv' & added & -> & Hsub & Hmem).
      split; [exact Hinv' |]. exists (mkRepo organization n :: added).
      split; [by rewrite <- app_assoc |]. split; [cbn; apply sublist_skip, Hsub |].
      intros m. rewrite Hmem, map_app, elem_of_app, elem_of_cons. cbn.
      rewrite list_elem_of_singleton. tauto.
Qed.

Lemma extract_from_collected (teams : list TeamConfig) (seen : gset jsstring)
    (found : list Repo) :
  collected organization seen found ->
  NoDup (map r_repo (extract_from organization teams seen found)) /\
  Forall (fun r => r_owner r = organization)
         (extract_from organization teams seen found) /\
  exists added,
    extract_from organization teams seen found = found ++ added /\
    map r_repo added
      `sublist_of` flat_map (fun cfg => default [] (repos cfg)) teams /\
    forall n, n ∈ map r_repo (extract_from organization teams seen found) <->
              n ∈ map r_repo found \/
              n ∈ flat_map (fun cfg => default [] (repos cfg)) teams.
Proof.
  revert seen found. induction teams as [|cfg teams IH]; intros seen found Hinv.
  - cbn. destruct Hinv as (_ & Hnd & Hown). split; [exact Hnd |]. split; [exact Hown |].
    exists []. split; [by rewrite app_nil_r |]. split; [constructor |].
    intros n. rewrite elem_of_nil. tauto.
  - cbn [extract_from flat_map]. destruct (repos cfg) as [names|]; cbn [default].
    + destruct (add_repos organization names seen found) as [seen1 found1] eqn:Hadd.
      destruct (add_repos_collected _ _ _ _ _ Hadd Hinv)
        as (Hinv1 & added1 & -> & Hsub1 & Hmem1).
      destruct (IH _ _ Hinv1) as (Hnd & Hown & added & Heq & Hsub & Hmem).
      split; [exact Hnd |]. split; [exact Hown |].
      exists (added1 ++ added). split; [rewrite Heq; by rewrite <- app_assoc |].
      split; [rewrite map_app; apply sublist_app; assumption |].
      intros n. rewrite Hmem, Hmem1, elem_of_app. tauto.
    + apply IH, Hinv.
Qed.

Lemma flat_map_snd_teams (teams : TeamsConfig) :
  flat_map (fun cfg => default [] (repos cfg)) (map snd teams) = listed_names teams.
Proof.
  unfold listed_names. induction teams as [|[t cfg] teams IH]; [reflexivity |].
  cbn. rewrite IH. reflexivity.
Qed.


End ExtractFacts.

Section DiscoveryFacts.

Context {World : Type}.
Context (sdk_callTool : World -> jsstring -> list (jsstring * json) -> World * SdkReply).
Context (stringify_segment : Segment -> jsstring).
Context (Date_value : json -> TimeValue).

Local Abbreviation check :=
  (checkRepoHasPRsInTimeframe World sdk_callTool stringify_segment Date_value).
Local Abbreviation in_window := (pr_in_timeframe Date_value).
Local Abbreviation count := (count_prs Date_value).

(** What the host is asked when a repository is checked. *)
Lemma listing_request (owner repo : jsstring) :
  mapToolNameAndArgs (js "list_pull_requests") (JObj (list_params owner repo))
  = (js "list_pull_requests", list_params owner repo).
Proof. reflexivity. Qed.

Lemma count_prs_counts (prs : list json) (sd ed : TimeValue) (n : nat) :
  Forall (fun pr => pr <> JNull) prs ->
  count prs sd ed n
  = Some (n + length (filter (fun pr => in_window pr sd ed = Some true) prs))%nat.
Proof.
  intros Hall. revert n. induction Hall as [|pr prs Hpr _ IH]; intros n.
  - cbn. f_equal. lia.
  - cbn [count_prs]. rewrite filter_cons.
    assert (Hsome : exists b, in_window pr sd ed = Some b).
    { unfold pr_in_timeframe. destruct pr; try contradiction; cbn; eauto. }
    destruct Hsome as [b Hb]. rewrite Hb. cbn.
    destruct b.
    + rewrite decide_True by reflexivity. rewrite IH. cbn [length]. f_equal. lia.
    + rewrite decide_False by discriminate. apply IH.
Qed.

Lemma count_prs_null (prs : list json) (sd ed : TimeValue) (n : nat) :
  JNull ∈ prs -> count prs sd ed n = None.
Proof.
  revert n. induction prs as [|pr prs IH]; intros n Hin.
  - apply elem_of_nil in Hin. contradiction.
  - apply elem_of_cons in Hin. cbn [count_prs]. destruct Hin as [<- | Hin].
    + reflexivity.
    + destruct (in_window pr sd ed); [apply IH, Hin | reflexivity].
Qed.

Lemma check_flag (c : GitHubMCPClient) (o r : jsstring) (sd ed : TimeValue) (w : World) :
  hasActivity (check c o r sd ed w).2 = (0 <? prCount (check c o r sd ed w).2)%nat.
Proof.
  unfold checkRepoHasPRsInTimeframe.
  destruct (listPullRequests _ _ _ _ _) as [w' [result | e]]; [| reflexivity].
  destruct (iterate _) as [prs|]; [| reflexivity].
  destruct (count_prs _ _ _ _ _); reflexivity.
Qed.

Lemma check_offline (c : GitHubMCPClient) (o r : jsstring) (sd ed : TimeValue)
    (w : World) :
  connected c = false -> check c o r sd ed w = (w, inactive).
Proof.
  intros Hc. unfold checkRepoHasPRsInTimeframe, listPullRequests, callTool.
  rewrite Hc. reflexivity.
Qed.

Lemma error_text_is_not_json (rest : jsstring) :
  JSON_parse (js "Error calling tool " ++ rest) = None.
Proof. reflexivity. Qed.

(** A repository whose pull requests cannot be listed, because the adapter
    is not connected or because the host rejects the request, is reported
    as having no activity; nothing is raised. *)
Theorem unlistable_repository_counts_as_inactive
    (c : GitHubMCPClient) (o r : jsstring) (sd ed : TimeValue) (w w' : World)
    (errorMessage : jsstring) :
  connected c = false \/
  sdk_callTool w (js "list_pull_requests") (list_params o r)
    = (w', SdkRejected errorMessage) ->
  (check c o r sd ed w).2 = inactive.
Proof.
  intros [Hc | Hhost].
  - rewrite check_offline by exact Hc. reflexivity.
  - destruct (connected c) eqn:Hc; [| rewrite check_offline by exact Hc; reflexivity].
    unfold checkRepoHasPRsInTimeframe, listPullRequests, callTool.
    rewrite Hc, listing_request, Hhost. cbn [negb content].
    unfold content_text_of. cbn [map seg_text nullable_or join].
    unfold parse_pull_requests.
    change (str_or ?a ?b) with a.
    rewrite error_text_is_not_json. reflexivity.
Qed.

(** When the host answers with text that is a JSON array without [null]
    entries, the count is the number of entries whose date falls in the
    window, and activity is reported exactly when that number is not 0. *)
Theorem listed_array_is_counted_entry_by_entry
    (c : GitHubMCPClient) (o r : jsstring) (sd ed : TimeValue) (w w' : World)
    (result : SdkResult) (segment : Segment) (segments : list Segment)
    (items : list json) :
  connected c = true ->
  sdk_callTool w (js "list_pull_requests") (list_params o r)
    = (w', SdkResolved result) ->
  sdk_content result = Some (segment :: segments) ->
  JSON_parse (content_text_of stringify_segment (segment :: segments))
    = Some (JArr items) ->
  Forall (fun pr => pr <> JNull) items ->
  let n := length (filter (fun pr => in_window pr sd ed = Some true) items) in
  check c o r sd ed w = (w', mkCheck (0 <? n)%nat n).
Proof.
  intros Hc Hhost Hcontent Hparse Hall n.
  unfold checkRepoHasPRsInTimeframe, listPullRequests, callTool.
  rewrite Hc, listing_request, Hhost. cbn [negb content]. rewrite Hcontent.
  cbn [default id]. unfold parse_pull_requests. rewrite Hparse. cbn.
  rewrite (count_prs_counts items sd ed 0 Hall). reflexivity.
Qed.

(** One [null] entry in the array the host lists makes the whole check
    report no activity, whatever the other entries are. *)
Theorem null_entry_voids_the_count
    (c : GitHubMCPClient) (o r : jsstring) (sd ed : TimeValue) (w w' : World)
    (result : SdkResult) (segment : Segment) (segments : list Segment)
    (items : list json) :
  connected c = true ->
  sdk_callTool w (js "list_pull_requests") (list_params o r)
    = (w', SdkResolved result) ->
  sdk_content result = Some (segment :: segments) ->
  JSON_parse (content_text_of stringify_segment (segment :: segments))
    = Some (JArr items) ->
  JNull ∈ items ->
  check c o r sd ed w = (w', inactive).
Proof.
  intros Hc Hhost Hcontent Hparse Hnull.
  unfold checkRepoHasPRsInTimeframe, listPullRequests, callTool.
  rewrite Hc, listing_request, Hhost. cbn [negb content]. rewrite Hcontent.
  cbn [default id]. unfold parse_pull_requests. rewrite Hparse. cbn.
  rewrite (count_prs_null items sd ed 0 Hnull). reflexivity.
Qed.

Lemma check_all_spec (c : GitHubMCPClient) (repos : list Repo) (sd ed : TimeValue)
    (w : World) (active : list RepoActivity) :
  exists more,
    (check_all World sdk_callTool stringify_segment Date_value c repos sd ed w active).2
      = active ++ more /\
    map (fun a => (a_owner a, a_repo a)) more
      `sublist_of` map (fun r => (r_owner r, r_repo r)) repos /\
    Forall (fun a => (0 < a_prCount a)%nat) more.
Proof.
  revert w active. induction repos as [|r repos IH]; intros w active.
  - exists []. cbn. rewrite app_nil_r. repeat split; constructor.
  - cbn [check_all].
    pose proof (check_flag c (r_owner r) (r_repo r) sd ed w) as Hflag.
    destruct (check c (r_owner r) (r_repo r) sd ed w) as [w1 a]. cbn [snd] in Hflag.
    destruct (hasActivity a) eqn:Hact.
    + destruct (IH w1 (active ++ [mkActivity (r_owner r) (r_repo r) (prCount a)]))
        as (more & -> & Hsub & Hpos).
      exists (mkActivity (r_owner r) (r_repo r) (prCount a) :: more).
      split; [by rewrite <- app_assoc |]. split.
      * cbn. apply sublist_skip, Hsub.
      * constructor; [| exact Hpos]. cbn. symmetry in Hflag.
        apply Nat.ltb_lt in Hflag. exact Hflag.
    + destruct (IH w1 active) as (more & -> & Hsub & Hpos).
      exists more. split; [reflexivity |]. split; [| exact Hpos].
      cbn. apply sublist_cons, Hsub.
Qed.

Lemma check_all_offline (c : GitHubMCPClient) (repos : list Repo) (sd ed : TimeValue)
    (w : World) (active : list RepoActivity) :
  connected c = false ->
  check_all World sdk_callTool stringify_segment Date_value c repos sd ed w active
  = (w, active).
Proof.
  intros Hc. revert active. induction repos as [|r repos IH]; intros active;
    [reflexivity |].
  cbn [check_all]. rewrite check_offline by exact Hc. cbn. apply IH.
Qed.

Lemma map_snd_pairs {A B C : Type} (f : A -> B) (g : A -> C) (l : list A) :
  map snd (map (fun a => (f a, g a)) l) = map g l.
Proof. induction l as [|a l IH]; [reflexivity |]. cbn. by rewrite IH. Qed.


(** With an adapter that is not connected, discovery reports no active
    repository and raises nothing. *)
Theorem discovery_without_connection_finds_nothing
    (organization : jsstring) (teams : TeamsConfig) (c : GitHubMCPClient)
    (sd ed : TimeValue) (w : World) :
  connected c = false ->
  discoverReposWithActivity World sdk_callTool stringify_segment Date_value
    organization teams c sd ed w = (w, []).
Proof. intros Hc. apply check_all_offline, Hc. Qed.

End DiscoveryFacts.

(** ** The loop of [main] over the active repositories *)

Section PipelineFacts.

Context {World : Type}.
Context (chat_create : World -> list Message -> World * ChatReply).
Context (sdk_callTool : World -> jsstring -> list (jsstring * json) -> World * SdkReply).
Context (stringify_segment : Segment -> jsstring).
Context (syntax_error_message : jsstring -> jsstring).
Context {Date : Type} (format_ymd : Date -> jsstring).
Context (mcpClient : GitHubMCPClient).

Local Abbreviation summarize_all :=
  (summarizeAll World chat_create sdk_callTool stringify_segment syntax_error_message
     Date format_ymd mcpClient).
Local Abbreviation summarize_one :=
  (summarizeRepo World chat_create sdk_callTool stringify_segment syntax_error_message
     Date format_ymd mcpClient).

Lemma summarizeRepo_names (o r : jsstring) (sd ed : Date) (w : World)
    (summary : RepoSummary) :
  outcome (summarize_one o r sd ed w) = Normal summary ->
  owner summary = o /\ repoName summary = r.
Proof.
  unfold summarizeRepo. intros H.
  destruct (rounds_outcome chat_create sdk_callTool stringify_segment
              syntax_error_message mcpClient maxIterations o r w
              [SystemMessage (buildSystemPrompt Date format_ymd o r sd ed);
               UserMessage (buildUserPrompt Date format_ymd o r sd ed)])
    as [[content Hc] | [Hx | [Hx | [[m Hx] | [text [_ Hx]]]]]];
    rewrite H in *; try discriminate.
  injection Hc as ->. apply parseSummaryFromMessage_names.
Qed.

Lemma summarizeAll_spec (repos : list RepoActivity) (sd ed : Date) (w : World)
    (done : list RepoSummary) :
  exists more,
    (summarize_all repos sd ed w done).2 = done ++ more /\
    map (fun s => (owner s, repoName s)) more
      `sublist_of` map (fun a => (a_owner a, a_repo a)) repos.
Proof.
  revert w done. induction repos as [|a repos IH]; intros w done.
  - exists []. cbn. rewrite app_nil_r. split; constructor.
  - cbn [summarizeAll].
    pose proof (summarizeRepo_names (a_owner a) (a_repo a) sd ed w) as Hnames.
    destruct (outcome (summarize_one (a_owner a) (a_repo a) sd ed w))
      as [summary | e].
    + destruct (Hnames summary eq_refl) as [Ho Hr].
      destruct (IH (final_world (summarize_one (a_owner a) (a_repo a) sd ed w))
                   (done ++ [summary])) as (more & -> & Hsub).
      exists (summary :: more). split; [by rewrite <- app_assoc |].
      cbn. rewrite Ho, Hr. apply sublist_skip, Hsub.
    + destruct (IH (final_world (summarize_one (a_owner a) (a_repo a) sd ed w)) done)
        as (more & -> & Hsub).
      exists more. split; [reflexivity |]. cbn. apply sublist_cons, Hsub.
Qed.


End PipelineFacts.

(** ** The properties on sample data *)

Section OnSamples.

Import Scenario.

Lemma successful_tool_result_is_bounded_witness :
  joined_text stringify_segment (mkResult [text_segment (js "diff --git")] false) <> [] /\
  exists text,
    success_message stringify_segment (diff_call "call_2" "{}")
      (mkResult [text_segment (js "diff --git")] false)
      = ToolMessage (js "call_2") text /\
    text = truncateContent
             (joined_text stringify_segment
                (mkResult [text_segment (js "diff --git")] false))
             (result_budget (js "mcp_GitHub_get_pull_request_diff")) /\
    strlen text <= 4 * result_budget (js "mcp_GitHub_get_pull_request_diff") + 43 /\
    strlen text <= 40043 /\
    (includes (js "mcp_GitHub_get_pull_request_diff") (js "diff")
     || includes (js "mcp_GitHub_get_pull_request_diff") (js "files") = true ->
     strlen text <= 20043).
Proof.
  split; [vm_compute; discriminate |].
  apply (successful_tool_result_is_bounded stringify_segment (diff_call "call_2" "{}")
           (mkResult [text_segment (js "diff --git")] false)).
  vm_compute. discriminate.
Defined.

Lemma two_round_service_well_behaved : well_behaved two_round_service.
Proof.
  intros [|w] messages; eexists _, _; (split; [reflexivity |]);
    repeat constructor.
Defined.

Lemma host_failures_never_end_a_summarization_witness :
  well_behaved two_round_service /\
  ((exists content,
      outcome (run two_round_service flaky_host online)
      = Normal (parseSummaryFromMessage content (js "acme") (js "api"))) \/
   outcome (run two_round_service flaky_host online)
   = Throw (Error_ max_iterations_message)).
Proof.
  split; [exact two_round_service_well_behaved |].
  exact (host_failures_never_end_a_summarization two_round_service flaky_host
           stringify_segment syntax_error_message format_ymd online
           (js "acme") (js "api") (js "2024-01-08") (js "2024-01-15") 0%nat
           two_round_service_well_behaved).
Defined.

Lemma offline_adapter_answers_with_its_error_witness :
  connected offline = false /\
  arguments_parse (list_call "call_1" "{}") = true /\
  handleToolCall World flaky_host stringify_segment syntax_error_message offline
    0%nat (list_call "call_1" "{}")
  = (0%nat, Normal (ToolMessage (js "call_1") (js "Error: MCP client not connected"))).
Proof.
  split; [reflexivity |]. split; [reflexivity |].
  apply (offline_adapter_answers_with_its_error flaky_host stringify_segment
           syntax_error_message offline 0%nat (list_call "call_1" "{}"));
    reflexivity.
Defined.

Lemma rejected_invocation_is_fed_back_witness :
  connected online = true /\
  JSON_parse (str_or (js "{}") (js "{}")) = Some (JObj []) /\
  flaky_host 0%nat (js "list_pull_requests") [] = (0%nat, SdkRejected (js "connection closed")) /\
  handleToolCall World flaky_host stringify_segment syntax_error_message online
    0%nat (list_call "call_1" "{}")
  = (0%nat, Normal (ToolMessage (js "call_1")
       (js "[" ++
        stringify_segment
          (mkSegment (js "text")
             (Some (js "Error calling tool " ++ js "mcp_GitHub_list_pull_requests"
                    ++ js ": " ++ js "connection closed")) [])
        ++ js "]"))).
Proof.
  split; [reflexivity |]. split; [reflexivity |]. split; [reflexivity |].
  apply (rejected_invocation_is_fed_back flaky_host stringify_segment
           syntax_error_message online 0%nat 0%nat (list_call "call_1" "{}")
           (JObj []) (js "connection closed"));
    reflexivity.
Defined.

Lemma disconnect_is_idempotent_witness :
  disconnect World Samples.closing online 0%nat = (0%nat, offline, Normal tt) /\
  connected offline = false /\
  disconnect World Samples.closing offline 0%nat = (0%nat, offline, Normal tt) /\
  forall name args,
    callTool World flaky_host offline name args 0%nat
    = (0%nat, Throw (Error_ not_connected)).
Proof.
  split; [reflexivity |].
  apply (proj1 (proj2 (disconnect_is_idempotent flaky_host Samples.closing online 0%nat))).
  reflexivity.
Defined.

Lemma first_matching_team_wins_witness :
  Forall (fun team : jsstring * TeamConfig => team_matches team.2 (js "ios-app") = false)
         [(js "Platform", Samples.platform)] /\
  team_matches Samples.mobile (js "ios-app") = true /\
  js "Mobile" <> [] /\
  assignedTeam Samples.teams (js "ios-app") = js "Mobile".
Proof.
  assert (H1 : Forall (fun team : jsstring * TeamConfig =>
                         team_matches team.2 (js "ios-app") = false)
                      [(js "Platform", Samples.platform)])
    by (repeat constructor).
  assert (H3 : js "Mobile" <> []) by (vm_compute; discriminate).
  split; [exact H1 |]. split; [reflexivity |]. split; [exact H3 |].
  exact (first_matching_team_wins [(js "Platform", Samples.platform)] []
           (js "Mobile") Samples.mobile (js "ios-app") H1 eq_refl H3).
Defined.

Lemma unmatched_repository_is_unassigned_witness :
  Forall (fun team : jsstring * TeamConfig => team_matches team.2 (js "docs") = false)
         Samples.teams /\
  assignedTeam Samples.teams (js "docs") = unassigned.
Proof.
  assert (H : Forall (fun team : jsstring * TeamConfig =>
                        team_matches team.2 (js "docs") = false) Samples.teams)
    by (repeat constructor).
  split; [exact H |].
  exact (unmatched_repository_is_unassigned Samples.teams (js "docs") H).
Defined.

Lemma team_without_a_name_gets_nothing_witness :
  exact_match Samples.platform (js "api") = true /\
  assignedTeam [([], Samples.platform); (js "Mobile", Samples.mobile)] (js "api")
  = unassigned.
Proof.
  split; [reflexivity |].
  exact (team_without_a_name_gets_nothing Samples.platform
           [(js "Mobile", Samples.mobile)] (js "api") eq_refl).
Defined.

Lemma grouping_partitions_the_summaries_witness :
  Forall (fun s => is_inherited (assignedTeam Samples.teams (s_repoName s)) = false)
         Samples.summaries /\
  exists grouped,
    groupReposByTeam Summary s_repoName Samples.summaries Samples.teams
      = Returned grouped /\
    forall t,
      grouped !! t =
        match summaries_of_team s_repoName Samples.teams t Samples.summaries with
        | [] => None
        | items => Some items
        end.
Proof.
  assert (H : Forall (fun s => is_inherited (assignedTeam Samples.teams (s_repoName s))
                               = false) Samples.summaries)
    by (repeat constructor).
  split; [exact H |].
  exact (grouping_partitions_the_summaries s_repoName Samples.teams Samples.summaries H).
Defined.

Lemma grouping_throws_on_an_inherited_name_witness :
  Exists (fun s => is_inherited (assignedTeam Samples.hostile_teams (s_repoName s)) = true)
         Samples.summaries /\
  groupReposByTeam Summary s_repoName Samples.summaries Samples.hostile_teams
  = TypeError.
Proof.
  assert (H : Exists (fun s => is_inherited
                                 (assignedTeam Samples.hostile_teams (s_repoName s))
                               = true) Samples.summaries)
    by (apply Exists_cons_hd; reflexivity).
  split; [exact H |].
  exact (grouping_throws_on_an_inherited_name s_repoName Samples.hostile_teams
           Samples.summaries H).
Defined.

Lemma sample_order_readable :
  Forall (readable Samples.grouped) (getTeamOrder Samples.teams).
Proof.
  repeat constructor; left; eexists; vm_compute; reflexivity.
Defined.

Lemma newsletter_has_a_section_per_group_witness :
  Forall (readable Samples.grouped) (getTeamOrder Samples.teams) /\
  generateNewsletter Date Samples.format_long Samples.Number_toString Samples.grouped
    (js "Jan 8, 2024") (js "Jan 15, 2024") (getTeamOrder Samples.teams)
  = Returned (join LF
      (header_lines Date Samples.format_long Samples.grouped
         (js "Jan 8, 2024") (js "Jan 15, 2024")
       ++ flat_map (fun s : jsstring * list Summary =>
                      team_lines Samples.Number_toString s.1 s.2)
            (sections Samples.grouped (getTeamOrder Samples.teams)))).
Proof.
  split; [exact sample_order_readable |].
  exact (newsletter_has_a_section_per_group Samples.format_long Samples.Number_toString
           Samples.grouped (js "Jan 8, 2024") (js "Jan 15, 2024")
           (getTeamOrder Samples.teams) sample_order_readable).
Defined.

Lemma sample_order_poisoned :
  Exists (fun t => Samples.grouped !! t = None /\ poisons t = true)
         [js "Platform"; js "constructor"].
Proof.
  apply Exists_cons_tl, Exists_cons_hd. split; vm_compute; reflexivity.
Defined.

Lemma newsletter_throws_on_an_inherited_name_witness :
  Exists (fun t => Samples.grouped !! t = None /\ poisons t = true)
         [js "Platform"; js "constructor"] /\
  generateNewsletter Date Samples.format_long Samples.Number_toString Samples.grouped
    (js "Jan 8, 2024") (js "Jan 15, 2024") [js "Platform"; js "constructor"]
  = TypeError.
Proof.
  split; [exact sample_order_poisoned |].
  exact (newsletter_throws_on_an_inherited_name Samples.format_long
           Samples.Number_toString Samples.grouped (js "Jan 8, 2024") (js "Jan 15, 2024")
           [js "Platform"; js "constructor"] sample_order_poisoned).
Defined.

Lemma sample_names_distinct : NoDup (map fst Samples.teams).
Proof. apply (bool_decide_unpack _). vm_compute. exact I. Defined.

Lemma sample_names_reserve_unassigned : unassigned ∉ map fst Samples.teams.
Proof. apply (bool_decide_unpack _). vm_compute. exact I. Defined.

Lemma sample_names_plain :
  Forall (fun t => is_inherited t = false) (map fst Samples.teams).
Proof. repeat constructor. Defined.

Lemma every_summary_is_rendered_once_witness :
  NoDup (map fst Samples.teams) /\
  (unassigned ∉ map fst Samples.teams) /\
  Forall (fun t => is_inherited t = false) (map fst Samples.teams) /\
  exists grouped,
    groupReposByTeam Summary s_repoName Samples.summaries Samples.teams
      = Returned grouped /\
    generateNewsletter Date Samples.format_long Samples.Number_toString grouped
      (js "Jan 8, 2024") (js "Jan 15, 2024") (getTeamOrder Samples.teams)
    = Returned (join LF
        (header_lines Date Samples.format_long grouped
           (js "Jan 8, 2024") (js "Jan 15, 2024")
         ++ flat_map (fun s : jsstring * list Summary =>
                        team_lines Samples.Number_toString s.1 s.2)
              (sections grouped (getTeamOrder Samples.teams)))) /\
    flat_map snd (sections grouped (getTeamOrder Samples.teams)) ≡ₚ Samples.summaries.
Proof.
  split; [exact sample_names_distinct |].
  split; [exact sample_names_reserve_unassigned |].
  split; [exact sample_names_plain |].
  exact (every_summary_is_rendered_once Samples.format_long Samples.Number_toString
           Samples.teams Samples.summaries (js "Jan 8, 2024") (js "Jan 15, 2024")
           sample_names_distinct sample_names_reserve_unassigned sample_names_plain).
Defined.

Lemma sample_grouping :
  groupReposByTeam Summary s_repoName Samples.summaries Samples.teams
  = Returned Samples.grouped.
Proof. vm_compute. reflexivity. Defined.

Lemma totals_count_the_grouped_summaries_witness :
  groupReposByTeam Summary s_repoName Samples.summaries Samples.teams
    = Returned Samples.grouped /\
  totalRepos Samples.grouped = length Samples.summaries /\
  totalPRs Samples.grouped
  = sum_list_with (fun s => length (s_pullRequests s)) Samples.summaries.
Proof.
  split; [exact sample_grouping |].
  exact (totals_count_the_grouped_summaries Samples.summaries Samples.teams
           Samples.grouped sample_grouping).
Defined.

Lemma unlistable_repository_counts_as_inactive_witness :
  (connected online = false \/
   flaky_host 0%nat (js "list_pull_requests") (list_params (js "acme") (js "api"))
   = (0%nat, SdkRejected (js "connection closed"))) /\
  (checkRepoHasPRsInTimeframe World flaky_host stringify_segment Samples.Date_value
     online (js "acme") (js "api") Samples.week_start Samples.week_end 0%nat).2
  = inactive.
Proof.
  split; [right; reflexivity |].
  apply (unlistable_repository_counts_as_inactive flaky_host stringify_segment
           Samples.Date_value online (js "acme") (js "api")
           Samples.week_start Samples.week_end 0%nat 0%nat (js "connection closed")).
  right. reflexivity.
Defined.

Lemma sample_listing_not_null : Forall (fun pr => pr <> JNull) Samples.listed.
Proof. repeat constructor; discriminate. Defined.

Lemma listed_array_is_counted_entry_by_entry_witness :
  connected online = true /\
  host Samples.listing 0%nat (js "list_pull_requests")
    (list_params (js "acme") (js "api"))
  = (0%nat, SdkResolved (Samples.listing_result Samples.listing)) /\
  sdk_content (Samples.listing_result Samples.listing)
  = Some [text_segment Samples.listing] /\
  JSON_parse (content_text_of stringify_segment [text_segment Samples.listing])
  = Some (JArr Samples.listed) /\
  Forall (fun pr => pr <> JNull) Samples.listed /\
  checkRepoHasPRsInTimeframe World (host Samples.listing) stringify_segment
    Samples.Date_value online (js "acme") (js "api")
    Samples.week_start Samples.week_end 0%nat
  = (0%nat, mkCheck true 1).
Proof.
  split; [reflexivity |]. split; [reflexivity |]. split; [reflexivity |].
  split; [vm_compute; reflexivity |]. split; [exact sample_listing_not_null |].
  exact (listed_array_is_counted_entry_by_entry (host Samples.listing)
           stringify_segment Samples.Date_value online (js "acme") (js "api")
           Samples.week_start Samples.week_end 0%nat 0%nat
           (Samples.listing_result Samples.listing)
           (text_segment Samples.listing) [] Samples.listed
           eq_refl eq_refl eq_refl eq_refl sample_listing_not_null).
Defined.

Lemma sample_listing_has_null : JNull ∈ Samples.listed_with_null.
Proof. apply list_elem_of_further, list_elem_of_here. Defined.

Lemma null_entry_voids_the_count_witness :
  connected online = true /\
  host Samples.listing_with_null 0%nat (js "list_pull_requests")
    (list_params (js "acme") (js "api"))
  = (0%nat, SdkResolved (Samples.listing_result Samples.listing_with_null)) /\
  sdk_content (Samples.listing_result Samples.listing_with_null)
  = Some [text_segment Samples.listing_with_null] /\
  JSON_parse (content_text_of stringify_segment [text_segment Samples.listing_with_null])
  = Some (JArr Samples.listed_with_null) /\
  JNull ∈ Samples.listed_with_null /\
  checkRepoHasPRsInTimeframe World (host Samples.listing_with_null) stringify_segment
    Samples.Date_value online (js "acme") (js "api")
    Samples.week_start Samples.week_end 0%nat
  = (0%nat, inactive).
Proof.
  split; [reflexivity |]. split; [reflexivity |]. split; [reflexivity |].
  split; [vm_compute; reflexivity |]. split; [exact sample_listing_has_null |].
  exact (null_entry_voids_the_count (host Samples.listing_with_null)
           stringify_segment Samples.Date_value online (js "acme") (js "api")
           Samples.week_start Samples.week_end 0%nat 0%nat
           (Samples.listing_result Samples.listing_with_null)
           (text_segment Samples.listing_with_null) [] Samples.listed_with_null
           eq_refl eq_refl eq_refl eq_refl sample_listing_has_null).
Defined.

End OnSamples.
